(** * Adafruit_SharpMem: framebuffer, raster operations and refresh protocol

    A shallow embedding of [src/Adafruit_SharpMem.cpp].  The driver object is a
    record, every member function is a function on that record, and a call
    that would touch memory outside the allocated pixel buffer, divide by
    zero or never leave its loop has no result ([None]).

    Integer model.  The fields and parameters of the C++ code are 8- and
    16-bit integers; expressions over them are computed in [int] after the
    usual promotions.  [int] is taken to be 32 bits wide (the ARM and ESP
    targets of the library), so an expression over 16-bit operands never
    overflows and is written here on [Z]; the truncation happens where the
    source stores into a narrower variable and is written out with
    [to_uint8], [to_uint16] and [to_int16].  C's [/] and [%] truncate towards
    zero: they are [Z.quot] and [Z.rem].  A parameter holds a value of its C
    type; where a caller computes an argument in [int], the conversion to
    the parameter's type is written at the call, as in [pixel_loop]. *)

From Stdlib Require Import ZArith Lia.
From stdpp Require Import base tactics option list numbers.

Local Open Scope Z_scope.

(** ** Machine integers *)

Definition to_uint8 (z : Z) : Z := z mod 256.
Definition to_uint16 (z : Z) : Z := z mod 65536.
Definition to_int16 (z : Z) : Z := (z + 32768) mod 65536 - 32768.
(** [size_t] on the 32-bit targets. *)
Definition to_size_t (z : Z) : Z := z mod 4294967296.

Definition is_int16 (z : Z) : Prop := -32768 <= z <= 32767.
Definition is_uint8 (z : Z) : Prop := 0 <= z <= 255.

(** ** The pixel buffer as a block of bytes

    [sharpmem_buffer] points to a [malloc]ed block; the block is a list of
    bytes and an offset outside it has no byte. *)

Definition load (buf : list Z) (off : Z) : option Z :=
  if decide (0 <= off) then buf !! Z.to_nat off else None.

Definition store (buf : list Z) (off v : Z) : option (list Z) :=
  if decide (0 <= off < Z.of_nat (length buf))
  then Some (<[Z.to_nat off := v]> buf) else None.

(** [*ptr = f( *ptr )], the read-modify-write of [|=] and [&=]. *)
Definition modify (buf : list Z) (off : Z) (f : Z -> Z) : option (list Z) :=
  b ← load buf off; store buf off (f b).

(** [*ptr |= m] and [*ptr &= m] on a [uint8_t]. *)
Definition or_byte (buf : list Z) (off m : Z) : option (list Z) :=
  modify buf off (fun b => to_uint8 (Z.lor b m)).
Definition and_byte (buf : list Z) (off m : Z) : option (list Z) :=
  modify buf off (fun b => to_uint8 (Z.land b m)).

(** [memset(buf + off, c, n)]. *)
Definition memset (buf : list Z) (off c n : Z) : option (list Z) :=
  if decide (n <= 0) then Some buf
  else if decide (0 <= off /\ off + n <= Z.of_nat (length buf))
  then Some (take (Z.to_nat off) buf ++ replicate (Z.to_nat n) (to_uint8 c)
               ++ drop (Z.to_nat (off + n)) buf)
  else None.

(** The [n] bytes read by [memcpy(dst, buf + off, n)]. *)
Definition memcpy_from (buf : list Z) (off n : Z) : option (list Z) :=
  if decide (n <= 0) then Some []
  else if decide (0 <= off /\ off + n <= Z.of_nat (length buf))
  then Some (take (Z.to_nat n) (drop (Z.to_nat off) buf))
  else None.

(** The block after [memcpy(buf, src, n)]; [src] holds at least [n] bytes. *)
Definition memcpy_into (buf src : list Z) (n : Z) : option (list Z) :=
  if decide (n <= 0) then Some buf
  else if decide (n <= Z.of_nat (length buf) /\ n <= Z.of_nat (length src))
  then Some (take (Z.to_nat n) src ++ drop (Z.to_nat n) buf)
  else None.

(** ** Bit tables *)

Definition set : list Z := [1; 2; 4; 8; 16; 32; 64; 128].
Definition clr : list Z :=
  [to_uint8 (Z.lnot 1); to_uint8 (Z.lnot 2); to_uint8 (Z.lnot 4);
   to_uint8 (Z.lnot 8); to_uint8 (Z.lnot 16); to_uint8 (Z.lnot 32);
   to_uint8 (Z.lnot 64); to_uint8 (Z.lnot 128)].

(** [set[i]] and [clr[i]]; every index the source uses is in [0, 7]. *)
Definition set_at (i : Z) : Z := default 0 (set !! Z.to_nat i).
Definition clr_at (i : Z) : Z := default 0 (clr !! Z.to_nat i).

(** ** The driver object *)

(** What the driver does on the bus and on the chip-select pin, in order. *)
Inductive bus_event : Type :=
  | BeginTransaction
  | EndTransaction
  | DigitalWrite (pin : Z) (high : bool)
  | Transfer (bytes : list Z).

Record driver : Type := Driver {
  WIDTH : Z;            (* int16_t, raw panel width *)
  HEIGHT : Z;           (* int16_t, raw panel height *)
  _width : Z;           (* int16_t, width of the rotated canvas *)
  _height : Z;          (* int16_t, height of the rotated canvas *)
  rotation : Z;         (* uint8_t *)
  _cs : Z;              (* uint8_t, chip-select pin *)
  sharpmem_buffer : list Z;
  _sharpmem_vcom : Z;   (* uint8_t *)
  bus : list bus_event  (* the transport, as the trace of what was sent *)
}.

Definition with_buffer (st : driver) (buf : list Z) : driver :=
  Driver (WIDTH st) (HEIGHT st) (_width st) (_height st) (rotation st)
         (_cs st) buf (_sharpmem_vcom st) (bus st).

Definition with_vcom (st : driver) (v : Z) : driver :=
  Driver (WIDTH st) (HEIGHT st) (_width st) (_height st) (rotation st)
         (_cs st) (sharpmem_buffer st) v (bus st).

Definition emit (st : driver) (e : bus_event) : driver :=
  Driver (WIDTH st) (HEIGHT st) (_width st) (_height st) (rotation st)
         (_cs st) (sharpmem_buffer st) (_sharpmem_vcom st) (bus st ++ [e]).

(** Modelled from the spec: [Adafruit_GFX::setRotation] belongs to the
    graphics base class, which is not among the sources.  The rotation is
    one of four states and the canvas width and height swap under the
    quarter turns 1 and 3. *)
Definition setRotation (st : driver) (r : Z) : driver :=
  let r := Z.land r 3 in
  let '(w, h) := if decide (r = 1 \/ r = 3) then (HEIGHT st, WIDTH st)
                 else (WIDTH st, HEIGHT st) in
  Driver (WIDTH st) (HEIGHT st) w h r (_cs st) (sharpmem_buffer st)
         (_sharpmem_vcom st) (bus st).

(** [width()], [height()] and [getRotation()] of the base class. *)
Definition width (st : driver) : Z := _width st.
Definition height (st : driver) : Z := _height st.
Definition getRotation (st : driver) : Z := rotation st.

(** ** Pixel access *)

(** The second [switch] of [drawPixel], on the raw point that the rotation
    switch has produced.  Colours 0 and 1 (and every selector above 7)
    address the byte through the padded row length [(WIDTH + 7) / 8]; the
    dither colours 2..7 address it through [(y * WIDTH + x) / 8]. *)
Definition write_raw (st : driver) (x y color : Z) : option driver :=
  let buf := sharpmem_buffer st in
  let padded := Z.quot x 8 + y * Z.quot (WIDTH st + 7) 8 in
  let packed := Z.quot (y * WIDTH st + x) 8 in
  let white off := or_byte buf off (set_at (Z.land x 7)) in
  let black off := and_byte buf off (clr_at (Z.land x 7)) in
  buf' ←
    match color with
    | 1 => white padded
    | 7 =>
        if decide (Z.rem y 3 = 2 - Z.rem x 3) then black packed
        else white packed
    | 6 =>
        if decide (Z.rem y 3 = Z.rem x 3) then black packed
        else white packed
    | 5 =>
        if decide ((Z.rem y 4 = 0 /\ Z.rem x 4 = 2) \/
                   (Z.rem x 2 = 1 /\ Z.rem y 2 = 1) \/
                   (Z.rem y 4 = 2 /\ Z.rem x 4 = 0))
        then black packed else white packed
    | 4 =>
        if decide (Z.rem y 2 <> 0) then white packed
        else if decide (Z.rem (x + 2 * Z.rem (Z.quot y 2) 2) 4 = 0)
             then black packed
             else white packed
    | 3 =>
        if decide (Z.rem y 2 <> 0) then black packed
        else if decide (Z.rem (x + 2 * Z.rem (Z.quot y 2) 2) 4 = 0)
             then white packed
             else black packed
    | 2 =>
        if decide (Z.rem (x + y) 2 = 0) then white packed
        else black packed
    | _ => black padded
    end;
  Some (with_buffer st buf').

(** [Adafruit_SharpMem::drawPixel]: the bounds test, the rotation switch on
    the [int16_t] coordinates, then the colour switch. *)
Definition drawPixel (st : driver) (x y color : Z) : option driver :=
  if decide (x < 0 \/ x >= _width st \/ y < 0 \/ y >= _height st)
  then Some st
  else
    let '(x, y) :=
      match rotation st with
      | 1 => let '(x, y) := (y, x) in (to_int16 (WIDTH st - 1 - x), y)
      | 2 => (to_int16 (WIDTH st - 1 - x), to_int16 (HEIGHT st - 1 - y))
      | 3 => let '(x, y) := (y, x) in (x, to_int16 (HEIGHT st - 1 - y))
      | _ => (x, y)
      end in
    write_raw st x y color.

(** The last line of [getPixel], on the raw point. *)
Definition read_raw (st : driver) (x y : Z) : option Z :=
  b ← load (sharpmem_buffer st) (Z.quot (y * WIDTH st + x) 8);
  Some (if decide (Z.land b (set_at (Z.land x 7)) <> 0) then 1 else 0).

(** [Adafruit_SharpMem::getPixel].  The parameters are [uint16_t]: a caller's
    coordinate is converted on the way in, so the single upper-bound test
    also rejects what was negative. *)
Definition getPixel (st : driver) (x y : Z) : option Z :=
  let x := to_uint16 x in
  let y := to_uint16 y in
  if decide (x >= _width st \/ y >= _height st)
  then Some 0
  else
    let '(x, y) :=
      match rotation st with
      | 1 => let '(x, y) := (y, x) in (to_uint16 (WIDTH st - 1 - x), y)
      | 2 => (to_uint16 (WIDTH st - 1 - x), to_uint16 (HEIGHT st - 1 - y))
      | 3 => let '(x, y) := (y, x) in (x, to_uint16 (HEIGHT st - 1 - y))
      | _ => (x, y)
      end in
    read_raw st x y.

(** ** Buffer-wide operations *)

(** The byte count [(WIDTH * HEIGHT) / 8] that [begin], [clearDisplay],
    [clearDisplayBuffer], [copyPixelBuffer], [setBitmap] and [refresh] all
    compute. *)
Definition buffer_bytes (st : driver) : Z := Z.quot (WIDTH st * HEIGHT st) 8.

(** [Adafruit_SharpMem::clearDisplayBuffer]. *)
Definition clearDisplayBuffer (st : driver) : option driver :=
  buf' ← memset (sharpmem_buffer st) 0 255 (to_size_t (buffer_bytes st));
  Some (with_buffer st buf').

(** [Adafruit_SharpMem::copyPixelBuffer]: what lands in the caller's
    [bitmap]. *)
Definition copyPixelBuffer (st : driver) : option (list Z) :=
  memcpy_from (sharpmem_buffer st) 0 (to_size_t (buffer_bytes st)).

(** [Adafruit_SharpMem::setBitmap]. *)
Definition setBitmap (st : driver) (bitmap : list Z) : option driver :=
  buf' ← memcpy_into (sharpmem_buffer st) bitmap (to_size_t (buffer_bytes st));
  Some (with_buffer st buf').

(** ** Raw runs *)

(** The body of both loops of [drawFastRawVLine]: [n] rows, one byte each,
    [row_bytes] apart. *)
Fixpoint column_loop (n : nat) (op : list Z -> Z -> Z -> option (list Z))
    (bit_mask : Z) (buf : list Z) (ptr row_bytes : Z) : option (list Z) :=
  match n with
  | O => Some buf
  | S n' =>
      buf' ← op buf ptr bit_mask;
      column_loop n' op bit_mask buf' (ptr + row_bytes) row_bytes
  end.

(** [Adafruit_SharpMem::drawFastRawVLine]. *)
Definition drawFastRawVLine (st : driver) (x y h color : Z) : option driver :=
  let row_bytes := to_int16 (Z.quot (WIDTH st + 7) 8) in
  let ptr := Z.quot x 8 + y * row_bytes in
  buf' ←
    (if decide (color > 0) then
       let bit_mask := set_at (Z.land x 7) in
       let bit_mask :=
         if decide (color = 2) then
           if decide (Z.rem y 2 = 0) then to_uint8 (Z.land bit_mask 0xAA)
           else to_uint8 (Z.land bit_mask 0x55)
         else bit_mask in
       column_loop (Z.to_nat h) or_byte bit_mask (sharpmem_buffer st)
                   ptr row_bytes
     else
       let bit_mask := clr_at (Z.land x 7) in
       column_loop (Z.to_nat h) and_byte bit_mask (sharpmem_buffer st)
                   ptr row_bytes);
  Some (with_buffer st buf').

(** The three [switch (y % 4)] tables of [drawFastRawHLine]; [dflt] is what
    the assigned variable holds when no case matches (a negative row). *)
Definition pattern7 (y dflt : Z) : Z :=
  match Z.rem y 4 with
  | 0 => 0x77 | 1 => 0xBB | 2 => 0xDD | 3 => 0xEE | _ => dflt
  end.
Definition pattern6 (y dflt : Z) : Z :=
  match Z.rem y 4 with
  | 0 => 0xEE | 1 => 0xDD | 2 => 0xBB | 3 => 0x77 | _ => dflt
  end.
Definition pattern5 (y dflt : Z) : Z :=
  match Z.rem y 4 with
  | 0 => 0xEE | 1 => 0x55 | 2 => 0xBB | 3 => 0x55 | _ => dflt
  end.

(** [*ptr &= ~(mask & ~pattern); *ptr |= mask & pattern;] *)
Definition blend (buf : list Z) (ptr mask pattern : Z) : option (list Z) :=
  buf1 ← and_byte buf ptr (Z.lnot (Z.land mask (Z.lnot pattern)));
  or_byte buf1 ptr (Z.land mask pattern).

(** The colour cascade that [drawFastRawHLine] applies to a partly covered
    byte; the source writes it out twice, for the first and for the last
    byte of the run, with the same text. *)
Definition fill_partial (buf : list Z) (ptr mask y color : Z)
    : option (list Z) :=
  if decide (color = 7) then blend buf ptr mask (pattern7 y 0x00)
  else if decide (color = 6) then blend buf ptr mask (pattern6 y 0x00)
  else if decide (color = 5) then blend buf ptr mask (pattern5 y 0x00)
  else if decide (color = 4) then
    if decide (Z.rem y 2 <> 0) then or_byte buf ptr mask
    else blend buf ptr mask 0x55
  else if decide (color = 3) then
    if decide (Z.rem y 2 <> 0) then and_byte buf ptr (Z.lnot mask)
    else blend buf ptr mask 0xAA
  else if decide (color = 2) then
    if decide (Z.rem y 2 = 0) then blend buf ptr mask 0xAA
    else blend buf ptr mask 0x55
  else if decide (color = 1) then or_byte buf ptr mask
  else and_byte buf ptr (Z.lnot mask).

(** [wholeByteColor], the byte given to [memset]. *)
Definition whole_byte_color (y color : Z) : Z :=
  let wholeByteColor := if decide (color > 0) then 0xFF else 0x00 in
  if decide (color = 7) then pattern7 y wholeByteColor
  else if decide (color = 6) then pattern6 y wholeByteColor
  else if decide (color = 5) then pattern5 y wholeByteColor
  else if decide (color = 4) then
    if decide (Z.rem y 2 <> 0) then 0xFF else 0x55
  else if decide (color = 3) then
    if decide (Z.rem y 2 <> 0) then 0x00 else 0xAA
  else if decide (color = 2) then
    if decide (Z.rem y 2 = 0) then 0xAA else 0x55
  else wholeByteColor.

(** [for (int8_t i = (x & 7); (i < 8) && (remainingWidthBits > 0); i++)]:
    the mask of the first byte and the bits left over.  [i] starts above 0,
    so eight rounds are more than the loop can take. *)
Fixpoint start_mask_loop (fuel : nat) (i startByteBitMask remainingWidthBits : Z)
    : Z * Z :=
  match fuel with
  | O => (startByteBitMask, remainingWidthBits)
  | S fuel' =>
      if decide (i < 8 /\ remainingWidthBits > 0)
      then start_mask_loop fuel' (i + 1) (Z.lor startByteBitMask (set_at i))
                           (remainingWidthBits - 1)
      else (startByteBitMask, remainingWidthBits)
  end.

(** [for (size_t i = 0; i < lastByteBits; i++) lastByteBitMask |= set[i];]
    with [lastByteBits < 8]. *)
Fixpoint last_mask_loop (fuel : nat) (i lastByteBits lastByteBitMask : Z) : Z :=
  match fuel with
  | O => lastByteBitMask
  | S fuel' =>
      if decide (i < lastByteBits)
      then last_mask_loop fuel' (i + 1) lastByteBits
                          (Z.lor lastByteBitMask (set_at i))
      else lastByteBitMask
  end.

(** The second half of [drawFastRawHLine], "do the next remainingWidthBits
    bits": whole bytes by [memset], then a partly covered last byte. *)
Definition fill_rest (buf : list Z) (ptr remainingWidthBits y color : Z)
    : option (list Z) :=
  if decide (remainingWidthBits > 0) then
    let remainingWholeBytes := Z.quot remainingWidthBits 8 in
    let lastByteBits := Z.rem remainingWidthBits 8 in
    let wholeByteColor := whole_byte_color y color in
    buf ← memset buf ptr wholeByteColor remainingWholeBytes;
    if decide (lastByteBits > 0) then
      let lastByteBitMask := last_mask_loop 8 0 lastByteBits 0x00 in
      let ptr := ptr + remainingWholeBytes in
      fill_partial buf ptr lastByteBitMask y color
    else Some buf
  else Some buf.

(** [Adafruit_SharpMem::drawFastRawHLine]: a partly covered first byte, then
    the rest. *)
Definition drawFastRawHLine (st : driver) (x y w color : Z) : option driver :=
  let rowBytes := to_int16 (Z.quot (WIDTH st + 7) 8) in
  let ptr := Z.quot x 8 + y * rowBytes in
  let remainingWidthBits := to_size_t w in
  '(buf, ptr, remainingWidthBits) ←
    (if decide (Z.land x 7 > 0) then
       let '(startByteBitMask, remainingWidthBits) :=
         start_mask_loop 8 (Z.land x 7) 0x00 remainingWidthBits in
       buf ← fill_partial (sharpmem_buffer st) ptr startByteBitMask y color;
       Some (buf, ptr + 1, remainingWidthBits)
     else Some (sharpmem_buffer st, ptr, remainingWidthBits));
  buf' ← fill_rest buf ptr remainingWidthBits y color;
  Some (with_buffer st buf').

(** ** Logical runs *)

(** The rotation cascade that ends [drawFastHLine]: the clipped logical run
    becomes a raw horizontal run under rotations 0 and 2 and a raw vertical
    run under rotations 1 and 3. *)
Definition rotated_run (st : driver) (x y w color : Z) : option driver :=
  if decide (getRotation st = 0) then drawFastRawHLine st x y w color
  else if decide (getRotation st = 1) then
    let t := x in
    let x := to_int16 (WIDTH st - 1 - y) in
    let y := t in
    drawFastRawVLine st x y w color
  else if decide (getRotation st = 2) then
    let x := to_int16 (WIDTH st - 1 - x) in
    let y := to_int16 (HEIGHT st - 1 - y) in
    let x := to_int16 (x - (w - 1)) in
    drawFastRawHLine st x y w color
  else if decide (getRotation st = 3) then
    let t := x in
    let x := y in
    let y := to_int16 (HEIGHT st - 1 - t) in
    let y := to_int16 (y - (w - 1)) in
    drawFastRawVLine st x y w color
  else Some st.

(** [Adafruit_SharpMem::drawFastHLine]: negative widths turned round, edge
    rejection, clipping on the left and on the right, then the rotation
    cascade. *)
Definition drawFastHLine (st : driver) (x y w color : Z) : option driver :=
  let '(x, w) :=
    if decide (w < 0) then
      let w := to_int16 (w * -1) in
      let x := to_int16 (x - (w - 1)) in
      if decide (x < 0) then (0, to_int16 (w + x)) else (x, w)
    else (x, w) in
  if decide (y < 0 \/ y >= height st \/ x >= width st \/ x + w - 1 < 0)
  then Some st
  else
    let '(x, w) := if decide (x < 0) then (0, to_int16 (w + x)) else (x, w) in
    let w := if decide (x + w >= width st) then to_int16 (width st - x)
             else w in
    rotated_run st x y w color.

(** The loop of [fillRect]: [for (int16_t i = y; i < y + h; i++)].  The
    counter is 16 bits wide and the bound is an [int]; a loop that has not
    ended after 65536 rounds has met every value of [i] and never ends. *)
Fixpoint fillRect_loop (fuel : nat) (st : driver) (x i bound w color : Z)
    : option driver :=
  match fuel with
  | O => None
  | S fuel' =>
      if decide (i < bound) then
        st' ← drawFastHLine st x i w color;
        fillRect_loop fuel' st' x (to_int16 (i + 1)) bound w color
      else Some st
  end.

(** [Adafruit_SharpMem::fillRect]. *)
Definition fillRect (st : driver) (x y w h color : Z) : option driver :=
  fillRect_loop (Z.to_nat 65536) st x y (y + h) w color.

(** ** Thick lines *)

(** A call that the graphics base class makes back into the driver. *)
Inductive gfx_call : Type :=
  | CallDrawPixel (x y : Z)
  | CallDrawFastHLine (x y w : Z).

Definition run_call (color : Z) (st : driver) (c : gfx_call) : option driver :=
  match c with
  | CallDrawPixel x y => drawPixel st x y color
  | CallDrawFastHLine x y w => drawFastHLine st x y w color
  end.

Fixpoint run_calls (color : Z) (st : driver) (cs : list gfx_call)
    : option driver :=
  match cs with
  | [] => Some st
  | c :: cs' => st' ← run_call color st c; run_calls color st' cs'
  end.

Section ThickLine.

(** The floating-point part of [drawFatLine]: from the stroke width and
    the two end points, [None] when the length [l] is below 1, otherwise
    the truncated offsets [((int)px, (int)py)]. *)
Variable perpendicular : Z -> Z -> Z -> Z -> Z -> option (Z * Z).

(** Modelled from the spec: [Adafruit_GFX::fillTriangle] is the external
    graphics collaborator; it rasterises the triangle and calls back into
    the pixel and horizontal-run primitives of the driver.  Which calls it
    makes is left open. *)
Variable triangle_calls : Z -> Z -> Z -> Z -> Z -> Z -> list gfx_call.

Definition fillTriangle (st : driver) (x0 y0 x1 y1 x2 y2 color : Z)
    : option driver :=
  run_calls color st
    (triangle_calls (to_int16 x0) (to_int16 y0) (to_int16 x1) (to_int16 y1)
                    (to_int16 x2) (to_int16 y2)).

(** [Adafruit_SharpMem::drawFatLine]. *)
Definition drawFatLine (st : driver) (x0 y0 x1 y1 strokeWidth color : Z)
    : option driver :=
  if decide (strokeWidth < 1) then Some st
  else
    match perpendicular strokeWidth x0 y0 x1 y1 with
    | None => Some st
    | Some (px, py) =>
        st' ← fillTriangle st (x0 + px) (y0 + py) (x1 + px) (y1 + py)
                           (x1 - px) (y1 - py) color;
        fillTriangle st' (x0 + px) (y0 + py) (x1 - px) (y1 - py)
                     (x0 - px) (y0 - py) color
    end.

End ThickLine.

(** ** Refresh protocol *)

Section Protocol.

(** The command bits; [Adafruit_SharpMem.h], which defines them, is not
    among the sources. *)
Variables SHARPMEM_BIT_WRITECMD SHARPMEM_BIT_VCOM SHARPMEM_BIT_CLEAR : Z.

(** The macro [TOGGLE_VCOM]. *)
Definition TOGGLE_VCOM (st : driver) : driver :=
  with_vcom st (if decide (_sharpmem_vcom st <> 0) then 0x00
                else SHARPMEM_BIT_VCOM).

(** [Adafruit_SharpMem::clearDisplay]. *)
Definition clearDisplay (st : driver) : option driver :=
  buf' ← memset (sharpmem_buffer st) 0 0xff (to_size_t (buffer_bytes st));
  let st := with_buffer st buf' in
  let st := emit st BeginTransaction in
  let st := emit st (DigitalWrite (_cs st) true) in
  let clear_data :=
    [to_uint8 (Z.lor (_sharpmem_vcom st) SHARPMEM_BIT_CLEAR); 0x00] in
  let st := emit st (Transfer clear_data) in
  let st := TOGGLE_VCOM st in
  let st := emit st (DigitalWrite (_cs st) false) in
  Some (emit st EndTransaction).

(** The loop of [refresh]:
    [for (i = 0; i < totalbytes; i += bytes_per_line)], one [transfer] of
    the [bytes_per_line + 2] bytes of [line] per round.  [i] is a
    [uint16_t]; [fuel] bounds the rounds. *)
Fixpoint refresh_loop (fuel : nat) (st : driver)
    (i totalbytes bytes_per_line : Z) : option driver :=
  match fuel with
  | O => None
  | S fuel' =>
      if decide (i < totalbytes) then
        if decide (Z.quot (WIDTH st) 8 = 0) then None
        else
          let currentline :=
            to_uint16 (Z.quot (i + 1) (Z.quot (WIDTH st) 8) + 1) in
          row ← memcpy_from (sharpmem_buffer st) i bytes_per_line;
          let line := [to_uint8 currentline] ++ row ++ [0x00] in
          let st := emit st (Transfer line) in
          refresh_loop fuel' st (to_uint16 (i + bytes_per_line))
                       totalbytes bytes_per_line
      else Some st
  end.

(** [Adafruit_SharpMem::refresh].  A loop that has not ended after 65536
    rounds has brought the 16-bit counter back to a value it had before
    and never ends. *)
Definition refresh (st : driver) : option driver :=
  let st := emit st BeginTransaction in
  let st := emit st (DigitalWrite (_cs st) true) in
  let st := emit st (Transfer [to_uint8 (Z.lor (_sharpmem_vcom st)
                                               SHARPMEM_BIT_WRITECMD)]) in
  let st := TOGGLE_VCOM st in
  let bytes_per_line := to_uint8 (Z.quot (WIDTH st) 8) in
  let totalbytes := to_uint16 (Z.quot (WIDTH st * HEIGHT st) 8) in
  st ← refresh_loop (Z.to_nat 65536) st 0 totalbytes bytes_per_line;
  let st := emit st (Transfer [0x00]) in
  let st := emit st (DigitalWrite (_cs st) false) in
  Some (emit st EndTransaction).

End Protocol.

(** ** Well-formed driver objects *)

(** The block that [begin] allocates: [malloc((WIDTH * HEIGHT) / 8)]. *)
Definition allocated (st : driver) : Prop :=
  Z.of_nat (length (sharpmem_buffer st)) = buffer_bytes st.

(** The canvas that the base class keeps for the current rotation, over a
    panel whose sizes are positive [int16_t] values. *)
Definition canvas_ok (st : driver) : Prop :=
  0 < WIDTH st <= 32767 /\ 0 < HEIGHT st <= 32767 /\
  0 <= rotation st <= 3 /\
  _width st = (if decide (rotation st = 1 \/ rotation st = 3)
               then HEIGHT st else WIDTH st) /\
  _height st = (if decide (rotation st = 1 \/ rotation st = 3)
                then WIDTH st else HEIGHT st).

(** A panel of [w] by [h] pixels in rotation [r] with pixel buffer [buf],
    chip select on pin 10, nothing sent yet. *)
Definition panel (w h r : Z) (buf : list Z) (vcom : Z) : driver :=
  setRotation (Driver w h w h 0 10 buf vcom []) r.

(** ** Vocabulary of the statements *)

(** [st'] differs from [st] in the pixel buffer at most. *)
Definition only_buffer_changed (st st' : driver) : Prop :=
  WIDTH st' = WIDTH st /\ HEIGHT st' = HEIGHT st /\
  _width st' = _width st /\ _height st' = _height st /\
  rotation st' = rotation st /\ _cs st' = _cs st /\
  _sharpmem_vcom st' = _sharpmem_vcom st /\ bus st' = bus st.

(** [st'] differs from [st] in what was sent on the bus at most. *)
Definition only_bus_changed (st st' : driver) : Prop :=
  WIDTH st' = WIDTH st /\ HEIGHT st' = HEIGHT st /\
  _width st' = _width st /\ _height st' = _height st /\
  rotation st' = rotation st /\ _cs st' = _cs st /\
  sharpmem_buffer st' = sharpmem_buffer st /\
  _sharpmem_vcom st' = _sharpmem_vcom st.

(** The record that one round of the loop sends for the row starting at
    byte [r * stride], on a panel of raw width [w] with pixel buffer [buf]:
    the address byte as the source computes it, the bytes of the row, and
    the trailer. *)
Definition row_record (w : Z) (buf : list Z) (stride r : Z) : bus_event :=
  Transfer ([to_uint8 (to_uint16 (Z.quot (r * stride + 1) (Z.quot w 8) + 1))]
            ++ take (Z.to_nat stride) (drop (Z.to_nat (r * stride)) buf)
            ++ [0]).

(** Panels on which [refresh] is defined: the width is a whole number of
    bytes that fits the 8-bit [bytes_per_line], and the allocated buffer
    fits the 16-bit [totalbytes]. *)
Definition refresh_ready (st : driver) : Prop :=
  allocated st /\ 8 <= WIDTH st <= 2040 /\ Z.rem (WIDTH st) 8 = 0 /\
  0 <= HEIGHT st <= 32767 /\ buffer_bytes st <= 65535.

(** The value of [_sharpmem_vcom] after one [TOGGLE_VCOM]. *)
Definition flipped (SHARPMEM_BIT_VCOM vcom : Z) : Z :=
  if decide (vcom = 0) then SHARPMEM_BIT_VCOM else 0.

(** The mapping from a logical point to raw coordinates as the specification
    writes it, over the unrotated panel sizes [W] and [H]. *)
Definition raw_point (W H r x y : Z) : Z * Z :=
  match r with
  | 1 => (W - 1 - y, x)
  | 2 => (W - 1 - x, H - 1 - y)
  | 3 => (y, H - 1 - x)
  | _ => (x, y)
  end.

(** The pixel-by-pixel reference for a horizontal run: [drawPixel] with the
    same colour at each of the [n] points from [(x, y)] rightwards.  The
    caller computes each coordinate in [int]; [drawPixel] takes an
    [int16_t] and receives the converted value. *)
Fixpoint pixel_loop (n : nat) (st : driver) (x y color : Z) : option driver :=
  match n with
  | O => Some st
  | S n' =>
      st' ← drawPixel st (to_int16 x) y color;
      pixel_loop n' st' (x + 1) y color
  end.

(** The logical run of [drawFastHLine (x, y, w)] drawn pixel by pixel: [w]
    points from [x] rightwards, or for a negative [w] the [-w] points that
    end at [x]. *)
Definition hline_by_pixels (st : driver) (x y w color : Z) : option driver :=
  if decide (w < 0) then pixel_loop (Z.to_nat (- w)) st (x + w + 1) y color
  else pixel_loop (Z.to_nat w) st x y color.

(** One record of the wire format: the 1-based line address, the [stride]
    bytes of row [r], and the trailer. *)
Definition wire_record (buf : list Z) (stride r : Z) : bus_event :=
  Transfer ([r + 1]
            ++ take (Z.to_nat stride) (drop (Z.to_nat (r * stride)) buf)
            ++ [0]).

(** Bit [g] of the buffer read as one string of bits, least significant
    bit of byte 0 first. *)
Definition bit_at (buf : list Z) (g : Z) : bool :=
  match load buf (g / 8) with
  | Some b => Z.testbit b (g mod 8)
  | None => false
  end.

(** [buf'] is [buf] with the bits in [S] set to [c] and all others kept. *)
Definition painted (S : Z -> Prop) (c : bool) (buf buf' : list Z) : Prop :=
  length buf' = length buf /\
  Forall is_uint8 buf' /\
  forall g, 0 <= g < 8 * Z.of_nat (length buf) ->
    (S g /\ bit_at buf' g = c) \/ (~ S g /\ bit_at buf' g = bit_at buf g).

(** The position of raw pixel (x, y) in the bit string, for rows of
    [stride] bytes. *)
Definition pixel_bit (stride x y : Z) : Z := 8 * (y * stride) + x.


(** The padded buffer of the drawing code: [HEIGHT] rows of
    [(WIDTH + 7) / 8] bytes, all of them bytes. *)
Definition padded_buffer (st : driver) : Prop :=
  Z.quot (WIDTH st + 7) 8 * HEIGHT st
    <= Z.of_nat (length (sharpmem_buffer st)) /\
  Forall is_uint8 (sharpmem_buffer st).

(** The bit of the logical point (x, y) under the driver's rotation. *)
Definition logical_bit (st : driver) (x y : Z) : Z :=
  pixel_bit (Z.quot (WIDTH st + 7) 8)
            (raw_point (WIDTH st) (HEIGHT st) (rotation st) x y).1
            (raw_point (WIDTH st) (HEIGHT st) (rotation st) x y).2.

(** ** Vocabulary of the statements on runs and rectangles *)

(** [n] successive rows of [drawFastHLine], from row [y] down: what the
    loop of [fillRect] does when its counter does not wrap. *)
Fixpoint rows_loop (n : nat) (st : driver) (x y w color : Z) : option driver :=
  match n with
  | O => Some st
  | S n' =>
      st' ← drawFastHLine st x y w color; rows_loop n' st' x (y + 1) w color
  end.

(** [buf'] is [buf] with each bit [g] in [S] set to [v g] and all others
    kept: [painted] with a value that may vary from bit to bit. *)
Definition stamped (S : Z -> Prop) (v : Z -> bool) (buf buf' : list Z) : Prop :=
  length buf' = length buf /\
  Forall is_uint8 buf' /\
  forall g, 0 <= g < 8 * Z.of_nat (length buf) ->
    (S g /\ bit_at buf' g = v g) \/ (~ S g /\ bit_at buf' g = bit_at buf g).

(** Bit [g mod 8] of the byte that [drawFastRawHLine] gives to [memset] on
    raw row [y]: the row's dither pattern, anchored at the byte grid. *)
Definition run_bit (y color g : Z) : bool :=
  Z.testbit (whole_byte_color y color) (g mod 8).

(** The bit that the run code's dither gives to bit [g] of a buffer whose
    rows are [stride] bytes: [run_bit] on the raw row that holds [g]. *)
Definition dither_bit (stride color g : Z) : bool :=
  run_bit (g / (8 * stride)) color g.

(** ** Start-up *)

(** [Adafruit_SharpMem::begin].  [spi_begin] is what [spidev->begin()]
    returns and [malloc] is the allocator, [None] standing for a null
    pointer, which is kept as a buffer without a byte.  The result is the
    boolean returned and the driver afterwards. *)
Definition begin (SHARPMEM_BIT_VCOM : Z) (spi_begin : bool)
    (malloc : Z -> option (list Z)) (st : driver) : bool * driver :=
  if negb spi_begin then (false, st)
  else
    let st := emit st (DigitalWrite (_cs st) false) in
    let st := with_vcom st SHARPMEM_BIT_VCOM in
    match malloc (to_size_t (buffer_bytes st)) with
    | None => (false, with_buffer st [])
    | Some block => (true, setRotation (with_buffer st block) 0)
    end.

(** ** Vocabulary of the statements on memory safety *)

(** The call returned, and what it returned is the driver with a buffer of
    the same length that still holds bytes. *)
Definition returns_padded (st : driver) (r : option driver) : Prop :=
  exists buf',
    r = Some (with_buffer st buf') /\
    length buf' = length (sharpmem_buffer st) /\
    Forall is_uint8 buf'.

(** * Properties *)

(** ** Memory lemmas *)

Lemma load_Some buf off b :
  load buf off = Some b -> 0 <= off < Z.of_nat (length buf).
Proof.
  unfold load. case_decide; [|done].
  intros Hl. apply lookup_lt_Some in Hl. lia.
Qed.

Lemma load_in_range buf off :
  0 <= off < Z.of_nat (length buf) -> is_Some (load buf off).
Proof.
  intros Hr. unfold load. rewrite decide_True by lia.
  apply lookup_lt_is_Some. lia.
Qed.

Lemma modify_Some buf off f buf' :
  modify buf off f = Some buf' ->
  exists b, load buf off = Some b /\ buf' = <[Z.to_nat off := f b]> buf.
Proof.
  unfold modify. destruct (load buf off) as [b|] eqn:Hl; [|done].
  cbn. unfold store. apply load_Some in Hl.
  rewrite decide_True by done. intros [= <-]. eauto.
Qed.

Lemma modify_in_range buf off f :
  0 <= off < Z.of_nat (length buf) -> is_Some (modify buf off f).
Proof.
  intros Hr. unfold modify.
  destruct (load_in_range buf off Hr) as [b ->]. cbn.
  unfold store. rewrite decide_True by done. eauto.
Qed.

Lemma modify_length buf off f buf' :
  modify buf off f = Some buf' -> length buf' = length buf.
Proof.
  intros (b & _ & ->)%modify_Some. apply length_insert.
Qed.

(** After a read-modify-write the byte at [off] is the modified one and every
    other byte is as before. *)
Lemma load_modify buf off f buf' j :
  modify buf off f = Some buf' ->
  load buf' j = if decide (j = off) then f <$> load buf j else load buf j.
Proof.
  intros Hm. destruct (modify_Some _ _ _ _ Hm) as (b & Hl & ->).
  pose proof (load_Some _ _ _ Hl) as Hr.
  destruct (decide (j = off)) as [->|Hj].
  - unfold load in Hl |- *. rewrite decide_True in Hl by lia.
    rewrite !decide_True by lia.
    rewrite list_lookup_insert_eq by lia. by rewrite Hl.
  - unfold load. case_decide; [|done].
    apply list_lookup_insert_ne. lia.
Qed.

Lemma memset_all buf c :
  memset buf 0 c (Z.of_nat (length buf)) =
  Some (replicate (length buf) (to_uint8 c)).
Proof.
  unfold memset. destruct buf as [|b buf].
  - done.
  - rewrite decide_False by (cbn [length]; lia).
    rewrite decide_True by lia.
    rewrite Z.add_0_l, Nat2Z.id. change (Z.to_nat 0) with 0%nat.
    rewrite take_0, drop_all, app_nil_r. done.
Qed.

Lemma memcpy_from_all buf :
  memcpy_from buf 0 (Z.of_nat (length buf)) = Some buf.
Proof.
  unfold memcpy_from. destruct buf as [|b buf].
  - done.
  - rewrite decide_False by (cbn [length]; lia).
    rewrite decide_True by lia.
    rewrite Nat2Z.id. change (Z.to_nat 0) with 0%nat.
    rewrite drop_0, firstn_all. done.
Qed.

(** ** Machine-integer lemmas *)

Lemma to_int16_id z : is_int16 z -> to_int16 z = z.
Proof.
  unfold is_int16, to_int16. intros Hz.
  rewrite Z.mod_small by lia. lia.
Qed.

Lemma to_uint16_id z : 0 <= z <= 65535 -> to_uint16 z = z.
Proof. unfold to_uint16. intros Hz. apply Z.mod_small. lia. Qed.

Lemma to_uint8_id z : is_uint8 z -> to_uint8 z = z.
Proof. unfold is_uint8, to_uint8. intros Hz. apply Z.mod_small. lia. Qed.

Lemma to_size_t_id z : 0 <= z < 4294967296 -> to_size_t z = z.
Proof. unfold to_size_t. intros Hz. by apply Z.mod_small. Qed.

Lemma to_uint16_neg z : -32768 <= z < 0 -> to_uint16 z = z + 65536.
Proof.
  unfold to_uint16. intros Hz.
  rewrite <- (Z.mod_add z 1 65536) by lia.
  apply Z.mod_small. lia.
Qed.

(** The size of the allocated block fits [size_t]. *)
Lemma buffer_bytes_size_t st :
  is_int16 (WIDTH st) -> is_int16 (HEIGHT st) -> allocated st ->
  to_size_t (buffer_bytes st) = Z.of_nat (length (sharpmem_buffer st)).
Proof.
  unfold is_int16, allocated. intros Hw Hh Ha. rewrite Ha.
  apply to_size_t_id. split; [lia|].
  unfold buffer_bytes.
  assert (WIDTH st * HEIGHT st <= 32768 * 32768) by nia.
  pose proof (Z.quot_le_mono (WIDTH st * HEIGHT st) (32768 * 32768) 8).
  assert (Z.quot (32768 * 32768) 8 = 134217728) by reflexivity.
  lia.
Qed.

(** ** What the raster operations leave alone *)

Lemma only_buffer_changed_refl st : only_buffer_changed st st.
Proof. by repeat split. Qed.

Lemma only_buffer_changed_trans st1 st2 st3 :
  only_buffer_changed st1 st2 -> only_buffer_changed st2 st3 ->
  only_buffer_changed st1 st3.
Proof.
  unfold only_buffer_changed. intros H12 H23.
  destruct_and!. repeat split; congruence.
Qed.

Lemma bind_with_buffer st (m : option (list Z)) st' :
  (buf' ← m; Some (with_buffer st buf')) = Some st' ->
  only_buffer_changed st st'.
Proof.
  destruct m as [buf'|]; [|done]. cbn. intros [= <-].
  by repeat split.
Qed.

Lemma write_raw_frame st x y color st' :
  write_raw st x y color = Some st' -> only_buffer_changed st st'.
Proof. unfold write_raw. apply bind_with_buffer. Qed.

Lemma drawPixel_frame st x y color st' :
  drawPixel st x y color = Some st' -> only_buffer_changed st st'.
Proof.
  unfold drawPixel. case_decide.
  - intros [= <-]. apply only_buffer_changed_refl.
  - case_match. apply write_raw_frame.
Qed.

Lemma drawFastRawVLine_frame st x y h color st' :
  drawFastRawVLine st x y h color = Some st' -> only_buffer_changed st st'.
Proof. unfold drawFastRawVLine. apply bind_with_buffer. Qed.

Lemma drawFastRawHLine_frame st x y w color st' :
  drawFastRawHLine st x y w color = Some st' -> only_buffer_changed st st'.
Proof.
  unfold drawFastRawHLine.
  match goal with
  | |- (mbind ?k ?m) = _ -> _ => destruct m as [[[buf ptr] r]|]; [|done]
  end.
  cbn. apply bind_with_buffer.
Qed.

Lemma drawFastHLine_frame st x y w color st' :
  drawFastHLine st x y w color = Some st' -> only_buffer_changed st st'.
Proof.
  unfold drawFastHLine, rotated_run. repeat case_match; intros Hd;
    try (injection Hd as <-; apply only_buffer_changed_refl);
    eauto using drawFastRawHLine_frame, drawFastRawVLine_frame.
Qed.

Lemma fillRect_loop_frame fuel : forall st x i bound w color st',
  fillRect_loop fuel st x i bound w color = Some st' ->
  only_buffer_changed st st'.
Proof.
  induction fuel as [|fuel IH]; intros st x i bound w color st'; [done|].
  cbn [fillRect_loop]. case_decide.
  - destruct (drawFastHLine st x i w color) as [st1|] eqn:Hd; [|done].
    cbn. intros Hl.
    eapply only_buffer_changed_trans;
      eauto using drawFastHLine_frame.
  - intros [= <-]. apply only_buffer_changed_refl.
Qed.

Lemma fillRect_frame st x y w h color st' :
  fillRect st x y w h color = Some st' -> only_buffer_changed st st'.
Proof. apply fillRect_loop_frame. Qed.

Lemma run_calls_frame color cs : forall st st',
  run_calls color st cs = Some st' -> only_buffer_changed st st'.
Proof.
  induction cs as [|c cs IH]; intros st st'; cbn [run_calls].
  - intros [= <-]. apply only_buffer_changed_refl.
  - destruct (run_call color st c) as [st1|] eqn:Hc; [|done].
    cbn. intros Hr.
    eapply only_buffer_changed_trans; [|by eapply IH].
    destruct c; cbn in Hc;
      eauto using drawPixel_frame, drawFastHLine_frame.
Qed.

Lemma drawFatLine_frame perpendicular triangle_calls
    st x0 y0 x1 y1 strokeWidth color st' :
  drawFatLine perpendicular triangle_calls st x0 y0 x1 y1 strokeWidth color
    = Some st' ->
  only_buffer_changed st st'.
Proof.
  unfold drawFatLine, fillTriangle. case_decide.
  - intros [= <-]. apply only_buffer_changed_refl.
  - destruct (perpendicular _ _ _ _ _) as [[px py]|].
    + match goal with
      | |- (mbind ?k ?m) = _ -> _ => destruct m as [st1|] eqn:H1; [|done]
      end.
      cbn. intros H2.
      eapply only_buffer_changed_trans; eauto using run_calls_frame.
    + intros [= <-]. apply only_buffer_changed_refl.
Qed.

Lemma clearDisplayBuffer_frame st st' :
  clearDisplayBuffer st = Some st' -> only_buffer_changed st st'.
Proof. unfold clearDisplayBuffer. apply bind_with_buffer. Qed.

Lemma setBitmap_frame st bitmap st' :
  setBitmap st bitmap = Some st' -> only_buffer_changed st st'.
Proof. unfold setBitmap. apply bind_with_buffer. Qed.

(** ** The refresh loop *)

Lemma only_bus_changed_refl st : only_bus_changed st st.
Proof. by repeat split. Qed.

Lemma only_bus_changed_trans st1 st2 st3 :
  only_bus_changed st1 st2 -> only_bus_changed st2 st3 ->
  only_bus_changed st1 st3.
Proof.
  unfold only_bus_changed. intros H12 H23.
  destruct_and!. repeat split; congruence.
Qed.

Lemma only_bus_changed_emit st e : only_bus_changed st (emit st e).
Proof. by repeat split. Qed.

Lemma refresh_loop_frame fuel : forall st i totalbytes bytes_per_line st',
  refresh_loop fuel st i totalbytes bytes_per_line = Some st' ->
  only_bus_changed st st'.
Proof.
  induction fuel as [|fuel IH]; intros st i tb bpl st'; [done|].
  cbn [refresh_loop]. case_decide.
  - case_decide; [done|].
    destruct (memcpy_from _ _ _) as [row|]; [|done]. cbn.
    intros Hl. apply IH in Hl.
    eapply only_bus_changed_trans; [apply only_bus_changed_emit|done].
  - intros [= <-]. apply only_bus_changed_refl.
Qed.

(** With enough fuel the loop sends one record per row and ends. *)
Lemma refresh_loop_run stride rows (n : nat) : forall k st fuel,
  n = Z.to_nat (rows - k) ->
  1 <= stride -> Z.quot (WIDTH st) 8 <> 0 ->
  0 <= k <= rows -> rows * stride <= 65535 ->
  rows * stride <= Z.of_nat (length (sharpmem_buffer st)) ->
  (n < fuel)%nat ->
  exists st',
    refresh_loop fuel st (k * stride) (rows * stride) stride = Some st' /\
    bus st' = bus st ++
      map (row_record (WIDTH st) (sharpmem_buffer st) stride)
          (seqZ k (rows - k)).
Proof.
  induction n as [|n IH]; intros k st fuel Hn Hs Hw Hk Hmax Hlen Hfuel.
  - assert (k = rows) as -> by lia.
    destruct fuel as [|fuel]; [lia|]. cbn [refresh_loop].
    rewrite decide_False by lia. exists st. split; [done|].
    rewrite Z.sub_diag. cbn. by rewrite app_nil_r.
  - assert (k < rows) as Hlt by lia.
    destruct fuel as [|fuel]; [lia|]. cbn [refresh_loop].
    rewrite decide_True by nia. rewrite decide_False by done.
    unfold memcpy_from. rewrite decide_False by lia.
    rewrite decide_True by nia. cbn.
    set (st1 := emit st _).
    destruct (IH (k + 1) st1 fuel) as (st' & Hrun & Hbus);
      [lia | done | done | lia | done | done | lia |].
    replace (to_uint16 (k * stride + stride)) with ((k + 1) * stride)
      by (rewrite to_uint16_id; nia).
    exists st'. split; [done|].
    rewrite Hbus. subst st1. cbn [bus emit WIDTH sharpmem_buffer].
    rewrite (seqZ_cons k) by lia. cbn [map].
    rewrite <- app_assoc. cbn [app].
    replace (Z.succ k) with (k + 1) by lia.
    replace (Z.pred (rows - k)) with (rows - (k + 1)) by lia.
    done.
Qed.

Lemma quot8_exact w h :
  Z.rem w 8 = 0 -> Z.quot (w * h) 8 = Z.quot w 8 * h.
Proof.
  intros Hr. pose proof (Z.quot_rem' w 8) as Hw. rewrite Hr in Hw.
  rewrite Hw at 1. rewrite Z.add_0_r.
  replace (8 * Z.quot w 8 * h) with (Z.quot w 8 * h * 8) by lia.
  apply Z.quot_mul. done.
Qed.

Section ProtocolFacts.

Variables SHARPMEM_BIT_WRITECMD SHARPMEM_BIT_VCOM SHARPMEM_BIT_CLEAR : Z.

(** What a completed [refresh] leaves behind. *)
Lemma refresh_frame st st' :
  refresh SHARPMEM_BIT_WRITECMD SHARPMEM_BIT_VCOM st = Some st' ->
  WIDTH st' = WIDTH st /\ HEIGHT st' = HEIGHT st /\
  _width st' = _width st /\ _height st' = _height st /\
  rotation st' = rotation st /\ _cs st' = _cs st /\
  sharpmem_buffer st' = sharpmem_buffer st /\
  _sharpmem_vcom st' = flipped SHARPMEM_BIT_VCOM (_sharpmem_vcom st).
Proof.
  unfold refresh.
  match goal with
  | |- (mbind ?k ?m) = _ -> _ => destruct m as [st1|] eqn:Hl; [|done]
  end.
  cbn. intros [= <-].
  apply refresh_loop_frame in Hl. unfold only_bus_changed in Hl.
  cbn in Hl. cbn. unfold flipped.
  destruct Hl as (HW & HH & Hw & Hh & Hrot & Hcs & Hbuf & Hvcom).
  repeat split; try done.
  rewrite Hvcom. by repeat case_decide.
Qed.

(** What a completed [clearDisplay] leaves behind. *)
Lemma clearDisplay_frame st st' :
  clearDisplay SHARPMEM_BIT_VCOM SHARPMEM_BIT_CLEAR st = Some st' ->
  WIDTH st' = WIDTH st /\ HEIGHT st' = HEIGHT st /\
  _width st' = _width st /\ _height st' = _height st /\
  rotation st' = rotation st /\ _cs st' = _cs st /\
  _sharpmem_vcom st' = flipped SHARPMEM_BIT_VCOM (_sharpmem_vcom st).
Proof.
  unfold clearDisplay.
  destruct (memset _ _ _ _) as [buf'|]; [|done].
  cbn. intros [= <-]. cbn. unfold flipped.
  repeat split. by repeat case_decide.
Qed.

(** On a ready panel [refresh] returns, and the trace it appends is the
    command byte, one record per row, and the closing byte. *)
Lemma refresh_trace st :
  refresh_ready st ->
  exists st',
    refresh SHARPMEM_BIT_WRITECMD SHARPMEM_BIT_VCOM st = Some st' /\
    bus st' = bus st ++
      [BeginTransaction; DigitalWrite (_cs st) true;
       Transfer [to_uint8 (Z.lor (_sharpmem_vcom st)
                                 SHARPMEM_BIT_WRITECMD)]]
      ++ map (row_record (WIDTH st) (sharpmem_buffer st)
                         (Z.quot (WIDTH st) 8))
             (seqZ 0 (HEIGHT st))
      ++ [Transfer [0]; DigitalWrite (_cs st) false; EndTransaction].
Proof.
  intros (Ha & Hw & Hr & Hh & Hn).
  unfold allocated, buffer_bytes in *.
  rewrite quot8_exact in Ha, Hn by done.
  assert (1 <= Z.quot (WIDTH st) 8 <= 255) as Hd.
  { pose proof (Z.quot_rem' (WIDTH st) 8). lia. }
  unfold refresh.
  change (WIDTH (TOGGLE_VCOM _ _)) with (WIDTH st).
  change (HEIGHT (TOGGLE_VCOM _ _)) with (HEIGHT st).
  rewrite quot8_exact by done.
  rewrite (to_uint8_id (Z.quot (WIDTH st) 8)) by (unfold is_uint8; lia).
  rewrite to_uint16_id by nia.
  set (st0 := TOGGLE_VCOM _ _).
  assert (WIDTH st0 = WIDTH st) as HW0 by reflexivity.
  assert (sharpmem_buffer st0 = sharpmem_buffer st) as HB0 by reflexivity.
  assert (bus st0 = bus st ++
            [BeginTransaction; DigitalWrite (_cs st) true;
             Transfer [to_uint8 (Z.lor (_sharpmem_vcom st)
                                       SHARPMEM_BIT_WRITECMD)]]) as Hbus0.
  { subst st0. cbn. by rewrite <- !app_assoc. }
  destruct (refresh_loop_run (Z.quot (WIDTH st) 8) (HEIGHT st)
              (Z.to_nat (HEIGHT st)) 0 st0 (Z.to_nat 65536))
    as (st1 & Hrun & Hbus);
    [lia | lia | rewrite HW0; lia | lia | lia | rewrite HB0; lia
    | lia |].
  rewrite (Z.mul_comm (Z.quot (WIDTH st) 8) (HEIGHT st)).
  change (0 * Z.quot (WIDTH st) 8) with 0 in Hrun.
  rewrite Hrun. cbn [mbind option_bind].
  eexists. split; [done|].
  pose proof (refresh_loop_frame _ _ _ _ _ _ Hrun) as Hf.
  unfold only_bus_changed in Hf. destruct_and!.
  cbn [bus emit _cs]. rewrite Hbus, Hbus0, HW0, HB0.
  rewrite Z.sub_0_r. rewrite <- !app_assoc. cbn [app].
  do 4 f_equal.
  match goal with H : _cs st1 = _cs st0 |- _ => rewrite H end.
  done.
Qed.

End ProtocolFacts.

(** ** Bytes and bitwise operations *)

Lemma to_uint8_land_255 z : to_uint8 z = Z.land z 255.
Proof.
  unfold to_uint8. change 256 with (2 ^ 8). change 255 with (Z.ones 8).
  by rewrite Z.land_ones.
Qed.

Lemma lor_uint8 a b : is_uint8 a -> is_uint8 b -> is_uint8 (Z.lor a b).
Proof.
  intros Ha Hb.
  assert (to_uint8 (Z.lor a b) = Z.lor a b) as Hid.
  { rewrite to_uint8_land_255, Z.land_lor_distr_l.
    rewrite <- !to_uint8_land_255. by rewrite !to_uint8_id. }
  unfold is_uint8, to_uint8 in *.
  pose proof (Z.mod_pos_bound (Z.lor a b) 256). lia.
Qed.

(** Side conditions about a concrete [panel]. *)
Ltac panel_facts :=
  repeat match goal with
  | |- context [panel ?w ?h ?r ?b ?v] =>
      let s := eval vm_compute in (panel w h r b v) in
      change (panel w h r b v) with s
  end;
  unfold is_int16, is_uint8, allocated, canvas_ok, refresh_ready,
    buffer_bytes;
  cbn; repeat split; try lia; try reflexivity; try (by vm_compute).

(** ** Out-of-bounds pixels *)

(** C7: for every (x,y) outside the logical canvas and every colour selector,
    [drawPixel] returns with the driver (and so the framebuffer) unchanged,
    and [getPixel] returns 0. *)
Theorem out_of_canvas_pixel_ignored st x y color :
  is_int16 (_width st) -> is_int16 (_height st) ->
  is_int16 x -> is_int16 y ->
  x < 0 \/ x >= _width st \/ y < 0 \/ y >= _height st ->
  drawPixel st x y color = Some st /\ getPixel st x y = Some 0.
Proof.
  unfold is_int16. intros Hw Hh Hx Hy Hout. split.
  - unfold drawPixel. by rewrite decide_True.
  - unfold getPixel. rewrite decide_True; [done|].
    destruct (decide (x < 0)); [rewrite (to_uint16_neg x) by lia; lia|].
    destruct (decide (y < 0)); [rewrite (to_uint16_neg y) by lia; lia|].
    rewrite (to_uint16_id x), (to_uint16_id y) by lia. lia.
Qed.

Lemma out_of_canvas_pixel_ignored_witness :
  drawPixel (panel 16 8 1 (replicate 16 0xA5) 2) (-1) 3 1
    = Some (panel 16 8 1 (replicate 16 0xA5) 2) /\
  getPixel (panel 16 8 1 (replicate 16 0xA5) 2) (-1) 3 = Some 0.
Proof.
  apply (out_of_canvas_pixel_ignored (panel 16 8 1 (replicate 16 0xA5) 2)
           (-1) 3 1);
    panel_facts.
Defined.

(** ** The clear command *)

(** C8: one [clearDisplay] opens a transaction, raises chip select, transfers
    exactly the two bytes [vcom | CLEAR] and [0x00], lowers chip select and
    closes the transaction; afterwards every byte of the pixel buffer is
    [0xFF]. *)
Theorem clearDisplay_sends_two_bytes_and_whitens
    SHARPMEM_BIT_VCOM SHARPMEM_BIT_CLEAR st :
  is_int16 (WIDTH st) -> is_int16 (HEIGHT st) -> allocated st ->
  is_uint8 (_sharpmem_vcom st) -> is_uint8 SHARPMEM_BIT_CLEAR ->
  exists st',
    clearDisplay SHARPMEM_BIT_VCOM SHARPMEM_BIT_CLEAR st = Some st' /\
    bus st' = bus st ++
      [BeginTransaction; DigitalWrite (_cs st) true;
       Transfer [Z.lor (_sharpmem_vcom st) SHARPMEM_BIT_CLEAR; 0];
       DigitalWrite (_cs st) false; EndTransaction] /\
    sharpmem_buffer st' = replicate (length (sharpmem_buffer st)) 0xFF.
Proof.
  intros Hw Hh Ha Hv Hc. unfold clearDisplay.
  rewrite buffer_bytes_size_t by done. rewrite memset_all.
  cbn [mbind option_bind]. eexists. split; [done|]. split.
  - cbn. rewrite <- !app_assoc. cbn [app].
    by rewrite (to_uint8_id _ (lor_uint8 _ _ Hv Hc)).
  - done.
Qed.

Lemma clearDisplay_sends_two_bytes_and_whitens_witness :
  exists st',
    clearDisplay 2 4 (panel 16 2 0 [1; 2; 3; 4] 2) = Some st' /\
    bus st' = bus (panel 16 2 0 [1; 2; 3; 4] 2) ++
      [BeginTransaction; DigitalWrite 10 true; Transfer [Z.lor 2 4; 0];
       DigitalWrite 10 false; EndTransaction] /\
    sharpmem_buffer st' = replicate 4 0xFF.
Proof.
  apply (clearDisplay_sends_two_bytes_and_whitens 2 4
           (panel 16 2 0 [1; 2; 3; 4] 2));
    panel_facts.
Defined.

(** ** The polarity bit *)

(** One [TOGGLE_VCOM] is a flip: the bit is set afterwards exactly when it
    was clear before. *)
Lemma flipped_flips SHARPMEM_BIT_VCOM vcom :
  SHARPMEM_BIT_VCOM <> 0 ->
  (flipped SHARPMEM_BIT_VCOM vcom = 0 <-> vcom <> 0).
Proof. unfold flipped. intros Hv. case_decide; split; congruence. Qed.

Lemma clearDisplay_returns SHARPMEM_BIT_VCOM SHARPMEM_BIT_CLEAR st :
  is_int16 (WIDTH st) -> is_int16 (HEIGHT st) -> allocated st ->
  is_Some (clearDisplay SHARPMEM_BIT_VCOM SHARPMEM_BIT_CLEAR st).
Proof.
  intros Hw Hh Ha. unfold clearDisplay.
  rewrite buffer_bytes_size_t by done. rewrite memset_all. by eexists.
Qed.

Lemma refresh_returns SHARPMEM_BIT_WRITECMD SHARPMEM_BIT_VCOM st :
  refresh_ready st ->
  is_Some (refresh SHARPMEM_BIT_WRITECMD SHARPMEM_BIT_VCOM st).
Proof.
  intros Hr.
  destruct (refresh_trace SHARPMEM_BIT_WRITECMD SHARPMEM_BIT_VCOM st Hr)
    as (st' & -> & _).
  by eexists.
Qed.

(** C4: every call of [clearDisplay] and every call of [refresh] that
    returns has flipped [_sharpmem_vcom] exactly once, whatever the number of
    rows, and both do return on an allocated panel (for [refresh]: one whose
    width is a whole number of bytes); no pixel-writing operation
    ([drawPixel], [drawFastHLine], [drawFastRawHLine], [drawFastRawVLine],
    [fillRect], [drawFatLine], [clearDisplayBuffer], [setBitmap]) changes
    [_sharpmem_vcom]. *)
Theorem vcom_flipped_once_by_clear_and_refresh_only
    SHARPMEM_BIT_WRITECMD SHARPMEM_BIT_VCOM SHARPMEM_BIT_CLEAR
    perpendicular triangle_calls st :
  (forall st',
     clearDisplay SHARPMEM_BIT_VCOM SHARPMEM_BIT_CLEAR st = Some st' ->
     _sharpmem_vcom st' = flipped SHARPMEM_BIT_VCOM (_sharpmem_vcom st)) /\
  (forall st',
     refresh SHARPMEM_BIT_WRITECMD SHARPMEM_BIT_VCOM st = Some st' ->
     _sharpmem_vcom st' = flipped SHARPMEM_BIT_VCOM (_sharpmem_vcom st)) /\
  (is_int16 (WIDTH st) -> is_int16 (HEIGHT st) -> allocated st ->
   is_Some (clearDisplay SHARPMEM_BIT_VCOM SHARPMEM_BIT_CLEAR st)) /\
  (refresh_ready st ->
   is_Some (refresh SHARPMEM_BIT_WRITECMD SHARPMEM_BIT_VCOM st)) /\
  (forall x y color st',
     drawPixel st x y color = Some st' ->
     _sharpmem_vcom st' = _sharpmem_vcom st) /\
  (forall x y w color st',
     drawFastHLine st x y w color = Some st' ->
     _sharpmem_vcom st' = _sharpmem_vcom st) /\
  (forall x y w color st',
     drawFastRawHLine st x y w color = Some st' ->
     _sharpmem_vcom st' = _sharpmem_vcom st) /\
  (forall x y h color st',
     drawFastRawVLine st x y h color = Some st' ->
     _sharpmem_vcom st' = _sharpmem_vcom st) /\
  (forall x y w h color st',
     fillRect st x y w h color = Some st' ->
     _sharpmem_vcom st' = _sharpmem_vcom st) /\
  (forall x0 y0 x1 y1 strokeWidth color st',
     drawFatLine perpendicular triangle_calls st x0 y0 x1 y1 strokeWidth color
       = Some st' ->
     _sharpmem_vcom st' = _sharpmem_vcom st) /\
  (forall st',
     clearDisplayBuffer st = Some st' ->
     _sharpmem_vcom st' = _sharpmem_vcom st) /\
  (forall bitmap st',
     setBitmap st bitmap = Some st' ->
     _sharpmem_vcom st' = _sharpmem_vcom st).
Proof.
  pose proof (fun st' (H : only_buffer_changed st st') =>
                proj1 (proj2 (proj2 (proj2 (proj2 (proj2 (proj2 H)))))))
    as Hvcom.
  repeat apply conj.
  - intros st' Hc. by apply clearDisplay_frame in Hc as (_&_&_&_&_&_&->).
  - intros st' Hr. by apply refresh_frame in Hr as (_&_&_&_&_&_&_&->).
  - apply clearDisplay_returns.
  - apply refresh_returns.
  - intros x y color st' Hd. eauto using drawPixel_frame.
  - intros x y w color st' Hd. eauto using drawFastHLine_frame.
  - intros x y w color st' Hd. eauto using drawFastRawHLine_frame.
  - intros x y h color st' Hd. eauto using drawFastRawVLine_frame.
  - intros x y w h color st' Hd. eauto using fillRect_frame.
  - intros x0 y0 x1 y1 sw color st' Hd. eauto using drawFatLine_frame.
  - intros st' Hd. eauto using clearDisplayBuffer_frame.
  - intros bitmap st' Hd. eauto using setBitmap_frame.
Qed.

(** ** Refresh and the framebuffer *)

(** C10: a [refresh] that returns leaves the pixel buffer byte for byte as it
    was, and of the driver's own fields changes [_sharpmem_vcom] only (the bus
    trace records what was sent); on a ready panel [refresh] does return. *)
Theorem refresh_leaves_framebuffer
    SHARPMEM_BIT_WRITECMD SHARPMEM_BIT_VCOM st :
  (forall st',
     refresh SHARPMEM_BIT_WRITECMD SHARPMEM_BIT_VCOM st = Some st' ->
     sharpmem_buffer st' = sharpmem_buffer st /\
     WIDTH st' = WIDTH st /\ HEIGHT st' = HEIGHT st /\
     _width st' = _width st /\ _height st' = _height st /\
     rotation st' = rotation st /\ _cs st' = _cs st /\
     _sharpmem_vcom st' = flipped SHARPMEM_BIT_VCOM (_sharpmem_vcom st)) /\
  (refresh_ready st ->
   is_Some (refresh SHARPMEM_BIT_WRITECMD SHARPMEM_BIT_VCOM st)).
Proof.
  split.
  - intros st' Hr. apply refresh_frame in Hr. tauto.
  - apply refresh_returns.
Qed.

(** ** Rotation *)

Lemma canvas_ok_rotation st :
  canvas_ok st ->
  rotation st = 0 \/ rotation st = 1 \/ rotation st = 2 \/ rotation st = 3.
Proof. unfold canvas_ok. lia. Qed.

Lemma write_raw_buffer st1 st2 x y color :
  WIDTH st1 = WIDTH st2 -> sharpmem_buffer st1 = sharpmem_buffer st2 ->
  sharpmem_buffer <$> write_raw st1 x y color =
  sharpmem_buffer <$> write_raw st2 x y color.
Proof.
  intros HW HB. unfold write_raw. rewrite HW, HB.
  match goal with
  | |- _ <$> (mbind _ ?m) = _ => by destruct m
  end.
Qed.

Lemma read_raw_buffer st1 st2 x y :
  WIDTH st1 = WIDTH st2 -> sharpmem_buffer st1 = sharpmem_buffer st2 ->
  read_raw st1 x y = read_raw st2 x y.
Proof. intros HW HB. unfold read_raw. by rewrite HW, HB. Qed.

(** Inside the canvas [drawPixel] is the colour switch at the rotated
    point. *)
Lemma drawPixel_inside st x y color :
  0 <= x < _width st -> 0 <= y < _height st ->
  drawPixel st x y color =
    match rotation st with
    | 1 => write_raw st (to_int16 (WIDTH st - 1 - y)) x color
    | 2 => write_raw st (to_int16 (WIDTH st - 1 - x))
                     (to_int16 (HEIGHT st - 1 - y)) color
    | 3 => write_raw st y (to_int16 (HEIGHT st - 1 - x)) color
    | _ => write_raw st x y color
    end.
Proof.
  intros Hx Hy. unfold drawPixel. rewrite decide_False by lia.
  by repeat case_match; simplify_eq.
Qed.

Lemma getPixel_inside st x y :
  0 <= x < _width st -> 0 <= y < _height st ->
  x <= 65535 -> y <= 65535 ->
  getPixel st x y =
    match rotation st with
    | 1 => read_raw st (to_uint16 (WIDTH st - 1 - y)) x
    | 2 => read_raw st (to_uint16 (WIDTH st - 1 - x))
                    (to_uint16 (HEIGHT st - 1 - y))
    | 3 => read_raw st y (to_uint16 (HEIGHT st - 1 - x))
    | _ => read_raw st x y
    end.
Proof.
  intros Hx Hy Hx' Hy'. unfold getPixel.
  rewrite (to_uint16_id x), (to_uint16_id y) by lia.
  rewrite decide_False by lia.
  by repeat case_match; simplify_eq.
Qed.

Lemma setRotation_0 st :
  setRotation st 0 =
  Driver (WIDTH st) (HEIGHT st) (WIDTH st) (HEIGHT st) 0 (_cs st)
         (sharpmem_buffer st) (_sharpmem_vcom st) (bus st).
Proof. reflexivity. Qed.

(** Inside the canvas, [drawPixel] and [getPixel] are the colour switch and
    the bit test at the raw point of the specification; the 16-bit
    truncations of the rotation switch do not bite. *)
Lemma pixel_at_raw_point st x y :
  canvas_ok st ->
  0 <= x < _width st -> 0 <= y < _height st ->
  let xr := (raw_point (WIDTH st) (HEIGHT st) (rotation st) x y).1 in
  let yr := (raw_point (WIDTH st) (HEIGHT st) (rotation st) x y).2 in
  0 <= xr < WIDTH st /\ 0 <= yr < HEIGHT st /\
  (forall color, drawPixel st x y color = write_raw st xr yr color) /\
  getPixel st x y = read_raw st xr yr.
Proof.
  intros Hok Hx Hy xr yr.
  pose proof (canvas_ok_rotation st Hok) as Hr.
  destruct Hok as (HW & HH & _ & Hw & Hh).
  assert (_width st <= 32767 /\ _height st <= 32767) as [Hwb Hhb]
    by (rewrite Hw, Hh; repeat case_decide; lia).
  rewrite getPixel_inside by lia.
  setoid_rewrite drawPixel_inside; [|lia..].
  subst xr yr.
  destruct Hr as [Hr|[Hr|[Hr|Hr]]]; rewrite Hr in *; cbn [raw_point fst snd];
    [ rewrite decide_False in Hw, Hh by lia
    | rewrite decide_True in Hw, Hh by lia
    | rewrite decide_False in Hw, Hh by lia
    | rewrite decide_True in Hw, Hh by lia ];
    rewrite ?to_uint16_id by lia;
    rewrite ?to_int16_id by (unfold is_int16; lia);
    repeat split; lia.
Qed.

Lemma canvas_ok_setRotation_0 st : canvas_ok st -> canvas_ok (setRotation st 0).
Proof.
  rewrite setRotation_0. unfold canvas_ok. cbn.
  intros (HW & HH & _). rewrite !decide_False by lia. lia.
Qed.

(** ** Raw vertical runs *)

Section ColumnLoop.

(** The two loops of [drawFastRawVLine] differ in the byte operation
    only; [g bit_mask] is what it does to a byte. *)
Variable g : Z -> Z -> Z.
Variable op : list Z -> Z -> Z -> option (list Z).
Hypothesis op_modify : forall buf off m, op buf off m = modify buf off (g m).

Lemma column_loop_defined n : forall buf ptr stride m,
  0 <= ptr -> 0 <= stride ->
  ptr + (Z.of_nat n - 1) * stride < Z.of_nat (length buf) ->
  is_Some (column_loop n op m buf ptr stride).
Proof.
  induction n as [|n IH]; intros buf ptr stride m Hp Hs Hlen.
  - by eexists.
  - cbn [column_loop]. rewrite op_modify.
    destruct (modify_in_range buf ptr (g m)) as [buf1 Hm]; [nia|].
    rewrite Hm. cbn.
    apply IH; [lia | lia |].
    rewrite (modify_length _ _ _ _ Hm). nia.
Qed.

(** The bytes of the run, [stride] apart from [ptr] on, have been through
    [g bit_mask]; every other byte is as before. *)
Lemma column_loop_load n : forall buf ptr stride m buf',
  0 < stride ->
  column_loop n op m buf ptr stride = Some buf' ->
  (forall i, 0 <= i < Z.of_nat n ->
     load buf' (ptr + i * stride) = g m <$> load buf (ptr + i * stride)) /\
  (forall j, (forall i, 0 <= i < Z.of_nat n -> j <> ptr + i * stride) ->
     load buf' j = load buf j).
Proof.
  induction n as [|n IH]; intros buf ptr stride m buf' Hs.
  - cbn. intros [= <-]. split; [lia | done].
  - cbn [column_loop]. rewrite op_modify.
    destruct (modify buf ptr (g m)) as [buf1|] eqn:Hm; [|done]. cbn.
    intros Hl. destruct (IH _ _ _ _ _ Hs Hl) as [Hin Hout].
    assert (forall j, j <> ptr -> load buf1 j = load buf j) as Hne.
    { intros j Hj. rewrite (load_modify _ _ _ _ j Hm).
      by rewrite decide_False. }
    split.
    + intros i Hi. destruct (decide (i = 0)) as [->|Hi0].
      * rewrite Z.mul_0_l, Z.add_0_r.
        rewrite Hout by (intros i Hi'; nia).
        rewrite (load_modify _ _ _ _ ptr Hm). by rewrite decide_True.
      * replace (ptr + i * stride) with (ptr + stride + (i - 1) * stride)
          by lia.
        rewrite Hin by lia. rewrite Hne by nia. done.
    + intros j Hj. rewrite Hout.
      * apply Hne. specialize (Hj 0). lia.
      * intros i Hi. specialize (Hj (i + 1)). lia.
Qed.

End ColumnLoop.

Lemma quot8_lt_stride x w :
  0 <= x < w -> 0 <= Z.quot x 8 < Z.quot (w + 7) 8.
Proof.
  intros Hx. pose proof (Z.quot_rem' x 8). pose proof (Z.quot_rem' (w + 7) 8).
  pose proof (Z.rem_bound_pos x 8). pose proof (Z.rem_bound_pos (w + 7) 8).
  lia.
Qed.

(** ** Where the code departs from the specification *)

(** C1, at a width that is not a multiple of 8: on a 12x2 panel in rotation
    0 with an all-zero buffer, [drawPixel (0, 1, 1)] sets bit 0 of byte 2
    (padded rows of 2 bytes), and [getPixel (0, 1)] then reads bit 0 of byte
    [(1 * 12 + 0) / 8 = 1] and returns 0. *)
Theorem width12_pixel_not_read_back :
  exists st',
    drawPixel (panel 12 2 0 [0; 0; 0] 2) 0 1 1 = Some st' /\
    sharpmem_buffer st' = [0; 0; 1] /\
    getPixel st' 0 1 = Some 0.
Proof. eexists. repeat split; vm_compute; reflexivity. Qed.

(** C2, for the dither selectors: on an 8x1 panel in rotation 0 with an
    all-zero buffer, for each of the selectors 2..7 the run
    [drawFastHLine (0, 0, 8, color)] and the pixel-by-pixel loop
    [drawPixel (i, 0, color)], [i] from 0 to 7, return and leave different
    bytes: run against pixels GRAY [0xAA]/[0x55], DARK_GRAY [0xAA]/[0x11],
    LIGHT_GRAY [0x55]/[0xEE], selector 5 [0xEE]/[0xBB], 6 [0xEE]/[0xB6],
    7 [0x77]/[0xDB]. *)
Theorem dither_run_differs_from_pixels :
  map (fun color =>
         (sharpmem_buffer <$> drawFastHLine (panel 8 1 0 [0] 2) 0 0 8 color,
          sharpmem_buffer <$> hline_by_pixels (panel 8 1 0 [0] 2) 0 0 8 color))
      [2; 3; 4; 5; 6; 7]
  = [(Some [0xAA], Some [0x55]); (Some [0xAA], Some [0x11]);
     (Some [0x55], Some [0xEE]); (Some [0xEE], Some [0xBB]);
     (Some [0xEE], Some [0xB6]); (Some [0x77], Some [0xDB])] /\
  Forall (fun color =>
            sharpmem_buffer <$> drawFastHLine (panel 8 1 0 [0] 2) 0 0 8 color
            <> sharpmem_buffer <$>
                 hline_by_pixels (panel 8 1 0 [0] 2) 0 0 8 color)
         [2; 3; 4; 5; 6; 7].
Proof. split; [by vm_compute|]. repeat constructor; by vm_compute. Qed.

(** C3, on an 8-pixel-wide panel: [refresh] of an all-black 8x8 panel with
    the command bits [WRITECMD = 1] and [VCOM = 2] sends, after the command
    byte, eight records of three bytes whose address bytes are 2, 3, ..., 9
    (row [i] carries [i + 2]), and then the closing byte. *)
Theorem width8_refresh_addresses :
  bus <$> refresh 1 2 (panel 8 8 0 (replicate 8 0) 2) =
  Some [BeginTransaction; DigitalWrite 10 true; Transfer [3];
        Transfer [2; 0; 0]; Transfer [3; 0; 0]; Transfer [4; 0; 0];
        Transfer [5; 0; 0]; Transfer [6; 0; 0]; Transfer [7; 0; 0];
        Transfer [8; 0; 0]; Transfer [9; 0; 0];
        Transfer [0]; DigitalWrite 10 false; EndTransaction].
Proof. vm_compute. reflexivity. Qed.

(** C6, at a width that is not a multiple of 8: on a 12x2 panel the block is
    [(12 * 2) / 8 = 3] bytes, and [copyPixelBuffer] after
    [clearDisplayBuffer] yields three bytes [0xFF], one fewer than the
    [ceil(12 / 8) * 2 = 4] of the padded layout. *)
Theorem width12_snapshot_is_three_bytes :
  (st' ← clearDisplayBuffer (panel 12 2 0 [0; 0; 0] 2); copyPixelBuffer st')
    = Some [0xFF; 0xFF; 0xFF] /\
  Z.quot (12 + 7) 8 * 2 = 4.
Proof. split; vm_compute; reflexivity. Qed.

(** ** Round trip on byte-aligned panels *)

Lemma land7_range x : 0 <= Z.land x 7 <= 7.
Proof.
  change (Z.land x 7) with (Z.land x (Z.ones 3)). rewrite (Z.land_ones x 3) by lia.
  pose proof (Z.mod_pos_bound x (2 ^ 3)). lia.
Qed.

Lemma set_at_pow2 k : 0 <= k <= 7 -> set_at k = 2 ^ k.
Proof.
  intros Hk.
  assert (k = 0 \/ k = 1 \/ k = 2 \/ k = 3 \/ k = 4 \/ k = 5 \/ k = 6 \/ k = 7)
    as Hcases by lia.
  by destruct_or!; subst k.
Qed.

Lemma clr_at_bit k : 0 <= k <= 7 -> Z.testbit (clr_at k) k = false.
Proof.
  intros Hk.
  assert (k = 0 \/ k = 1 \/ k = 2 \/ k = 3 \/ k = 4 \/ k = 5 \/ k = 6 \/ k = 7)
    as Hcases by lia.
  by destruct_or!; subst k.
Qed.

Lemma to_uint8_testbit z k : 0 <= k <= 7 ->
  Z.testbit (to_uint8 z) k = Z.testbit z k.
Proof.
  intros Hk. unfold to_uint8. change 256 with (2 ^ 8).
  apply Z.mod_pow2_bits_low. lia.
Qed.

(** Bit [k] reads as set after [|= set[k]] ... *)
Lemma bit_set_after_or b k : 0 <= k <= 7 ->
  Z.land (to_uint8 (Z.lor b (set_at k))) (set_at k) <> 0.
Proof.
  intros Hk H0. rewrite set_at_pow2 in H0 by done.
  apply (f_equal (fun z => Z.testbit z k)) in H0.
  rewrite Z.land_spec, to_uint8_testbit, Z.lor_spec in H0 by done.
  rewrite Z.pow2_bits_true, Z.bits_0 in H0 by lia.
  by rewrite orb_true_r in H0.
Qed.

(** ... and as clear after [&= clr[k]]. *)
Lemma bit_clear_after_and b k : 0 <= k <= 7 ->
  Z.land (to_uint8 (Z.land b (clr_at k))) (set_at k) = 0.
Proof.
  intros Hk. rewrite set_at_pow2 by done.
  apply Z.bits_inj_0. intros n.
  rewrite Z.land_spec.
  destruct (decide (n = k)) as [->|Hn].
  - rewrite to_uint8_testbit, Z.land_spec, clr_at_bit by done.
    by rewrite andb_false_r.
  - destruct (decide (0 <= n)).
    + rewrite Z.pow2_bits_false by lia. apply andb_false_r.
    + rewrite (Z.testbit_neg_r (2 ^ k)) by lia. apply andb_false_r.
Qed.

(** On a panel whose width is a whole number of bytes the padded and the
    packed byte index of a raw point agree. *)
Lemma aligned_index w x y :
  Z.rem w 8 = 0 -> 0 <= w -> 0 <= x -> 0 <= y ->
  Z.quot x 8 + y * Z.quot (w + 7) 8 = Z.quot (y * w + x) 8.
Proof.
  intros Hr Hw Hx Hy.
  pose proof (Z.quot_rem' w 8) as Ew. rewrite Hr in Ew.
  pose proof (Z.quot_rem' x 8) as Ex.
  pose proof (Z.rem_bound_pos x 8 Hx ltac:(lia)) as Bx.
  assert (Z.quot (w + 7) 8 = Z.quot w 8) as ->.
  { pose proof (Z.quot_rem' (w + 7) 8).
    pose proof (Z.rem_bound_pos (w + 7) 8). lia. }
  assert (0 <= y * w + x) as Hn by nia.
  pose proof (Z.quot_rem' (y * w + x) 8) as En.
  pose proof (Z.rem_bound_pos (y * w + x) 8 Hn ltac:(lia)) as Bn.
  nia.
Qed.

Lemma aligned_index_in_buffer w h x y :
  Z.rem w 8 = 0 -> 0 <= x < w -> 0 <= y < h ->
  0 <= Z.quot (y * w + x) 8 < Z.quot (w * h) 8.
Proof.
  intros Hr Hx Hy.
  rewrite <- aligned_index by lia.
  rewrite quot8_exact by done.
  assert (Z.quot (w + 7) 8 = Z.quot w 8) as ->.
  { pose proof (Z.quot_rem' w 8). pose proof (Z.quot_rem' (w + 7) 8).
    pose proof (Z.rem_bound_pos (w + 7) 8). lia. }
  pose proof (Z.quot_rem' w 8) as Ew. rewrite Hr in Ew.
  pose proof (Z.quot_rem' x 8) as Ex.
  pose proof (Z.rem_bound_pos x 8). nia.
Qed.

Lemma canvas_ok_with_buffer st buf :
  canvas_ok st -> canvas_ok (with_buffer st buf).
Proof. done. Qed.

(** X1: on a panel whose width is a multiple of 8, in every rotation and at
    every point of the canvas, a pixel drawn WHITE reads back as 1 and a pixel
    drawn BLACK reads back as 0. *)
Theorem aligned_pixel_round_trip st x y :
  canvas_ok st -> allocated st -> Z.rem (WIDTH st) 8 = 0 ->
  0 <= x < _width st -> 0 <= y < _height st ->
  (exists st1, drawPixel st x y 1 = Some st1 /\ getPixel st1 x y = Some 1) /\
  (exists st0, drawPixel st x y 0 = Some st0 /\ getPixel st0 x y = Some 0).
Proof.
  intros Hok Ha Hr Hx Hy.
  destruct (pixel_at_raw_point st x y Hok Hx Hy) as (Hxr & Hyr & Hd & _).
  set (xr := (raw_point _ _ _ x y).1) in *.
  set (yr := (raw_point _ _ _ x y).2) in *.
  pose proof (aligned_index (WIDTH st) xr yr Hr ltac:(lia) ltac:(lia)
                ltac:(lia)) as Hidx.
  pose proof (aligned_index_in_buffer (WIDTH st) (HEIGHT st) xr yr Hr Hxr Hyr)
    as Hin.
  unfold allocated, buffer_bytes in Ha.
  pose proof (land7_range xr) as Hk.
  assert (forall buf', getPixel (with_buffer st buf') x y
                       = read_raw (with_buffer st buf') xr yr) as Hg.
  { intros buf'.
    by destruct (pixel_at_raw_point (with_buffer st buf') x y
                   (canvas_ok_with_buffer st buf' Hok) Hx Hy) as (_ & _ & _ & ?). }
  split.
  - rewrite Hd. unfold write_raw. cbv zeta. rewrite Hidx.
    destruct (modify_in_range (sharpmem_buffer st)
                (Z.quot (yr * WIDTH st + xr) 8)
                (fun b => to_uint8 (Z.lor b (set_at (Z.land xr 7)))))
      as [buf' Hm]; [lia|].
    unfold or_byte. rewrite Hm. cbn [mbind option_bind].
    eexists. split; [done|].
    rewrite Hg. unfold read_raw. cbn [sharpmem_buffer WIDTH with_buffer].
    rewrite (load_modify _ _ _ _ _ Hm), decide_True by done.
    destruct (modify_Some _ _ _ _ Hm) as (b & -> & _). cbn.
    by rewrite decide_True by (by apply bit_set_after_or).
  - rewrite Hd. unfold write_raw. cbv zeta. rewrite Hidx.
    destruct (modify_in_range (sharpmem_buffer st)
                (Z.quot (yr * WIDTH st + xr) 8)
                (fun b => to_uint8 (Z.land b (clr_at (Z.land xr 7)))))
      as [buf' Hm]; [lia|].
    unfold and_byte. rewrite Hm. cbn [mbind option_bind].
    eexists. split; [done|].
    rewrite Hg. unfold read_raw. cbn [sharpmem_buffer WIDTH with_buffer].
    rewrite (load_modify _ _ _ _ _ Hm), decide_True by done.
    destruct (modify_Some _ _ _ _ Hm) as (b & -> & _). cbn.
    by rewrite decide_False by (rewrite bit_clear_after_and; [lia | apply Hk]).
Qed.

Lemma aligned_pixel_round_trip_witness :
  (exists st1,
     drawPixel (panel 16 8 3 (replicate 16 0x5A) 2) 2 5 1 = Some st1 /\
     getPixel st1 2 5 = Some 1) /\
  (exists st0,
     drawPixel (panel 16 8 3 (replicate 16 0x5A) 2) 2 5 0 = Some st0 /\
     getPixel st0 2 5 = Some 0).
Proof.
  apply (aligned_pixel_round_trip (panel 16 8 3 (replicate 16 0x5A) 2) 2 5);
    panel_facts.
Defined.

(** ** The wire format on byte-aligned panels *)

Lemma row_address_from_16 d r :
  2 <= d -> 0 <= r -> Z.quot (r * d + 1) d = r.
Proof.
  intros Hd Hr. rewrite Z.quot_div_nonneg by nia.
  symmetry. apply (Z.div_unique _ _ r 1); lia.
Qed.

(** X2: from 16 pixels of width on (a multiple of 8, at most 255 rows),
    [refresh] sends the command byte, then for each row [i] the record
    [i + 1 :: row bytes ++ [0]] of [WIDTH / 8 + 2] bytes, then the closing
    byte, between raising and lowering chip select inside one transaction. *)
Theorem refresh_wire_format SHARPMEM_BIT_WRITECMD SHARPMEM_BIT_VCOM st :
  refresh_ready st -> 16 <= WIDTH st -> HEIGHT st <= 255 ->
  exists st',
    refresh SHARPMEM_BIT_WRITECMD SHARPMEM_BIT_VCOM st = Some st' /\
    bus st' = bus st ++
      [BeginTransaction; DigitalWrite (_cs st) true;
       Transfer [to_uint8 (Z.lor (_sharpmem_vcom st) SHARPMEM_BIT_WRITECMD)]]
      ++ map (wire_record (sharpmem_buffer st) (Z.quot (WIDTH st) 8))
             (seqZ 0 (HEIGHT st))
      ++ [Transfer [0]; DigitalWrite (_cs st) false; EndTransaction] /\
    length (seqZ 0 (HEIGHT st)) = Z.to_nat (HEIGHT st) /\
    forall r, 0 <= r < HEIGHT st ->
      exists bytes,
        wire_record (sharpmem_buffer st) (Z.quot (WIDTH st) 8) r
          = Transfer bytes /\
        Z.of_nat (length bytes) = Z.quot (WIDTH st) 8 + 2.
Proof.
  intros Hready H16 H255.
  destruct (refresh_trace SHARPMEM_BIT_WRITECMD SHARPMEM_BIT_VCOM st Hready)
    as (st' & Hrun & Hbus).
  destruct Hready as (Ha & Hw & Hr & Hh & Hn).
  unfold allocated, buffer_bytes in *. rewrite quot8_exact in Ha, Hn by done.
  assert (2 <= Z.quot (WIDTH st) 8) as Hd.
  { pose proof (Z.quot_rem' (WIDTH st) 8). lia. }
  exists st'. split; [done|]. split; [|split].
  - rewrite Hbus. do 2 f_equal. f_equal. apply map_ext_in.
    intros r Hin. apply list_elem_of_In, elem_of_seqZ in Hin.
    unfold row_record, wire_record.
    rewrite row_address_from_16 by lia.
    rewrite to_uint16_id by lia. by rewrite to_uint8_id by (unfold is_uint8; lia).
  - apply length_seqZ.
  - intros r Hrow. eexists. split; [done|].
    rewrite !length_app, length_take, length_drop. cbn [length]. nia.
Qed.

Lemma refresh_wire_format_witness :
  exists st',
    refresh 1 2 (panel 16 2 0 [1; 2; 3; 4] 2) = Some st' /\
    bus st' =
      [BeginTransaction; DigitalWrite 10 true; Transfer [3];
       Transfer [1; 1; 2; 0]; Transfer [2; 3; 4; 0];
       Transfer [0]; DigitalWrite 10 false; EndTransaction].
Proof.
  destruct (refresh_wire_format 1 2 (panel 16 2 0 [1; 2; 3; 4] 2))
    as (st' & Hrun & Hbus & _); [panel_facts..|].
  exists st'. split; [exact Hrun | exact Hbus].
Defined.

(** ** The snapshot of a cleared buffer *)

(** X3: after [clearDisplayBuffer], [copyPixelBuffer] yields the
    [(WIDTH * HEIGHT) / 8] bytes of the allocated block, every one [0xFF];
    where the width is a multiple of 8 that count is
    [ceil(WIDTH / 8) * HEIGHT]. *)
Theorem cleared_snapshot st :
  is_int16 (WIDTH st) -> is_int16 (HEIGHT st) -> allocated st ->
  (st' ← clearDisplayBuffer st; copyPixelBuffer st')
    = Some (replicate (Z.to_nat (Z.quot (WIDTH st * HEIGHT st) 8)) 0xFF) /\
  (0 <= WIDTH st -> Z.rem (WIDTH st) 8 = 0 ->
   Z.quot (WIDTH st * HEIGHT st) 8 = Z.quot (WIDTH st + 7) 8 * HEIGHT st).
Proof.
  intros Hw Hh Ha. split.
  - unfold clearDisplayBuffer, copyPixelBuffer.
    rewrite buffer_bytes_size_t by done. rewrite memset_all.
    cbn [mbind option_bind sharpmem_buffer with_buffer].
    change (buffer_bytes (with_buffer st _)) with (buffer_bytes st).
    rewrite buffer_bytes_size_t by done.
    unfold allocated, buffer_bytes in Ha. rewrite <- Ha, Nat2Z.id.
    set (white := replicate (length (sharpmem_buffer st)) (to_uint8 255)).
    assert (length white = length (sharpmem_buffer st)) as Hlen
      by apply length_replicate.
    transitivity (Some white); [|done].
    rewrite <- Hlen. apply memcpy_from_all.
  - intros Hpos Hr. rewrite quot8_exact by done. f_equal.
    pose proof (Z.quot_rem' (WIDTH st) 8).
    pose proof (Z.quot_rem' (WIDTH st + 7) 8).
    pose proof (Z.rem_bound_pos (WIDTH st + 7) 8). lia.
Qed.

Lemma cleared_snapshot_witness :
  (st' ← clearDisplayBuffer (panel 16 2 0 [1; 2; 3; 4] 2); copyPixelBuffer st')
    = Some [0xFF; 0xFF; 0xFF; 0xFF].
Proof.
  apply (cleared_snapshot (panel 16 2 0 [1; 2; 3; 4] 2)); panel_facts.
Defined.

(** ** The buffer as a string of bits *)

Lemma uint8_high_bit a k : is_uint8 a -> 8 <= k -> Z.testbit a k = false.
Proof.
  intros Ha Hk. rewrite <- (to_uint8_id a Ha). unfold to_uint8.
  change 256 with (2 ^ 8). apply Z.mod_pow2_bits_high. lia.
Qed.

Lemma uint8_bits_eq a b :
  is_uint8 a -> is_uint8 b ->
  (forall k, 0 <= k < 8 -> Z.testbit a k = Z.testbit b k) -> a = b.
Proof.
  intros Ha Hb Hbits. apply Z.bits_inj'. intros k Hk.
  destruct (decide (k < 8)); [apply Hbits; lia|].
  by rewrite !uint8_high_bit by (done || lia).
Qed.

Lemma to_uint8_is_uint8 z : is_uint8 (to_uint8 z).
Proof.
  unfold is_uint8, to_uint8. pose proof (Z.mod_pos_bound z 256). lia.
Qed.

Lemma load_lookup buf j :
  0 <= j -> load buf j = buf !! Z.to_nat j.
Proof. intros Hj. unfold load. by rewrite decide_True. Qed.

(** Two buffers of bytes with the same bits are the same. *)
Lemma buffers_eq_by_bits (b1 b2 : list Z) :
  length b1 = length b2 -> Forall is_uint8 b1 -> Forall is_uint8 b2 ->
  (forall g, 0 <= g < 8 * Z.of_nat (length b1) -> bit_at b1 g = bit_at b2 g) ->
  b1 = b2.
Proof.
  intros Hlen H1 H2 Hbits. apply list_eq_same_length with (length b1);
    [done | done |].
  intros i x y Hi Hx Hy.
  apply uint8_bits_eq.
  - eapply Forall_lookup_1; [exact H1 | exact Hx].
  - eapply Forall_lookup_1; [exact H2 | exact Hy].
  - intros k Hk. specialize (Hbits (8 * Z.of_nat i + k) ltac:(lia)).
    unfold bit_at in Hbits.
    replace ((8 * Z.of_nat i + k) / 8) with (Z.of_nat i) in Hbits
      by (apply (Z.div_unique _ _ _ k); lia).
    replace ((8 * Z.of_nat i + k) mod 8) with k in Hbits
      by (apply (Z.mod_unique _ _ (Z.of_nat i)); lia).
    rewrite !load_lookup, Nat2Z.id, Hx, Hy in Hbits by lia. done.
Qed.

Lemma painted_unique S c buf b1 b2 :
  painted S c buf b1 -> painted S c buf b2 -> b1 = b2.
Proof.
  intros (Hl1 & Hb1 & H1) (Hl2 & Hb2 & H2).
  apply buffers_eq_by_bits; [congruence | done | done |].
  intros g Hg. rewrite Hl1 in Hg.
  destruct (H1 g Hg) as [[? ->]|[? ->]], (H2 g Hg) as [[? ->]|[? ->]];
    done.
Qed.

Lemma painted_iff S S' c buf buf' :
  (forall g, 0 <= g < 8 * Z.of_nat (length buf) -> S g <-> S' g) ->
  painted S c buf buf' -> painted S' c buf buf'.
Proof.
  intros Hiff (Hl & Hb & H). split; [done|]. split; [done|].
  intros g Hg. specialize (Hiff g Hg).
  destruct (H g Hg) as [[? ?]|[? ?]]; [left | right]; tauto.
Qed.

Lemma painted_none c buf :
  Forall is_uint8 buf -> painted (fun _ => False) c buf buf.
Proof. intros Hb. split; [done|]. split; [done|]. intros g Hg. right. tauto. Qed.

Lemma painted_seq S1 S2 c buf b1 b2 :
  painted S1 c buf b1 -> painted S2 c b1 b2 ->
  painted (fun g => S1 g \/ S2 g) c buf b2.
Proof.
  intros (Hl1 & Hb1 & H1) (Hl2 & Hb2 & H2).
  split; [congruence|]. split; [done|].
  intros g Hg. rewrite <- Hl1 in Hg.
  destruct (H2 g Hg) as [[? ->]|[? ->]]; [left; tauto|].
  rewrite Hl1 in Hg.
  destruct (H1 g Hg) as [[? ->]|[? ->]]; [left; tauto | right; tauto].
Qed.

(** A read-modify-write whose effect on the low eight bits is to set those
    in [M] to [c]. *)
Lemma modify_painted (M : Z -> Prop) c f buf off buf' :
  Forall is_uint8 buf ->
  (forall b, is_uint8 (f b)) ->
  (forall b k, 0 <= k < 8 ->
     (M k /\ Z.testbit (f b) k = c) \/
     (~ M k /\ Z.testbit (f b) k = Z.testbit b k)) ->
  modify buf off f = Some buf' ->
  painted (fun g => g / 8 = off /\ M (g mod 8)) c buf buf'.
Proof.
  intros Hb Hf Hbits Hm.
  destruct (modify_Some _ _ _ _ Hm) as (b & Hl & ->).
  pose proof (load_Some _ _ _ Hl) as Hoff.
  split; [apply length_insert|]. split.
  { apply Forall_insert; [done | apply Hf]. }
  intros g Hg. unfold bit_at.
  rewrite (load_modify _ _ _ _ (g / 8) Hm).
  pose proof (Z.mod_pos_bound g 8 ltac:(lia)) as Hk.
  destruct (decide (g / 8 = off)) as [Heq|Hne].
  - rewrite Heq, Hl. cbn.
    destruct (Hbits b (g mod 8) Hk) as [[? ?]|[? ?]]; [left | right]; tauto.
  - right. split; [tauto | done].
Qed.

(** ** Single bits *)

Lemma land7_mod x : Z.land x 7 = x mod 8.
Proof. change 7 with (Z.ones 3). by rewrite Z.land_ones by lia. Qed.

Lemma clr_at_lnot k : 0 <= k <= 7 -> clr_at k = to_uint8 (Z.lnot (2 ^ k)).
Proof.
  intros Hk.
  assert (k = 0 \/ k = 1 \/ k = 2 \/ k = 3 \/ k = 4 \/ k = 5 \/ k = 6 \/ k = 7)
    as Hcases by lia.
  by destruct_or!; subst k.
Qed.

(** [b | mask] sets the bits of [mask] and keeps the others. *)
Lemma or_mask_bits mask b k :
  0 <= k < 8 ->
  (Z.testbit mask k = true /\ Z.testbit (to_uint8 (Z.lor b mask)) k = true) \/
  (~ Z.testbit mask k = true /\
   Z.testbit (to_uint8 (Z.lor b mask)) k = Z.testbit b k).
Proof.
  intros Hk. rewrite to_uint8_testbit, Z.lor_spec by lia.
  destruct (Z.testbit mask k); [left | right].
  - by rewrite orb_true_r.
  - by rewrite orb_false_r.
Qed.

(** [b & ~mask] clears the bits of [mask] and keeps the others. *)
Lemma and_not_mask_bits mask b k :
  0 <= k < 8 ->
  (Z.testbit mask k = true /\
   Z.testbit (to_uint8 (Z.land b (Z.lnot mask))) k = false) \/
  (~ Z.testbit mask k = true /\
   Z.testbit (to_uint8 (Z.land b (Z.lnot mask))) k = Z.testbit b k).
Proof.
  intros Hk. rewrite to_uint8_testbit, Z.land_spec, Z.lnot_spec by lia.
  destruct (Z.testbit mask k); [left | right]; cbn.
  - by rewrite andb_false_r.
  - by rewrite andb_true_r.
Qed.

(** [b & clr[k0]] is [b & ~set[k0]] on the low eight bits. *)
Lemma and_clr_bits k0 b k :
  0 <= k0 <= 7 -> 0 <= k < 8 ->
  Z.testbit (to_uint8 (Z.land b (clr_at k0))) k =
  Z.testbit (to_uint8 (Z.land b (Z.lnot (set_at k0)))) k.
Proof.
  intros Hk0 Hk. rewrite clr_at_lnot, set_at_pow2 by done.
  by rewrite !to_uint8_testbit, !Z.land_spec, to_uint8_testbit by lia.
Qed.

Lemma set_at_bit k0 k :
  0 <= k0 <= 7 -> 0 <= k -> Z.testbit (set_at k0) k = true <-> k = k0.
Proof.
  intros Hk0 Hk. rewrite set_at_pow2 by done.
  rewrite Z.pow2_bits_eqb by lia. rewrite Z.eqb_eq. lia.
Qed.

Lemma byte_of_pixel stride x y g :
  0 <= x -> 0 <= y -> 0 <= stride ->
  (g / 8 = x / 8 + y * stride /\ g mod 8 = x mod 8) <->
  g = pixel_bit stride x y.
Proof.
  intros Hx Hy Hs. unfold pixel_bit.
  pose proof (Z.div_mod g 8 ltac:(lia)). pose proof (Z.div_mod x 8 ltac:(lia)).
  pose proof (Z.mod_pos_bound g 8 ltac:(lia)).
  pose proof (Z.mod_pos_bound x 8 ltac:(lia)).
  split.
  - intros [Hd Hm]. nia.
  - intros ->. split.
    + symmetry. apply (Z.div_unique _ _ _ (x mod 8)); [lia | nia].
    + symmetry. apply (Z.mod_unique _ _ (x / 8 + y * stride)); [lia | nia].
Qed.

Lemma pixel_offset_in_range w h stride x y :
  stride = Z.quot (w + 7) 8 -> 0 <= x < w -> 0 <= y < h ->
  0 <= x / 8 + y * stride < stride * h /\ 0 < stride.
Proof.
  intros -> Hx Hy. pose proof (quot8_lt_stride x w Hx) as Hq.
  rewrite Z.quot_div_nonneg in Hq by lia. nia.
Qed.

(** Colour 0 or 1 at a raw point of the panel sets that one bit. *)
Lemma write_raw_painted st x y color :
  color = 0 \/ color = 1 ->
  0 <= x < WIDTH st -> 0 <= y < HEIGHT st -> padded_buffer st ->
  exists buf',
    write_raw st x y color = Some (with_buffer st buf') /\
    painted (fun g => g = pixel_bit (Z.quot (WIDTH st + 7) 8) x y)
            (bool_decide (color = 1)) (sharpmem_buffer st) buf'.
Proof.
  intros Hc Hx Hy [Hlen Hbytes].
  set (stride := Z.quot (WIDTH st + 7) 8) in *.
  destruct (pixel_offset_in_range (WIDTH st) (HEIGHT st) stride x y
              eq_refl Hx Hy) as [Hoff Hpos].
  pose proof (land7_range x) as Hk.
  assert (Z.quot x 8 + y * stride = x / 8 + y * stride) as Hq
    by (by rewrite Z.quot_div_nonneg by lia).
  unfold write_raw. cbv zeta. fold stride. rewrite Hq.
  destruct Hc as [-> | ->].
  - destruct (modify_in_range (sharpmem_buffer st) (x / 8 + y * stride)
                (fun b => to_uint8 (Z.land b (clr_at (Z.land x 7)))))
      as [buf' Hm]; [lia|].
    unfold and_byte. rewrite Hm. exists buf'. split; [done|].
    eapply painted_iff;
      [|apply (fun Hf Hbits =>
                 modify_painted (fun k => k = x mod 8) false _ _ _ _
                                Hbytes Hf Hbits Hm);
        [intros; apply to_uint8_is_uint8 |]].
    + intros g Hg. cbn beta. apply byte_of_pixel; lia.
    + intros b k Hk'. rewrite and_clr_bits by lia.
      destruct (and_not_mask_bits (set_at (Z.land x 7)) b k Hk')
        as [[Hs ?]|[Hs ?]]; [left | right];
        rewrite set_at_bit, land7_mod in Hs by lia; tauto.
  - destruct (modify_in_range (sharpmem_buffer st) (x / 8 + y * stride)
                (fun b => to_uint8 (Z.lor b (set_at (Z.land x 7)))))
      as [buf' Hm]; [lia|].
    unfold or_byte. rewrite Hm. exists buf'. split; [done|].
    eapply painted_iff;
      [|apply (fun Hf Hbits =>
                 modify_painted (fun k => k = x mod 8) true _ _ _ _
                                Hbytes Hf Hbits Hm);
        [intros; apply to_uint8_is_uint8 |]].
    + intros g Hg. cbn beta. apply byte_of_pixel; lia.
    + intros b k Hk'.
      destruct (or_mask_bits (set_at (Z.land x 7)) b k Hk')
        as [[Hs ?]|[Hs ?]]; [left | right];
        rewrite set_at_bit, land7_mod in Hs by lia; tauto.
Qed.

(** ** Runs of pixels, drawn one by one *)

Lemma padded_buffer_painted st S c buf' :
  padded_buffer st -> painted S c (sharpmem_buffer st) buf' ->
  padded_buffer (with_buffer st buf').
Proof.
  intros [Hlen Hb] (Hl & Hb' & _). split; [|done].
  cbn. rewrite Hl. done.
Qed.

(** Inside the canvas, [n] pixels drawn one by one from (a, y) rightwards
    set the bits of those [n] logical points. *)
Lemma pixel_loop_painted color y (n : nat) : forall st a,
  color = 0 \/ color = 1 ->
  canvas_ok st -> padded_buffer st ->
  0 <= a -> a + Z.of_nat n <= _width st -> 0 <= y < _height st ->
  exists buf',
    sharpmem_buffer <$> pixel_loop n st a y color = Some buf' /\
    painted (fun g => exists i, 0 <= i < Z.of_nat n /\
                                g = logical_bit st (a + i) y)
            (bool_decide (color = 1)) (sharpmem_buffer st) buf'.
Proof.
  induction n as [|n IH]; intros st a Hc Hok Hpad Ha Hn Hy.
  - exists (sharpmem_buffer st). split; [done|].
    eapply painted_iff; [|apply painted_none, Hpad].
    intros g _. split; [done|]. intros (i & Hi & _). lia.
  - cbn [pixel_loop].
    assert (_width st <= 32767) as Hw16.
    { pose proof Hok as (HW & HH & _ & Hw & _).
      destruct (decide (rotation st = 1 \/ rotation st = 3)); lia. }
    rewrite (to_int16_id a) by (unfold is_int16; lia).
    destruct (pixel_at_raw_point st a y Hok ltac:(lia) Hy)
      as (Hxr & Hyr & Hd & _).
    rewrite Hd.
    destruct (write_raw_painted st _ _ color Hc Hxr Hyr Hpad)
      as (buf1 & -> & Hp1).
    cbn [mbind option_bind].
    destruct (IH (with_buffer st buf1) (a + 1) Hc Hok
                (padded_buffer_painted _ _ _ _ Hpad Hp1)
                ltac:(lia) ltac:(cbn; lia) Hy)
      as (buf' & -> & Hp2).
    exists buf'. split; [done|].
    eapply painted_iff; [|exact (painted_seq _ _ _ _ _ _ Hp1 Hp2)].
    intros g _. cbn beta. unfold logical_bit.
    cbn [WIDTH HEIGHT rotation with_buffer]. split.
    + intros [-> | (i & Hi & ->)].
      * exists 0. split; [lia|]. by rewrite Z.add_0_r.
      * exists (i + 1). split; [lia|].
        by replace (a + (i + 1)) with (a + 1 + i) by lia.
    + intros (i & Hi & ->). destruct (decide (i = 0)) as [->|Hi0].
      * left. by rewrite Z.add_0_r.
      * right. exists (i - 1). split; [lia|].
        by replace (a + 1 + (i - 1)) with (a + i) by lia.
Qed.

(** Where every point of the run, as [drawPixel] receives it, is off the
    canvas, nothing is drawn. *)
Lemma pixel_loop_outside color y (n : nat) : forall st a,
  y < 0 \/ y >= _height st \/
  (forall p, a <= p < a + Z.of_nat n ->
     to_int16 p < 0 \/ to_int16 p >= _width st) ->
  pixel_loop n st a y color = Some st.
Proof.
  induction n as [|n IH]; intros st a Hout; [done|].
  cbn [pixel_loop]. unfold drawPixel at 1.
  rewrite decide_True.
  - cbn. apply IH. destruct Hout as [?|[?|Hout]]; [lia | lia |].
    right. right. intros p Hp. apply Hout. lia.
  - destruct Hout as [?|[?|Hout]]; [lia | lia |].
    specialize (Hout a ltac:(lia)). lia.
Qed.

Lemma pixel_loop_app color y (n m : nat) : forall st a,
  pixel_loop (n + m) st a y color =
  st' ← pixel_loop n st a y color; pixel_loop m st' (a + Z.of_nat n) y color.
Proof.
  induction n as [|n IH]; intros st a.
  - cbn. by rewrite Z.add_0_r.
  - cbn [pixel_loop Nat.add].
    destruct (drawPixel st (to_int16 a) y color) as [st1|]; [|done]. cbn.
    rewrite IH. by replace (a + 1 + Z.of_nat n) with (a + Z.of_nat (S n)) by lia.
Qed.

Lemma to_int16_shift p : to_int16 (p + 65536) = to_int16 p.
Proof.
  unfold to_int16.
  replace (p + 65536 + 32768) with (p + 32768 + 1 * 65536) by lia.
  by rewrite Z.mod_add by lia.
Qed.

(** A coordinate that lies off the canvas as an [int], between -32768 and
    65535, is still off the canvas as the [int16_t] that [drawPixel]
    receives. *)
Lemma off_canvas_point W p :
  0 < W <= 32767 -> -32768 <= p < 65536 -> p < 0 \/ p >= W ->
  to_int16 p < 0 \/ to_int16 p >= W.
Proof.
  intros HW Hp Hout. destruct (decide (p <= 32767)) as [Hlow|Hhigh].
  - rewrite to_int16_id by (unfold is_int16; lia). lia.
  - left. replace p with (p - 65536 + 65536) by lia.
    rewrite to_int16_shift, to_int16_id by (unfold is_int16; lia). lia.
Qed.

(** The loop does not see a start that is 65536 further on. *)
Lemma pixel_loop_shift color y (n : nat) : forall st a,
  pixel_loop n st (a + 65536) y color = pixel_loop n st a y color.
Proof.
  induction n as [|n IH]; intros st a; [done|].
  cbn [pixel_loop]. rewrite to_int16_shift.
  destruct (drawPixel st (to_int16 a) y color) as [st1|]; [|done]. cbn.
  replace (a + 65536 + 1) with (a + 1 + 65536) by lia. apply IH.
Qed.

Lemma pixel_loop_width color y (k : nat) : forall st a st1,
  pixel_loop k st a y color = Some st1 -> _width st1 = _width st.
Proof.
  induction k as [|k IH]; intros st a st1; cbn [pixel_loop].
  - by intros [= ->].
  - destruct (drawPixel st (to_int16 a) y color) as [st2|] eqn:Hd; [|done].
    cbn. intros Hl. rewrite (IH _ _ _ Hl).
    by apply drawPixel_frame in Hd as (_ & _ & -> & _).
Qed.

(** A run drawn pixel by pixel is its part inside the canvas drawn pixel by
    pixel, as long as its points lie between -32768 and 65535: what lies
    above 32767 reaches [drawPixel] as a negative coordinate. *)
Lemma pixel_loop_clip color y st a n :
  0 <= y < _height st -> 0 < _width st <= 32767 -> 0 <= n ->
  -32768 <= a -> a + n <= 65536 ->
  pixel_loop (Z.to_nat n) st a y color =
  pixel_loop (Z.to_nat (Z.min (a + n) (_width st) - Z.max a 0)) st
             (Z.max a 0) y color.
Proof.
  intros Hy Hw Hn Ha Han.
  destruct (decide (a + n <= 0 \/ a >= _width st)) as [Hout|Hin].
  { rewrite pixel_loop_outside.
    - replace (Z.to_nat _) with 0%nat by lia. done.
    - right. right. intros p Hp. apply off_canvas_point; lia. }
  remember (Z.max a 0) as lo eqn:Hlo.
  remember (Z.min (a + n) (_width st)) as hi eqn:Hhi.
  replace (Z.to_nat n)
    with (Z.to_nat (lo - a) + (Z.to_nat (hi - lo) + Z.to_nat (a + n - hi)))%nat
    by lia.
  rewrite pixel_loop_app, pixel_loop_outside.
  2:{ right. right. intros p Hp. apply off_canvas_point; lia. }
  cbn. rewrite pixel_loop_app.
  replace (a + Z.of_nat (Z.to_nat (lo - a))) with lo by lia.
  destruct (pixel_loop (Z.to_nat (hi - lo)) st lo y color) as [st1|] eqn:Hl;
    [|done].
  cbn. apply pixel_loop_outside. right. right.
  rewrite (pixel_loop_width _ _ _ _ _ _ Hl).
  intros p Hp. apply off_canvas_point; lia.
Qed.

(** ** Raw vertical runs, bit by bit *)

Lemma column_loop_painted (M : Z -> Prop) c f op (n : nat) :
  (forall buf off m, op buf off m = modify buf off (f m)) ->
  forall mask buf ptr stride,
  (forall b, is_uint8 (f mask b)) ->
  (forall b k, 0 <= k < 8 ->
     (M k /\ Z.testbit (f mask b) k = c) \/
     (~ M k /\ Z.testbit (f mask b) k = Z.testbit b k)) ->
  Forall is_uint8 buf -> 0 <= ptr -> 0 <= stride ->
  ptr + (Z.of_nat n - 1) * stride < Z.of_nat (length buf) ->
  exists buf',
    column_loop n op mask buf ptr stride = Some buf' /\
    painted (fun g => exists i, 0 <= i < Z.of_nat n /\
                                g / 8 = ptr + i * stride /\ M (g mod 8))
            c buf buf'.
Proof.
  intros Hop mask. induction n as [|n IH];
    intros buf ptr stride Hf Hbits Hb Hp Hs Hlen.
  - exists buf. split; [done|].
    eapply painted_iff; [|by apply painted_none].
    intros g _. split; [done|]. intros (i & Hi & _). lia.
  - cbn [column_loop]. rewrite Hop.
    destruct (modify_in_range buf ptr (f mask)) as [buf1 Hm]; [nia|].
    rewrite Hm. cbn [mbind option_bind].
    pose proof (modify_painted M c _ _ _ _ Hb Hf Hbits Hm) as Hp1.
    destruct Hp1 as (Hl1 & Hb1 & Hg1).
    destruct (IH buf1 (ptr + stride) stride Hf Hbits Hb1 ltac:(lia) Hs
                ltac:(rewrite Hl1; nia)) as (buf' & -> & Hp2).
    exists buf'. split; [done|].
    eapply painted_iff;
      [|exact (painted_seq _ _ _ _ _ _ (conj Hl1 (conj Hb1 Hg1)) Hp2)].
    intros g _. cbn beta. split.
    + intros [[Hd HM] | (i & Hi & Hd & HM)].
      * exists 0. split; [lia|]. split; [lia | done].
      * exists (i + 1). split; [lia|]. split; [lia | done].
    + intros (i & Hi & Hd & HM). destruct (decide (i = 0)) as [->|Hi0].
      * left. split; [lia | done].
      * right. exists (i - 1). split; [lia|]. split; [lia | done].
Qed.

(** [drawFastRawVLine] with colour 0 or 1 sets the bit of each of the [h]
    raw pixels (x, y), ..., (x, y + h - 1). *)
Lemma raw_vline_painted st x y h color :
  color = 0 \/ color = 1 ->
  0 < WIDTH st <= 32767 -> 0 <= x < WIDTH st ->
  0 <= y -> 0 <= h -> y + h <= HEIGHT st -> padded_buffer st ->
  exists buf',
    drawFastRawVLine st x y h color = Some (with_buffer st buf') /\
    painted (fun g => exists i, 0 <= i < h /\
                        g = pixel_bit (Z.quot (WIDTH st + 7) 8) x (y + i))
            (bool_decide (color = 1)) (sharpmem_buffer st) buf'.
Proof.
  intros Hc HW Hx Hy Hh Hyh [Hlen Hbytes].
  set (stride := Z.quot (WIDTH st + 7) 8) in *.
  pose proof (quot8_lt_stride x (WIDTH st) Hx) as Hq. fold stride in Hq.
  assert (to_int16 (Z.quot (WIDTH st + 7) 8) = stride) as Hstride.
  { apply to_int16_id. unfold is_int16. subst stride.
    pose proof (Z.quot_rem' (WIDTH st + 7) 8).
    pose proof (Z.rem_bound_pos (WIDTH st + 7) 8). lia. }
  pose proof (land7_range x) as Hk.
  assert (forall g, 0 <= g ->
            (exists i, 0 <= i < Z.of_nat (Z.to_nat h) /\
                       g / 8 = Z.quot x 8 + y * stride + i * stride /\
                       g mod 8 = x mod 8) <->
            (exists i, 0 <= i < h /\ g = pixel_bit stride x (y + i))) as Hset.
  { intros g Hg. rewrite Z.quot_div_nonneg by lia.
    split; intros (i & Hi & Hrest); exists i; (split; [lia|]).
    - apply byte_of_pixel; [lia..|]. split; [lia | tauto].
    - apply byte_of_pixel in Hrest; [|lia..]. split; [lia | tauto]. }
  unfold drawFastRawVLine. rewrite Hstride.
  destruct Hc as [-> | ->].
  - rewrite decide_False by lia.
    destruct (column_loop_painted (fun k => k = x mod 8) false
                (fun m b => to_uint8 (Z.land b m)) and_byte (Z.to_nat h)
                ltac:(done) (clr_at (Z.land x 7)) (sharpmem_buffer st)
                (Z.quot x 8 + y * stride) stride)
      as (buf' & -> & Hp); [intros; apply to_uint8_is_uint8 | | done | nia
                            | lia | nia |].
    { intros b k Hk'. rewrite and_clr_bits by lia.
      destruct (and_not_mask_bits (set_at (Z.land x 7)) b k Hk')
        as [[Hs ?]|[Hs ?]]; [left | right];
        rewrite set_at_bit, land7_mod in Hs by lia; tauto. }
    exists buf'. split; [done|].
    eapply painted_iff; [|exact Hp]. intros g Hg. apply Hset. lia.
  - rewrite decide_True by lia. rewrite decide_False by lia.
    destruct (column_loop_painted (fun k => k = x mod 8) true
                (fun m b => to_uint8 (Z.lor b m)) or_byte (Z.to_nat h)
                ltac:(done) (set_at (Z.land x 7)) (sharpmem_buffer st)
                (Z.quot x 8 + y * stride) stride)
      as (buf' & -> & Hp); [intros; apply to_uint8_is_uint8 | | done | nia
                            | lia | nia |].
    { intros b k Hk'.
      destruct (or_mask_bits (set_at (Z.land x 7)) b k Hk')
        as [[Hs ?]|[Hs ?]]; [left | right];
        rewrite set_at_bit, land7_mod in Hs by lia; tauto. }
    exists buf'. split; [done|].
    eapply painted_iff; [|exact Hp]. intros g Hg. apply Hset. lia.
Qed.

(** ** Raw horizontal runs, bit by bit *)

Lemma set_at_uint8 i : 0 <= i <= 7 -> is_uint8 (set_at i).
Proof.
  intros Hi.
  assert (i = 0 \/ i = 1 \/ i = 2 \/ i = 3 \/ i = 4 \/ i = 5 \/ i = 6 \/ i = 7)
    as Hcases by lia.
  by destruct_or!; subst i.
Qed.

Lemma set_at_testbit i j :
  0 <= i <= 7 -> 0 <= j -> Z.testbit (set_at i) j = (i =? j).
Proof.
  intros Hi Hj. rewrite set_at_pow2 by done. apply Z.pow2_bits_eqb. lia.
Qed.

(** The mask loop of the first byte: from bit [i] on it takes
    [t = min (8 - i) remaining] bits. *)
Lemma start_mask_loop_spec (fuel : nat) : forall i mask remaining,
  0 <= i <= 8 -> 0 <= remaining -> 8 - i <= Z.of_nat fuel -> is_uint8 mask ->
  (start_mask_loop fuel i mask remaining).2
    = remaining - Z.min (8 - i) remaining /\
  is_uint8 (start_mask_loop fuel i mask remaining).1 /\
  forall j, 0 <= j < 8 ->
    Z.testbit (start_mask_loop fuel i mask remaining).1 j =
    Z.testbit mask j || ((i <=? j) && (j <? i + Z.min (8 - i) remaining)).
Proof.
  induction fuel as [|fuel IH]; intros i mask remaining Hi Hr Hf Hm.
  - cbn. assert (i = 8) as -> by lia.
    split; [lia|]. split; [done|]. intros j Hj.
    replace (8 <=? j) with false by lia. by rewrite orb_false_r.
  - cbn [start_mask_loop]. case_decide as Hgo.
    + destruct (IH (i + 1) (Z.lor mask (set_at i)) (remaining - 1))
        as (H2 & H1 & Hbits);
        [lia | lia | lia | apply lor_uint8; [done | apply set_at_uint8; lia] |].
      split; [lia|]. split; [done|]. intros j Hj.
      rewrite Hbits, Z.lor_spec, set_at_testbit by lia.
      destruct (Z.testbit mask j); [done|]. cbn.
      destruct (Z.eqb_spec i j), (Z.leb_spec (i + 1) j), (Z.leb_spec i j),
        (Z.ltb_spec j (i + 1 + Z.min (8 - (i + 1)) (remaining - 1))),
        (Z.ltb_spec j (i + Z.min (8 - i) remaining)); cbn; lia.
    + cbn. split; [lia|]. split; [done|]. intros j Hj.
      destruct (Z.leb_spec i j), (Z.ltb_spec j (i + Z.min (8 - i) remaining));
        cbn; try lia; by rewrite orb_false_r.
Qed.

(** The mask loop of the last byte: bits [i] up to [lastByteBits]. *)
Lemma last_mask_loop_spec (fuel : nat) : forall i last mask,
  0 <= i -> last <= 8 -> last - i <= Z.of_nat fuel -> is_uint8 mask ->
  is_uint8 (last_mask_loop fuel i last mask) /\
  forall j, 0 <= j < 8 ->
    Z.testbit (last_mask_loop fuel i last mask) j =
    Z.testbit mask j || ((i <=? j) && (j <? last)).
Proof.
  induction fuel as [|fuel IH]; intros i last mask Hi Hl Hf Hm.
  - cbn. split; [done|]. intros j Hj.
    destruct (Z.leb_spec i j), (Z.ltb_spec j last); cbn; try lia;
      by rewrite orb_false_r.
  - cbn [last_mask_loop]. case_decide as Hgo.
    + destruct (IH (i + 1) last (Z.lor mask (set_at i)))
        as (H1 & Hbits);
        [lia | lia | lia | apply lor_uint8; [done | apply set_at_uint8; lia] |].
      split; [done|]. intros j Hj.
      rewrite Hbits, Z.lor_spec, set_at_testbit by lia.
      destruct (Z.testbit mask j); [done|]. cbn.
      destruct (Z.eqb_spec i j), (Z.leb_spec (i + 1) j), (Z.leb_spec i j),
        (Z.ltb_spec j last); cbn; lia.
    + split; [done|]. intros j Hj.
      destruct (Z.leb_spec i j), (Z.ltb_spec j last); cbn; try lia;
        by rewrite orb_false_r.
Qed.

(** With colour 0 or 1 the cascade on a partly covered byte sets the bits of
    the mask. *)
Lemma fill_partial_painted buf ptr mask y color :
  color = 0 \/ color = 1 ->
  Forall is_uint8 buf -> 0 <= ptr < Z.of_nat (length buf) ->
  exists buf',
    fill_partial buf ptr mask y color = Some buf' /\
    painted (fun g => g / 8 = ptr /\ Z.testbit mask (g mod 8) = true)
            (bool_decide (color = 1)) buf buf'.
Proof.
  intros Hc Hb Hp. destruct Hc as [-> | ->].
  - change (fill_partial buf ptr mask y 0)
      with (and_byte buf ptr (Z.lnot mask)).
    destruct (modify_in_range buf ptr
                (fun b => to_uint8 (Z.land b (Z.lnot mask)))) as [buf' Hm];
      [done|].
    unfold and_byte. rewrite Hm. exists buf'. split; [done|].
    apply (fun Hf Hbits =>
             modify_painted (fun k => Z.testbit mask k = true) false
                            _ _ _ _ Hb Hf Hbits Hm).
    + intros. apply to_uint8_is_uint8.
    + intros b k Hk. apply and_not_mask_bits, Hk.
  - change (fill_partial buf ptr mask y 1) with (or_byte buf ptr mask).
    destruct (modify_in_range buf ptr (fun b => to_uint8 (Z.lor b mask)))
      as [buf' Hm]; [done|].
    unfold or_byte. rewrite Hm. exists buf'. split; [done|].
    apply (fun Hf Hbits =>
             modify_painted (fun k => Z.testbit mask k = true) true
                            _ _ _ _ Hb Hf Hbits Hm).
    + intros. apply to_uint8_is_uint8.
    + intros b k Hk. apply or_mask_bits, Hk.
Qed.

Lemma memset_load buf off v n buf' j :
  0 < n -> memset buf off v n = Some buf' ->
  length buf' = length buf /\
  load buf' j = if decide (off <= j < off + n) then Some (to_uint8 v)
                else load buf j.
Proof.
  intros Hn. unfold memset. rewrite decide_False by lia.
  case_decide as Hr; [|done]. intros [= <-].
  split.
  { rewrite !length_app, length_take, length_replicate, length_drop. lia. }
  unfold load. destruct (decide (0 <= j)) as [Hj|Hj].
  - case_decide as Hin.
    + rewrite lookup_app_r by (rewrite length_take; lia).
      rewrite lookup_app_l by (rewrite length_take, length_replicate; lia).
      apply lookup_replicate. split; [done|]. rewrite length_take. lia.
    + destruct (decide (j < off)).
      * rewrite lookup_app_l by (rewrite length_take; lia).
        apply lookup_take_lt. lia.
      * rewrite lookup_app_r by (rewrite length_take; lia).
        rewrite lookup_app_r by (rewrite length_take, length_replicate; lia).
        rewrite lookup_drop, length_take, length_replicate. f_equal. lia.
  - by rewrite decide_False by lia.
Qed.

(** [memset] with [0xFF] or [0x00] sets every bit of the bytes it covers. *)
Lemma memset_painted buf off n (c : bool) :
  Forall is_uint8 buf -> 0 <= off -> 0 <= n ->
  off + n <= Z.of_nat (length buf) ->
  exists buf',
    memset buf off (if c then 0xFF else 0x00) n = Some buf' /\
    painted (fun g => 8 * off <= g < 8 * (off + n)) c buf buf'.
Proof.
  intros Hb Hoff Hn Hlen. destruct (decide (n = 0)) as [->|Hn0].
  - exists buf. split; [done|].
    eapply painted_iff; [|by apply painted_none].
    intros g _. cbn beta. lia.
  - destruct (memset buf off (if c then 255 else 0) n) as [buf'|] eqn:Hm.
    2:{ unfold memset in Hm. rewrite decide_False in Hm by lia.
        by rewrite decide_True in Hm by lia. }
    exists buf'. split; [done|].
    pose proof (fun j => memset_load buf off _ n buf' j ltac:(lia) Hm) as Hl.
    split; [apply (Hl 0)|]. split.
    + apply Forall_lookup_2. intros i b Hi.
      specialize (Hl (Z.of_nat i)). destruct Hl as [_ Hl].
      rewrite !load_lookup, Nat2Z.id, Hi in Hl by lia.
      case_decide.
      * injection Hl as ->. apply to_uint8_is_uint8.
      * eapply Forall_lookup_1; [exact Hb | done].
    + intros g Hg. unfold bit_at. destruct (Hl (g / 8)) as [_ ->].
      pose proof (Z.mod_pos_bound g 8 ltac:(lia)) as Hk.
      pose proof (Z.div_mod g 8 ltac:(lia)).
      case_decide as Hin.
      * left. split; [lia|]. destruct c.
        -- change (to_uint8 255) with (Z.ones 8).
           apply Z.ones_spec_low. lia.
        -- apply Z.bits_0.
      * right. split; [lia | done].
Qed.

Lemma whole_byte_color_01 y color :
  color = 0 \/ color = 1 ->
  whole_byte_color y color = if bool_decide (color = 1) then 0xFF else 0x00.
Proof. by intros [-> | ->]. Qed.

(** The rest of a run, from a byte boundary on, sets the next
    [remaining] bits. *)
Lemma fill_rest_painted buf ptr remaining y color :
  color = 0 \/ color = 1 ->
  Forall is_uint8 buf -> 0 <= ptr -> 0 <= remaining ->
  8 * ptr + remaining <= 8 * Z.of_nat (length buf) ->
  exists buf',
    fill_rest buf ptr remaining y color = Some buf' /\
    painted (fun g => 8 * ptr <= g < 8 * ptr + remaining)
            (bool_decide (color = 1)) buf buf'.
Proof.
  intros Hc Hb Hp Hr Hlen. unfold fill_rest.
  destruct (decide (remaining > 0)) as [Hpos|Hpos].
  2:{ exists buf. split; [done|].
      eapply painted_iff; [|by apply painted_none].
      intros g _. cbn beta. lia. }
  cbv zeta. rewrite whole_byte_color_01 by done.
  rewrite Z.quot_div_nonneg, Z.rem_mod_nonneg by lia.
  pose proof (Z.div_mod remaining 8 ltac:(lia)) as Hdm.
  pose proof (Z.mod_pos_bound remaining 8 ltac:(lia)) as Hlast.
  assert (0 <= remaining / 8) as Hwhole by (apply Z.div_pos; lia).
  destruct (memset_painted buf ptr (remaining / 8) (bool_decide (color = 1))
              Hb Hp Hwhole ltac:(lia)) as (buf1 & -> & Hp1).
  cbn [mbind option_bind].
  destruct (decide (remaining mod 8 > 0)) as [Hl|Hl].
  - destruct Hp1 as (Hl1 & Hb1 & Hg1).
    destruct (fill_partial_painted buf1 (ptr + remaining / 8)
                (last_mask_loop 8 0 (remaining mod 8) 0) y color Hc Hb1
                ltac:(lia)) as (buf' & -> & Hp2).
    exists buf'. split; [done|].
    eapply painted_iff;
      [|exact (painted_seq _ _ _ _ _ _ (conj Hl1 (conj Hb1 Hg1)) Hp2)].
    intros g Hg. cbn beta.
    destruct (last_mask_loop_spec 8 0 (remaining mod 8) 0)
      as [_ Hbits]; [lia | lia | lia | by unfold is_uint8 |].
    pose proof (Z.div_mod g 8 ltac:(lia)) as Hgdm.
    pose proof (Z.mod_pos_bound g 8 ltac:(lia)) as Hgk.
    rewrite (Hbits (g mod 8) Hgk), Z.bits_0. cbn.
    destruct (Z.leb_spec 0 (g mod 8)), (Z.ltb_spec (g mod 8) (remaining mod 8));
      cbn; split; intros; try lia; destruct_or?; destruct_and?; try lia;
      try done.
  - exists buf1. split; [done|].
    eapply painted_iff; [|exact Hp1].
    intros g Hg. cbn beta. lia.
Qed.

Lemma stride_covers_width w : 0 <= w -> w <= 8 * Z.quot (w + 7) 8.
Proof.
  intros Hw. pose proof (Z.quot_rem' (w + 7) 8).
  pose proof (Z.rem_bound_pos (w + 7) 8). lia.
Qed.

(** [drawFastRawHLine] with colour 0 or 1 sets the bits of the [n] raw
    pixels (x, y), ..., (x + n - 1, y). *)
Lemma raw_hline_painted st x y n color :
  color = 0 \/ color = 1 ->
  0 < WIDTH st <= 32767 -> 0 <= x < WIDTH st -> 0 <= n ->
  x + n <= WIDTH st -> 0 <= y < HEIGHT st -> padded_buffer st ->
  exists buf',
    drawFastRawHLine st x y n color = Some (with_buffer st buf') /\
    painted (fun g => pixel_bit (Z.quot (WIDTH st + 7) 8) x y <= g
                      < pixel_bit (Z.quot (WIDTH st + 7) 8) x y + n)
            (bool_decide (color = 1)) (sharpmem_buffer st) buf'.
Proof.
  intros Hc HW Hx Hn Hxn Hy [Hlen Hbytes].
  set (stride := Z.quot (WIDTH st + 7) 8) in *.
  destruct (pixel_offset_in_range (WIDTH st) (HEIGHT st) stride x y
              eq_refl Hx Hy) as [Hoff Hpos].
  pose proof (stride_covers_width (WIDTH st) ltac:(lia)) as Hcov.
  fold stride in Hcov.
  assert (to_int16 (Z.quot (WIDTH st + 7) 8) = stride) as Hstride.
  { apply to_int16_id. unfold is_int16. subst stride.
    pose proof (Z.quot_rem' (WIDTH st + 7) 8).
    pose proof (Z.rem_bound_pos (WIDTH st + 7) 8). lia. }
  pose proof (Z.div_mod x 8 ltac:(lia)) as Hxdm.
  pose proof (Z.mod_pos_bound x 8 ltac:(lia)) as Hk.
  assert (pixel_bit stride x y = 8 * (x / 8 + y * stride) + x mod 8) as HG
    by (unfold pixel_bit; lia).
  assert (8 * (y * stride) + 8 * stride <= 8 * Z.of_nat (length (sharpmem_buffer st)))
    as Hrow by nia.
  unfold drawFastRawHLine. rewrite Hstride, land7_mod.
  rewrite to_size_t_id by lia. rewrite Z.quot_div_nonneg by lia.
  set (ptr := x / 8 + y * stride) in *.
  destruct (decide (x mod 8 > 0)) as [Hfirst|Hfirst].
  - destruct (start_mask_loop_spec 8 (x mod 8) 0 n)
      as (Hrem & Hmask & Hbits); [lia | lia | lia | by unfold is_uint8 |].
    destruct (start_mask_loop 8 (x mod 8) 0 n) as [mask rem].
    cbn [fst snd] in Hrem, Hmask, Hbits.
    destruct (fill_partial_painted (sharpmem_buffer st) ptr mask y color
                Hc Hbytes ltac:(lia)) as (buf1 & -> & Hp1).
    cbn [mbind option_bind].
    destruct Hp1 as (Hl1 & Hb1 & Hg1).
    destruct (fill_rest_painted buf1 (ptr + 1) rem y color Hc Hb1
                ltac:(lia) ltac:(lia) ltac:(lia)) as (buf' & -> & Hp2).
    exists buf'. split; [done|].
    eapply painted_iff;
      [|exact (painted_seq _ _ _ _ _ _ (conj Hl1 (conj Hb1 Hg1)) Hp2)].
    intros g Hg. cbn beta. rewrite HG.
    pose proof (Z.div_mod g 8 ltac:(lia)) as Hgdm.
    pose proof (Z.mod_pos_bound g 8 ltac:(lia)) as Hgk.
    rewrite (Hbits (g mod 8) Hgk), Z.bits_0. cbn.
    destruct (Z.leb_spec (x mod 8) (g mod 8)),
      (Z.ltb_spec (g mod 8) (x mod 8 + Z.min (8 - x mod 8) n));
      cbn; split; intros; destruct_or?; destruct_and?; try lia; try done.
  - destruct (fill_rest_painted (sharpmem_buffer st) ptr n y color Hc Hbytes
                ltac:(lia) ltac:(lia) ltac:(lia)) as (buf' & Hrest & Hp2).
    cbn [mbind option_bind]. rewrite Hrest. exists buf'. split; [done|].
    eapply painted_iff; [|exact Hp2].
    intros g Hg. cbn beta. rewrite HG. lia.
Qed.

(** ** Fast runs against pixel loops *)

Lemma canvas_ok_sizes st :
  canvas_ok st ->
  0 < WIDTH st <= 32767 /\ 0 < HEIGHT st <= 32767 /\
  ((rotation st = 0 \/ rotation st = 2) /\
   _width st = WIDTH st /\ _height st = HEIGHT st \/
   (rotation st = 1 \/ rotation st = 3) /\
   _width st = HEIGHT st /\ _height st = WIDTH st).
Proof.
  intros (HW & HH & Hr & Hw & Hh). split; [done|]. split; [done|].
  assert (rotation st = 0 \/ rotation st = 1 \/ rotation st = 2 \/
          rotation st = 3) as Hcases by lia.
  destruct Hcases as [Hc|[Hc|[Hc|Hc]]]; rewrite Hc in Hw, Hh;
    [ rewrite decide_False in Hw, Hh by lia
    | rewrite decide_True in Hw, Hh by lia
    | rewrite decide_False in Hw, Hh by lia
    | rewrite decide_True in Hw, Hh by lia ]; tauto.
Qed.

(** The rotation cascade on a run inside the canvas sets the bits of its
    logical points. *)
Lemma rotated_run_painted st x y n color :
  color = 0 \/ color = 1 ->
  canvas_ok st -> padded_buffer st ->
  0 <= x < _width st -> 0 <= n -> x + n <= _width st -> 0 < x + n ->
  0 <= y < _height st ->
  exists buf',
    rotated_run st x y n color = Some (with_buffer st buf') /\
    painted (fun g => exists i, 0 <= i < n /\ g = logical_bit st (x + i) y)
            (bool_decide (color = 1)) (sharpmem_buffer st) buf'.
Proof.
  intros Hc Hok Hpad Hx Hn Hxn Hpos Hy.
  destruct (canvas_ok_sizes st Hok) as (HW & HH & Hrot).
  unfold rotated_run, getRotation, logical_bit.
  destruct Hrot as [([Hr|Hr] & Hw & Hh) | ([Hr|Hr] & Hw & Hh)];
    rewrite Hr, Hw, Hh in *; cbn [raw_point fst snd].
  - (* rotation 0 *)
    rewrite decide_True by done.
    destruct (raw_hline_painted st x y n color Hc HW ltac:(lia) Hn
                ltac:(lia) ltac:(lia) Hpad) as (buf' & -> & Hp).
    exists buf'. split; [done|].
    eapply painted_iff; [|exact Hp].
    intros g _. cbn beta. unfold pixel_bit. split.
    + intros Hg. exists (g - (8 * (y * Z.quot (WIDTH st + 7) 8) + x)). lia.
    + intros (i & Hi & ->). lia.
  - (* rotation 2 *)
    rewrite decide_False by lia. rewrite decide_False by lia.
    rewrite decide_True by done. cbv zeta.
    rewrite (to_int16_id (WIDTH st - 1 - x)) by (unfold is_int16; lia).
    rewrite (to_int16_id (HEIGHT st - 1 - y)) by (unfold is_int16; lia).
    rewrite to_int16_id by (unfold is_int16; lia).
    destruct (raw_hline_painted st (WIDTH st - 1 - x - (n - 1))
                (HEIGHT st - 1 - y) n color Hc HW ltac:(lia) Hn
                ltac:(lia) ltac:(lia) Hpad) as (buf' & -> & Hp).
    exists buf'. split; [done|].
    eapply painted_iff; [|exact Hp].
    intros g _. cbn beta. unfold pixel_bit. split.
    + intros Hg.
      exists (8 * ((HEIGHT st - 1 - y) * Z.quot (WIDTH st + 7) 8)
              + (WIDTH st - 1 - x) - g). lia.
    + intros (i & Hi & ->). lia.
  - (* rotation 1 *)
    rewrite decide_False by lia. rewrite decide_True by done. cbv zeta.
    rewrite to_int16_id by (unfold is_int16; lia).
    destruct (raw_vline_painted st (WIDTH st - 1 - y) x n color Hc HW
                ltac:(lia) ltac:(lia) Hn ltac:(lia) Hpad)
      as (buf' & -> & Hp).
    exists buf'. split; [done|]. exact Hp.
  - (* rotation 3 *)
    rewrite decide_False by lia. rewrite decide_False by lia.
    rewrite decide_False by lia. rewrite decide_True by done. cbv zeta.
    rewrite (to_int16_id (HEIGHT st - 1 - x)) by (unfold is_int16; lia).
    rewrite to_int16_id by (unfold is_int16; lia).
    destruct (raw_vline_painted st y (HEIGHT st - 1 - x - (n - 1)) n color
                Hc HW ltac:(lia) ltac:(lia) Hn ltac:(lia) Hpad)
      as (buf' & -> & Hp).
    exists buf'. split; [done|].
    eapply painted_iff; [|exact Hp].
    intros g _. cbn beta. split.
    + intros (i & Hi & ->). exists (n - 1 - i). split; [lia|].
      f_equal. lia.
    + intros (i & Hi & ->). exists (n - 1 - i). split; [lia|].
      f_equal. lia.
Qed.

(** [drawFastHLine] is the rotation cascade on the part of the run that
    lies inside the canvas, and nothing when no part does. *)
Lemma drawFastHLine_clipped st x y w color :
  canvas_ok st ->
  -16384 <= x <= 16383 -> -16384 <= w <= 16383 ->
  let a := if decide (w < 0) then x + w + 1 else x in
  let n := Z.abs w in
  drawFastHLine st x y w color =
    if decide (y < 0 \/ y >= _height st \/ a >= _width st \/ a + n - 1 < 0)
    then Some st
    else rotated_run st (Z.max a 0) y
                     (Z.min (a + n) (_width st) - Z.max a 0) color.
Proof.
  intros Hok Hx Hw a n.
  destruct (canvas_ok_sizes st Hok) as (HW & HH & Hrot).
  assert (0 < _width st <= 32767) as Hwidth by (destruct_or!; lia).
  unfold drawFastHLine, width, height. subst a n.
  destruct (decide (w < 0)) as [Hneg|Hnonneg].
  - rewrite (to_int16_id (w * -1)) by (unfold is_int16; lia).
    rewrite (to_int16_id (x - _)) by (unfold is_int16; lia).
    destruct (decide (x - (w * -1 - 1) < 0)) as [Hleft|Hleft].
    + rewrite to_int16_id by (unfold is_int16; lia).
      destruct (decide (y < 0 \/ y >= _height st \/ 0 >= _width st \/
                        0 + (w * -1 + (x - (w * -1 - 1))) - 1 < 0)).
      * by rewrite decide_True by lia.
      * rewrite (decide_False (P := _ \/ _)) by lia.
        rewrite decide_False by lia.
        replace (Z.max (x + w + 1) 0) with 0 by lia.
        case_decide.
        -- rewrite to_int16_id by (unfold is_int16; lia).
           f_equal. lia.
        -- f_equal. lia.
    + destruct (decide (y < 0 \/ y >= _height st \/
                        x - (w * -1 - 1) >= _width st \/
                        x - (w * -1 - 1) + w * -1 - 1 < 0)).
      * by rewrite decide_True by lia.
      * rewrite (decide_False (P := _ \/ _)) by lia.
        rewrite decide_False by lia.
        replace (Z.max (x + w + 1) 0) with (x - (w * -1 - 1)) by lia.
        case_decide.
        -- rewrite to_int16_id by (unfold is_int16; lia).
           f_equal. lia.
        -- f_equal. lia.
  - destruct (decide (y < 0 \/ y >= _height st \/ x >= _width st \/
                      x + w - 1 < 0)).
    + by rewrite decide_True by lia.
    + rewrite (decide_False (P := _ \/ _)) by lia.
      destruct (decide (x < 0)) as [Hleft|Hleft].
      * rewrite to_int16_id by (unfold is_int16; lia).
        replace (Z.max x 0) with 0 by lia.
        case_decide.
        -- rewrite to_int16_id by (unfold is_int16; lia).
           f_equal. lia.
        -- f_equal. lia.
      * replace (Z.max x 0) with x by lia.
        case_decide.
        -- rewrite to_int16_id by (unfold is_int16; lia).
           f_equal. lia.
        -- f_equal. lia.
Qed.

(** [drawFastHLine] up to the rotation cascade, for every 16-bit [x] and
    every width but -32768: the run that reaches the cascade is the part
    inside the canvas of the [|w|] points from [a], where [a] is the left
    end of the run as the 16-bit variable [x] holds it. *)
Lemma drawFastHLine_clipped_int16 st x y w color :
  canvas_ok st ->
  is_int16 x -> -32767 <= w <= 32767 ->
  let a := to_int16 (if decide (w < 0) then x + w + 1 else x) in
  let n := Z.abs w in
  drawFastHLine st x y w color =
    if decide (y < 0 \/ y >= _height st \/ a >= _width st \/ a + n - 1 < 0)
    then Some st
    else rotated_run st (Z.max a 0) y
                     (Z.min (a + n) (_width st) - Z.max a 0) color.
Proof.
  intros Hok Hx Hw a n. unfold is_int16 in Hx.
  destruct (canvas_ok_sizes st Hok) as (HW & HH & Hrot).
  assert (0 < _width st <= 32767) as Hwidth by (destruct_or!; lia).
  unfold drawFastHLine, width, height. subst a n.
  destruct (decide (w < 0)) as [Hneg|Hnonneg].
  - rewrite (to_int16_id (w * -1)) by (unfold is_int16; lia).
    replace (x - (w * -1 - 1)) with (x + w + 1) by lia.
    assert (-32768 <= x + w + 1 /\ to_int16 (x + w + 1) = x + w + 1 \/
            x + w + 1 < -32768 /\
            to_int16 (x + w + 1) = x + w + 1 + 65536) as Ha.
    { destruct (decide (-32768 <= x + w + 1)) as [Hin|Hwrap].
      - left. split; [done|]. apply to_int16_id. unfold is_int16. lia.
      - right. split; [lia|]. rewrite <- to_int16_shift.
        apply to_int16_id. unfold is_int16. lia. }
    remember (to_int16 (x + w + 1)) as a eqn:Hadef. clear Hadef.
    destruct (decide (a < 0)) as [Hleft|Hleft].
    + rewrite to_int16_id by (unfold is_int16; lia).
      destruct (decide (y < 0 \/ y >= _height st \/ 0 >= _width st \/
                        0 + (w * -1 + a) - 1 < 0)).
      * by rewrite decide_True by lia.
      * rewrite (decide_False (P := _ \/ _)) by lia.
        rewrite decide_False by lia.
        replace (Z.max a 0) with 0 by lia.
        case_decide.
        -- rewrite to_int16_id by (unfold is_int16; lia).
           f_equal. lia.
        -- f_equal. lia.
    + destruct (decide (y < 0 \/ y >= _height st \/ a >= _width st \/
                        a + w * -1 - 1 < 0)).
      * by rewrite decide_True by lia.
      * rewrite (decide_False (P := _ \/ _)) by lia.
        rewrite decide_False by lia.
        replace (Z.max a 0) with a by lia.
        case_decide.
        -- rewrite to_int16_id by (unfold is_int16; lia).
           f_equal. lia.
        -- f_equal. lia.
  - rewrite (to_int16_id x) by done.
    destruct (decide (y < 0 \/ y >= _height st \/ x >= _width st \/
                      x + w - 1 < 0)).
    + by rewrite decide_True by lia.
    + rewrite (decide_False (P := _ \/ _)) by lia.
      destruct (decide (x < 0)) as [Hleft|Hleft].
      * rewrite to_int16_id by (unfold is_int16; lia).
        replace (Z.max x 0) with 0 by lia.
        case_decide.
        -- rewrite to_int16_id by (unfold is_int16; lia).
           f_equal. lia.
        -- f_equal. lia.
      * replace (Z.max x 0) with x by lia.
        case_decide.
        -- rewrite to_int16_id by (unfold is_int16; lia).
           f_equal. lia.
        -- f_equal. lia.
Qed.

(** X29: for the selectors BLACK and WHITE the run and the pixels agree.
    In every rotation, for every 16-bit [x] and every width from -32767 to
    32767 (negative widths, runs that leave the canvas, empty runs and
    runs whose left end wraps in its 16-bit variable included), on a buffer
    that holds [HEIGHT] padded rows of bytes, [drawFastHLine] returns and
    leaves the very buffer that the pixel-by-pixel loop over the same
    logical run leaves, each point reaching [drawPixel] as an [int16_t]. *)
Theorem solid_run_matches_pixels st x y w color :
  color = 0 \/ color = 1 ->
  canvas_ok st -> padded_buffer st ->
  is_int16 x -> -32767 <= w <= 32767 ->
  exists buf',
    sharpmem_buffer <$> drawFastHLine st x y w color = Some buf' /\
    sharpmem_buffer <$> hline_by_pixels st x y w color = Some buf'.
Proof.
  intros Hc Hok Hpad Hx Hw.
  destruct (canvas_ok_sizes st Hok) as (HW & HH & Hrot).
  assert (0 < _width st <= 32767) as Hwidth by (destruct_or!; lia).
  rewrite drawFastHLine_clipped_int16 by done.
  unfold is_int16 in Hx.
  assert (hline_by_pixels st x y w color
          = pixel_loop (Z.to_nat (Z.abs w)) st
                       (if decide (w < 0) then x + w + 1 else x) y color)
    as ->.
  { unfold hline_by_pixels. destruct (decide (w < 0)); f_equal; lia. }
  remember (if decide (w < 0) then x + w + 1 else x) as a0 eqn:Hdef.
  assert (-65534 <= a0 <= 32767) as Ha0
    by (rewrite Hdef; destruct (decide (w < 0)); lia).
  assert (a0 < -32768 -> a0 + Z.abs w <= 0) as Hwrapped
    by (rewrite Hdef; destruct (decide (w < 0)); lia).
  clear Hdef.
  assert (pixel_loop (Z.to_nat (Z.abs w)) st a0 y color
          = pixel_loop (Z.to_nat (Z.abs w)) st (to_int16 a0) y color /\
          -32768 <= to_int16 a0 <= 32767 /\
          to_int16 a0 + Z.abs w <= 65536) as (-> & Ha & Han).
  { destruct (decide (-32768 <= a0)) as [Hin|Hwrap].
    - rewrite to_int16_id by (unfold is_int16; lia). split; [done | lia].
    - rewrite <- (to_int16_shift a0).
      rewrite (to_int16_id (a0 + 65536)) by (unfold is_int16; lia).
      rewrite pixel_loop_shift. split; [done | lia]. }
  generalize dependent (to_int16 a0). intros a Ha Han. clear Hwrapped Ha0.
  assert (0 <= Z.abs w <= 32767) as Hn by lia.
  generalize dependent (Z.abs w). intros n Han Hn. clear Hx Hw.
  case_decide as Hout.
  - exists (sharpmem_buffer st). split; [done|].
    rewrite pixel_loop_outside; [done|].
    destruct (decide (y < 0 \/ y >= _height st)); [lia|].
    right. right. intros p Hp. apply off_canvas_point; lia.
  - rewrite pixel_loop_clip by lia.
    set (lo := Z.max a 0). set (hi := Z.min (a + n) (_width st)).
    assert (0 <= lo < _width st /\ lo <= hi <= _width st /\ 0 < hi)
      as (Hlo & Hhi & Hpos) by lia.
    destruct (rotated_run_painted st lo y (hi - lo) color Hc Hok Hpad Hlo
                ltac:(lia) ltac:(lia) ltac:(lia) ltac:(lia))
      as (buf1 & -> & Hp1).
    destruct (pixel_loop_painted color y (Z.to_nat (hi - lo)) st lo Hc Hok
                Hpad ltac:(lia) ltac:(lia) ltac:(lia))
      as (buf2 & -> & Hp2).
    exists buf1. split; [done|]. f_equal.
    eapply painted_unique; [|exact Hp1].
    eapply painted_iff; [|exact Hp2].
    intros g _. by rewrite Z2Nat.id by lia.
Qed.

(** At the end of the 16-bit range: from [x = -32768] with [w = -32767]
    the left end of the run wraps to 2 in its 16-bit variable, and so do
    the coordinates that the pixel loop hands to [drawPixel]; on a 16x1
    panel both leave the bytes [252; 255]. *)
Lemma solid_run_matches_pixels_witness :
  sharpmem_buffer <$>
    drawFastHLine (panel 16 1 0 [0; 0] 2) (-32768) 0 (-32767) 1
    = Some [252; 255] /\
  sharpmem_buffer <$>
    hline_by_pixels (panel 16 1 0 [0; 0] 2) (-32768) 0 (-32767) 1
    = Some [252; 255].
Proof.
  destruct (solid_run_matches_pixels (panel 16 1 0 [0; 0] 2)
              (-32768) 0 (-32767) 1) as (buf' & Hrun & Hloop);
    [by right | panel_facts | | unfold is_int16; lia | lia |].
  { split; [by vm_compute|]. by repeat constructor. }
  assert (sharpmem_buffer <$>
            drawFastHLine (panel 16 1 0 [0; 0] 2) (-32768) 0 (-32767) 1
          = Some [252; 255]) as Hbytes by (by vm_compute).
  rewrite Hbytes in Hrun. injection Hrun as <-. by split.
Defined.

(** The width -32768 is left out above: [w *= -1] leaves it at -32768 in
    its 16-bit variable.  From [x = 32767] on a 16x1 panel the run then
    fails the edge test and draws nothing, where the 32768 points of the
    logical run, 0 to 32767, cover the row. *)
Example width_int16_min_is_no_run :
  sharpmem_buffer <$>
    drawFastHLine (panel 16 1 0 [0; 0] 2) 32767 0 (-32768) 1
    = Some [0; 0] /\
  sharpmem_buffer <$>
    hline_by_pixels (panel 16 1 0 [0; 0] 2) 32767 0 (-32768) 1
    = Some [255; 255].
Proof. split; by vm_compute. Qed.

(** ** The polarity bit over successive refreshes *)

(** X4: with a non-zero [SHARPMEM_BIT_VCOM] and [_sharpmem_vcom] at one of
    its two values, one [refresh] changes [_sharpmem_vcom] and a second one
    brings it back: the bit alternates from frame to frame. *)
Theorem vcom_alternates SHARPMEM_BIT_WRITECMD SHARPMEM_BIT_VCOM st st1 st2 :
  SHARPMEM_BIT_VCOM <> 0 ->
  _sharpmem_vcom st = 0 \/ _sharpmem_vcom st = SHARPMEM_BIT_VCOM ->
  refresh SHARPMEM_BIT_WRITECMD SHARPMEM_BIT_VCOM st = Some st1 ->
  refresh SHARPMEM_BIT_WRITECMD SHARPMEM_BIT_VCOM st1 = Some st2 ->
  _sharpmem_vcom st1 <> _sharpmem_vcom st /\
  _sharpmem_vcom st2 = _sharpmem_vcom st.
Proof.
  intros Hv H0 Hr1 Hr2.
  apply refresh_frame in Hr1 as (_ & _ & _ & _ & _ & _ & _ & Hv1).
  apply refresh_frame in Hr2 as (_ & _ & _ & _ & _ & _ & _ & Hv2).
  rewrite Hv2, Hv1. unfold flipped.
  destruct H0 as [-> | ->]; repeat case_decide; done.
Qed.

Lemma vcom_alternates_witness :
  exists st1 st2,
    refresh 1 2 (panel 16 2 0 [1; 2; 3; 4] 2) = Some st1 /\
    refresh 1 2 st1 = Some st2 /\
    _sharpmem_vcom st1 <> 2 /\ _sharpmem_vcom st2 = 2.
Proof.
  destruct (refresh 1 2 (panel 16 2 0 [1; 2; 3; 4] 2)) as [st1|] eqn:Hr1;
    [|by vm_compute in Hr1].
  destruct (refresh 1 2 st1) as [st2|] eqn:Hr2.
  2:{ vm_compute in Hr1. injection Hr1 as <-. by vm_compute in Hr2. }
  exists st1, st2. split; [done|]. split; [done|].
  apply (vcom_alternates 1 2 (panel 16 2 0 [1; 2; 3; 4] 2) st1 st2);
    [done | by right | exact Hr1 | exact Hr2].
Defined.

(** ** What the raster operations leave alone, all fields *)

(** X5: whatever a pixel-writing operation returns differs from the driver
    it was given in the pixel buffer at most: nothing is sent on the bus, and
    the panel size, the canvas size, the rotation, the chip-select pin and the
    polarity bit stay as they were. *)
Theorem raster_operations_change_buffer_only perpendicular triangle_calls st :
  (forall x y color st',
     drawPixel st x y color = Some st' -> only_buffer_changed st st') /\
  (forall x y w color st',
     drawFastHLine st x y w color = Some st' -> only_buffer_changed st st') /\
  (forall x y w color st',
     drawFastRawHLine st x y w color = Some st' ->
     only_buffer_changed st st') /\
  (forall x y h color st',
     drawFastRawVLine st x y h color = Some st' ->
     only_buffer_changed st st') /\
  (forall x y w h color st',
     fillRect st x y w h color = Some st' -> only_buffer_changed st st') /\
  (forall x0 y0 x1 y1 strokeWidth color st',
     drawFatLine perpendicular triangle_calls st x0 y0 x1 y1 strokeWidth color
       = Some st' ->
     only_buffer_changed st st') /\
  (forall st', clearDisplayBuffer st = Some st' -> only_buffer_changed st st')
  /\
  (forall bitmap st',
     setBitmap st bitmap = Some st' -> only_buffer_changed st st').
Proof.
  repeat apply conj; intros;
    eauto using drawPixel_frame, drawFastHLine_frame, drawFastRawHLine_frame,
      drawFastRawVLine_frame, fillRect_frame, drawFatLine_frame,
      clearDisplayBuffer_frame, setBitmap_frame.
Qed.

(** ** Loading and dumping the buffer *)

Lemma memcpy_into_all buf src :
  length src = length buf ->
  memcpy_into buf src (Z.of_nat (length buf)) = Some src.
Proof.
  intros Hlen. unfold memcpy_into. destruct buf as [|b buf].
  - destruct src; [done | discriminate].
  - rewrite decide_False by (cbn [length]; lia).
    rewrite decide_True by lia.
    rewrite Nat2Z.id, drop_all, app_nil_r, <- Hlen. by rewrite firstn_all.
Qed.

(** X6: on an allocated driver, [setBitmap] with a bitmap of the size of the
    buffer returns, and [copyPixelBuffer] then yields that very bitmap. *)
Theorem setBitmap_then_copyPixelBuffer st bitmap :
  is_int16 (WIDTH st) -> is_int16 (HEIGHT st) -> allocated st ->
  length bitmap = length (sharpmem_buffer st) ->
  exists st',
    setBitmap st bitmap = Some st' /\
    sharpmem_buffer st' = bitmap /\
    copyPixelBuffer st' = Some bitmap.
Proof.
  intros Hw Hh Ha Hlen. unfold setBitmap, copyPixelBuffer.
  rewrite buffer_bytes_size_t by done.
  rewrite memcpy_into_all by done. cbn [mbind option_bind].
  eexists. split; [done|]. split; [done|].
  change (buffer_bytes (with_buffer st bitmap)) with (buffer_bytes st).
  rewrite buffer_bytes_size_t by done.
  cbn [sharpmem_buffer with_buffer]. rewrite <- Hlen.
  apply memcpy_from_all.
Qed.

Lemma setBitmap_then_copyPixelBuffer_witness :
  exists st',
    setBitmap (panel 16 2 0 [1; 2; 3; 4] 2) [9; 8; 7; 6] = Some st' /\
    sharpmem_buffer st' = [9; 8; 7; 6] /\
    copyPixelBuffer st' = Some [9; 8; 7; 6].
Proof.
  apply (setBitmap_then_copyPixelBuffer (panel 16 2 0 [1; 2; 3; 4] 2)
           [9; 8; 7; 6]); panel_facts.
Defined.

(** X7: a snapshot taken with [copyPixelBuffer] restores the buffer: on any
    later driver [st1] of the same panel whose buffer is still the allocated
    block, whatever has been drawn into it, [setBitmap] with the snapshot
    returns and the buffer is again what it was when the snapshot was
    taken. *)
Theorem snapshot_restores_buffer st st1 snapshot :
  is_int16 (WIDTH st) -> is_int16 (HEIGHT st) -> allocated st ->
  WIDTH st1 = WIDTH st -> HEIGHT st1 = HEIGHT st -> allocated st1 ->
  copyPixelBuffer st = Some snapshot ->
  exists st2,
    setBitmap st1 snapshot = Some st2 /\
    sharpmem_buffer st2 = sharpmem_buffer st.
Proof.
  intros Hw Hh Ha HW1 HH1 Ha1 Hcopy.
  unfold copyPixelBuffer in Hcopy.
  rewrite buffer_bytes_size_t, memcpy_from_all in Hcopy by done.
  injection Hcopy as <-.
  unfold setBitmap.
  rewrite buffer_bytes_size_t by (done || by rewrite ?HW1, ?HH1).
  rewrite memcpy_into_all.
  - eexists. by split.
  - unfold allocated, buffer_bytes in *. rewrite HW1, HH1 in Ha1. lia.
Qed.

Lemma snapshot_restores_buffer_witness :
  exists st2,
    setBitmap (panel 16 2 0 [0; 0; 0; 0] 2) [1; 2; 3; 4] = Some st2 /\
    sharpmem_buffer st2 = [1; 2; 3; 4].
Proof.
  apply (snapshot_restores_buffer (panel 16 2 0 [1; 2; 3; 4] 2)
           (panel 16 2 0 [0; 0; 0; 0] 2) [1; 2; 3; 4]); panel_facts.
Defined.

(** ** Panels on which [refresh] cannot finish *)

Lemma refresh_loop_stuck (fuel : nat) : forall st totalbytes,
  0 < totalbytes -> refresh_loop fuel st 0 totalbytes 0 = None.
Proof.
  induction fuel as [|fuel IH]; intros st tb Htb; [done|].
  cbn [refresh_loop]. rewrite decide_True by lia.
  case_decide; [done|].
  change (memcpy_from (sharpmem_buffer st) 0 0) with (Some (@nil Z)).
  cbn [mbind option_bind]. change (to_uint16 (0 + 0)) with 0.
  by apply IH.
Qed.

(** X8: when [WIDTH / 8] is 0 as a [uint8_t] (a panel narrower than 8
    pixels, or a width from 2048 to 2055) and there is at least one byte to
    send, [refresh] has no result: its loop either divides by [WIDTH / 8 = 0]
    or advances by 0 bytes for ever. *)
Theorem refresh_needs_a_byte_per_line SHARPMEM_BIT_WRITECMD SHARPMEM_BIT_VCOM
    st :
  to_uint8 (Z.quot (WIDTH st) 8) = 0 ->
  0 < to_uint16 (Z.quot (WIDTH st * HEIGHT st) 8) ->
  refresh SHARPMEM_BIT_WRITECMD SHARPMEM_BIT_VCOM st = None.
Proof.
  intros Hbpl Htotal. unfold refresh.
  change (WIDTH (TOGGLE_VCOM _ _)) with (WIDTH st).
  change (HEIGHT (TOGGLE_VCOM _ _)) with (HEIGHT st).
  rewrite Hbpl. by rewrite refresh_loop_stuck.
Qed.

Lemma refresh_needs_a_byte_per_line_witness :
  refresh 1 2 (panel 4 4 0 [0; 0] 2) = None /\
  refresh 1 2 (panel 2048 1 0 (replicate 256 0) 2) = None.
Proof.
  split.
  - apply (refresh_needs_a_byte_per_line 1 2 (panel 4 4 0 [0; 0] 2));
      by vm_compute.
  - apply (refresh_needs_a_byte_per_line 1 2
             (panel 2048 1 0 (replicate 256 0) 2)); by vm_compute.
Defined.

(** ** The row loop of [fillRect] *)

Lemma to_int16_is_int16 z : is_int16 (to_int16 z).
Proof.
  unfold is_int16, to_int16. pose proof (Z.mod_pos_bound (z + 32768) 65536).
  lia.
Qed.

Lemma fillRect_loop_never_ends (fuel : nat) x bound w color : forall st i,
  is_int16 i -> 32767 < bound ->
  fillRect_loop fuel st x i bound w color = None.
Proof.
  induction fuel as [|fuel IH]; intros st i Hi Hb; [done|].
  cbn [fillRect_loop]. rewrite decide_True by (unfold is_int16 in Hi; lia).
  destruct (drawFastHLine st x i w color) as [st'|]; [|done]. cbn.
  apply IH; [apply to_int16_is_int16 | done].
Qed.

Lemma fillRect_loop_rows x w color (n : nat) : forall (fuel : nat) st i,
  is_int16 i -> i + Z.of_nat n <= 32767 -> (n < fuel)%nat ->
  fillRect_loop fuel st x i (i + Z.of_nat n) w color
  = rows_loop n st x i w color.
Proof.
  induction n as [|n IH]; intros fuel st i Hi Hn Hfuel;
    (destruct fuel as [|fuel]; [lia|]); cbn [fillRect_loop rows_loop].
  - by rewrite decide_False by lia.
  - rewrite decide_True by lia.
    destruct (drawFastHLine st x i w color) as [st'|]; [|done]. cbn.
    unfold is_int16 in Hi. rewrite to_int16_id by (unfold is_int16; lia).
    replace (i + Z.of_nat (S n)) with (i + 1 + Z.of_nat n) by lia.
    apply IH; [unfold is_int16; lia | lia | lia].
Qed.

(** X9: [fillRect] draws no row when [h <= 0]; it is [h] successive
    [drawFastHLine] calls, rows [y] to [y + h - 1], when [y + h] stays within
    the 16-bit range; and when [h > 0] and [y + h] exceeds 32767 it has no
    result, because its 16-bit row counter wraps before reaching the bound. *)
Theorem fillRect_row_loop st x y w h color :
  is_int16 y ->
  (h <= 0 -> fillRect st x y w h color = Some st) /\
  (0 <= h -> y + h <= 32767 ->
   fillRect st x y w h color = rows_loop (Z.to_nat h) st x y w color) /\
  (32767 < y + h -> fillRect st x y w h color = None).
Proof.
  intros Hy. unfold fillRect. repeat split.
  - intros Hh. change (Z.to_nat 65536) with (S (Z.to_nat 65535)).
    cbn [fillRect_loop]. by rewrite decide_False by lia.
  - intros Hh Hyh. rewrite <- (Z2Nat.id h) at 1 by done.
    apply fillRect_loop_rows; [done | lia |].
    unfold is_int16 in Hy. lia.
  - intros Hyh. by apply fillRect_loop_never_ends.
Qed.

Lemma fillRect_row_loop_witness :
  fillRect (panel 16 2 0 [1; 2; 3; 4] 2) 0 0 4 2 1
  = rows_loop 2 (panel 16 2 0 [1; 2; 3; 4] 2) 0 0 4 1 /\
  fillRect (panel 16 2 0 [1; 2; 3; 4] 2) 0 32767 4 1 1 = None.
Proof.
  split.
  - apply (proj1 (proj2 (fillRect_row_loop (panel 16 2 0 [1; 2; 3; 4] 2)
                           0 0 4 2 1 ltac:(unfold is_int16; lia))));
      lia.
  - apply (proj2 (proj2 (fillRect_row_loop (panel 16 2 0 [1; 2; 3; 4] 2)
                           0 32767 4 1 1 ltac:(unfold is_int16; lia))));
      lia.
Defined.

(** ** Runs: negative widths and runs off the canvas *)

(** X10: a run of negative width [-w] from [x] is the run of width [w] that
    ends at [x]: [drawFastHLine (x, y, -w)] and
    [drawFastHLine (x - w + 1, y, w)] return the same, for every colour
    selector and every rotation. *)
Theorem negative_width_is_mirrored_run st x y w color :
  canvas_ok st -> 0 < w <= 16383 ->
  -16384 <= x <= 16383 -> -16384 <= x - w + 1 ->
  drawFastHLine st x y (- w) color = drawFastHLine st (x - w + 1) y w color.
Proof.
  intros Hok Hw Hx Hx'.
  rewrite (drawFastHLine_clipped st x y (- w)) by (done || lia).
  rewrite (drawFastHLine_clipped st (x - w + 1) y w) by (done || lia).
  destruct (decide (- w < 0)); [|lia]. destruct (decide (w < 0)); [lia|].
  replace (Z.abs (- w)) with w by lia. replace (Z.abs w) with w by lia.
  by replace (x + - w + 1) with (x - w + 1) by lia.
Qed.

Lemma negative_width_is_mirrored_run_witness :
  drawFastHLine (panel 16 8 1 (replicate 16 0) 2) 5 3 (-4) 2 =
  drawFastHLine (panel 16 8 1 (replicate 16 0) 2) (5 - 4 + 1) 3 4 2.
Proof.
  apply (negative_width_is_mirrored_run (panel 16 8 1 (replicate 16 0) 2)
           5 3 4 2); panel_facts.
Defined.

(** X11: a run that has no point on the canvas - its row is outside, or it
    lies wholly to the left or to the right - is rejected: [drawFastHLine]
    returns the driver unchanged, for every colour selector and rotation and
    whatever the buffer holds. *)
Theorem off_canvas_run_rejected st x y w color :
  canvas_ok st -> -16384 <= x <= 16383 -> 0 <= w <= 16383 ->
  y < 0 \/ y >= _height st \/ x >= _width st \/ x + w <= 0 ->
  drawFastHLine st x y w color = Some st.
Proof.
  intros Hok Hx Hw Hout.
  rewrite drawFastHLine_clipped by (done || lia).
  destruct (decide (w < 0)); [lia|].
  rewrite decide_True; [done|]. lia.
Qed.

Lemma off_canvas_run_rejected_witness :
  drawFastHLine (panel 16 8 1 [] 2) (-7) 3 5 6 = Some (panel 16 8 1 [] 2).
Proof.
  apply (off_canvas_run_rejected (panel 16 8 1 [] 2) (-7) 3 5 6);
    panel_facts.
Defined.

(** ** The colour switch of [drawPixel], case by case *)

(** Whatever the selector, the colour switch is one read-modify-write: it
    sets or clears bit [x & 7] of one byte, and which byte and which of the
    two depends on the selector, the raw point and the panel width only. *)
Lemma write_raw_shape W x y color :
  exists (white : bool) (idx : Z),
    (idx = Z.quot x 8 + y * Z.quot (W + 7) 8 \/ idx = Z.quot (y * W + x) 8) /\
    forall st, WIDTH st = W ->
      write_raw st x y color =
      buf' ← (if white
              then or_byte (sharpmem_buffer st) idx (set_at (Z.land x 7))
              else and_byte (sharpmem_buffer st) idx (clr_at (Z.land x 7)));
      Some (with_buffer st buf').
Proof.
  unfold write_raw.
  destruct color as [|[[[p|p|]|[p|p|]|]|[[p|p|]|[p|p|]|]|]|p]; cbv zeta.
  all: repeat match goal with
              | |- context [decide ?P] => destruct (decide P)
              end.
  all: first
    [ exists false, (Z.quot x 8 + y * Z.quot (W + 7) 8);
      split; [by left|]; intros st <-; reflexivity
    | exists true, (Z.quot x 8 + y * Z.quot (W + 7) 8);
      split; [by left|]; intros st <-; reflexivity
    | exists false, (Z.quot (y * W + x) 8);
      split; [by right|]; intros st <-; reflexivity
    | exists true, (Z.quot (y * W + x) 8);
      split; [by right|]; intros st <-; reflexivity ].
Qed.

Lemma or_bit_idempotent b m :
  to_uint8 (Z.lor (to_uint8 (Z.lor b m)) m) = to_uint8 (Z.lor b m).
Proof.
  rewrite !to_uint8_land_255. apply Z.bits_inj'. intros n Hn.
  rewrite !Z.land_spec, !Z.lor_spec, !Z.land_spec, !Z.lor_spec.
  destruct (Z.testbit b n), (Z.testbit m n), (Z.testbit 255 n); done.
Qed.

Lemma and_bit_idempotent b m :
  to_uint8 (Z.land (to_uint8 (Z.land b m)) m) = to_uint8 (Z.land b m).
Proof.
  rewrite !to_uint8_land_255. apply Z.bits_inj'. intros n Hn.
  rewrite !Z.land_spec.
  destruct (Z.testbit b n), (Z.testbit m n), (Z.testbit 255 n); done.
Qed.

Lemma modify_twice buf off f buf' :
  (forall b, f (f b) = f b) ->
  modify buf off f = Some buf' -> modify buf' off f = Some buf'.
Proof.
  intros Hf Hm. destruct (modify_Some _ _ _ _ Hm) as (b & Hl & ->).
  pose proof (load_Some _ _ _ Hl) as Hr.
  unfold modify, load, store. rewrite decide_True by lia.
  rewrite list_lookup_insert_eq by lia. cbn.
  rewrite length_insert, decide_True by lia.
  by rewrite Hf, list_insert_insert_eq.
Qed.

Lemma write_raw_twice st x y color st1 :
  write_raw st x y color = Some st1 -> write_raw st1 x y color = Some st1.
Proof.
  destruct (write_raw_shape (WIDTH st) x y color) as (white & idx & _ & Hw).
  rewrite (Hw st eq_refl).
  destruct (if white then _ else _) as [buf1|] eqn:Hop; [|done].
  cbn. intros [= <-]. rewrite (Hw (with_buffer st buf1) eq_refl).
  cbn [sharpmem_buffer with_buffer].
  destruct white; unfold or_byte, and_byte in *.
  - rewrite (modify_twice _ _ _ _ (fun b => or_bit_idempotent b _) Hop).
    done.
  - rewrite (modify_twice _ _ _ _ (fun b => and_bit_idempotent b _) Hop).
    done.
Qed.

(** X12: [drawPixel] is idempotent, for every colour selector, rotation and
    panel size: when a call returns [st1], the same call on [st1] returns
    [st1] again. *)
Theorem drawPixel_idempotent st x y color st1 :
  drawPixel st x y color = Some st1 -> drawPixel st1 x y color = Some st1.
Proof.
  intros Hd. pose proof (drawPixel_frame _ _ _ _ _ Hd) as Hf.
  destruct Hf as (HW & HH & Hw & Hh & Hr & _).
  revert Hd. unfold drawPixel. rewrite Hw, Hh, Hr, HW, HH.
  case_decide; [by intros [= <-]|].
  case_match. apply write_raw_twice.
Qed.

Lemma drawPixel_idempotent_witness :
  exists st1,
    drawPixel (panel 12 4 3 (replicate 8 0xFF) 2) 1 5 6 = Some st1 /\
    drawPixel st1 1 5 6 = Some st1.
Proof.
  destruct (drawPixel (panel 12 4 3 (replicate 8 0xFF) 2) 1 5 6)
    as [st1|] eqn:Hd; [|by vm_compute in Hd].
  exists st1. split; [done|].
  exact (drawPixel_idempotent _ 1 5 6 st1 Hd).
Defined.

(** ** Reading pixels back on byte-aligned panels *)

Lemma land_set_at_testbit b k :
  0 <= k <= 7 -> Z.land b (set_at k) <> 0 <-> Z.testbit b k = true.
Proof.
  intros Hk. split.
  - intros Hne. destruct (Z.testbit b k) eqn:Hb; [done|].
    destruct Hne. apply Z.bits_inj'. intros j Hj.
    rewrite Z.land_spec, set_at_testbit, Z.bits_0 by lia.
    destruct (Z.eqb_spec k j) as [->|]; [by rewrite Hb|].
    apply andb_false_r.
  - intros Hb H0.
    assert (Z.testbit (Z.land b (set_at k)) k = true) as Ht.
    { rewrite Z.land_spec, set_at_testbit, Hb, Z.eqb_refl by lia. done. }
    rewrite H0, Z.bits_0 in Ht. done.
Qed.

(** On a panel whose width is a multiple of 8, the byte and bit that
    [getPixel] reads are those of the pixel's position in the padded
    layout. *)
Lemma read_raw_bit st x y :
  Z.rem (WIDTH st) 8 = 0 ->
  0 <= x < WIDTH st -> 0 <= y < HEIGHT st -> padded_buffer st ->
  read_raw st x y =
    Some (if bit_at (sharpmem_buffer st)
                    (pixel_bit (Z.quot (WIDTH st + 7) 8) x y)
          then 1 else 0).
Proof.
  intros Hal Hx Hy [Hlen _]. unfold read_raw.
  rewrite <- (aligned_index (WIDTH st) x y) by lia.
  set (stride := Z.quot (WIDTH st + 7) 8) in *.
  destruct (pixel_offset_in_range (WIDTH st) (HEIGHT st) stride x y
              eq_refl Hx Hy) as [Hoff Hs].
  destruct (proj2 (byte_of_pixel stride x y (pixel_bit stride x y)
                     ltac:(lia) ltac:(lia) ltac:(lia)) eq_refl) as [Hq Hr].
  unfold bit_at. rewrite Hq, Hr, Z.quot_div_nonneg by lia.
  destruct (load (sharpmem_buffer st) (x / 8 + y * stride)) as [b|] eqn:Hl.
  - cbn. f_equal. rewrite <- land7_mod.
    pose proof (land_set_at_testbit b (Z.land x 7) (land7_range x)) as Hiff.
    destruct (Z.testbit b (Z.land x 7)) eqn:Hb.
    + rewrite decide_True; [done|]. by apply Hiff.
    + rewrite decide_False; [done|]. intros Hne. apply Hiff in Hne. done.
  - unfold load in Hl. rewrite decide_True in Hl by lia.
    apply lookup_ge_None in Hl. lia.
Qed.

Lemma getPixel_bit st x y :
  canvas_ok st -> padded_buffer st -> Z.rem (WIDTH st) 8 = 0 ->
  0 <= x < _width st -> 0 <= y < _height st ->
  getPixel st x y =
    Some (if bit_at (sharpmem_buffer st) (logical_bit st x y) then 1 else 0).
Proof.
  intros Hok Hpad Hal Hx Hy.
  destruct (pixel_at_raw_point st x y Hok Hx Hy) as (Hxr & Hyr & _ & ->).
  by apply read_raw_bit.
Qed.

(** Distinct points of the canvas have distinct bits. *)
Lemma logical_bit_inj st x y x' y' :
  canvas_ok st ->
  0 <= x < _width st -> 0 <= y < _height st ->
  0 <= x' < _width st -> 0 <= y' < _height st ->
  logical_bit st x y = logical_bit st x' y' -> x = x' /\ y = y'.
Proof.
  intros Hok Hx Hy Hx' Hy'.
  destruct (canvas_ok_sizes st Hok) as (HW & HH & Hrot).
  pose proof (stride_covers_width (WIDTH st) ltac:(lia)) as Hs.
  unfold logical_bit, pixel_bit, raw_point.
  set (stride := Z.quot (WIDTH st + 7) 8) in *.
  assert (forall a b a' b', 0 <= a < WIDTH st -> 0 <= a' < WIDTH st ->
            8 * (b * stride) + a = 8 * (b' * stride) + a' ->
            a = a' /\ b = b') as Hinj.
  { intros a b a' b' Ha Ha' He.
    assert (b = b') as -> by nia. lia. }
  destruct Hrot as [(Hr & Hw & Hh)|(Hr & Hw & Hh)];
    destruct Hr as [Hr|Hr]; rewrite Hr; cbn;
    intros He; apply Hinj in He; lia.
Qed.

(** On a panel whose width is a multiple of 8 every selector acts, at each
    raw point, as BLACK or as WHITE; which of the two does not depend on
    the buffer. *)
Lemma write_raw_as_solid W x y color :
  Z.rem W 8 = 0 -> 0 <= W -> 0 <= x -> 0 <= y ->
  exists c, (c = 0 \/ c = 1) /\
    forall st, WIDTH st = W -> write_raw st x y color = write_raw st x y c.
Proof.
  intros Hal HW Hx Hy.
  destruct (write_raw_shape W x y color) as (white & idx & Hidx & Hw).
  assert (idx = Z.quot x 8 + y * Z.quot (W + 7) 8) as ->.
  { destruct Hidx as [->| ->]; [done|]. by rewrite aligned_index. }
  exists (if white then 1 else 0). split; [destruct white; lia|].
  intros st HWst. rewrite (Hw st HWst). subst W.
  by destruct white.
Qed.

(** One [drawPixel] inside the canvas of an aligned panel, in bits. *)
Lemma drawPixel_painted st x y color :
  canvas_ok st -> padded_buffer st -> Z.rem (WIDTH st) 8 = 0 ->
  0 <= x < _width st -> 0 <= y < _height st ->
  exists c buf',
    drawPixel st x y color = Some (with_buffer st buf') /\
    painted (fun g => g = logical_bit st x y) c (sharpmem_buffer st) buf' /\
    forall st2, WIDTH st2 = WIDTH st -> HEIGHT st2 = HEIGHT st ->
      rotation st2 = rotation st -> _width st2 = _width st ->
      _height st2 = _height st -> padded_buffer st2 ->
      exists buf2,
        drawPixel st2 x y color = Some (with_buffer st2 buf2) /\
        painted (fun g => g = logical_bit st x y) c
                (sharpmem_buffer st2) buf2.
Proof.
  intros Hok Hpad Hal Hx Hy.
  destruct (canvas_ok_sizes st Hok) as (HW & HH & _).
  destruct (pixel_at_raw_point st x y Hok Hx Hy) as (Hxr & Hyr & Hd & _).
  set (xr := (raw_point (WIDTH st) (HEIGHT st) (rotation st) x y).1) in *.
  set (yr := (raw_point (WIDTH st) (HEIGHT st) (rotation st) x y).2) in *.
  destruct (write_raw_as_solid (WIDTH st) xr yr color Hal
              ltac:(lia) ltac:(lia) ltac:(lia)) as (c & Hc & Hsolid).
  exists (bool_decide (c = 1)).
  assert (forall st2, WIDTH st2 = WIDTH st -> HEIGHT st2 = HEIGHT st ->
      rotation st2 = rotation st -> _width st2 = _width st ->
      _height st2 = _height st -> padded_buffer st2 ->
      exists buf2,
        drawPixel st2 x y color = Some (with_buffer st2 buf2) /\
        painted (fun g => g = logical_bit st x y) (bool_decide (c = 1))
                (sharpmem_buffer st2) buf2) as Hall.
  { intros st2 HW2 HH2 Hr2 Hw2 Hh2 Hpad2.
    assert (canvas_ok st2) as Hok2.
    { unfold canvas_ok in *. rewrite HW2, HH2, Hr2, Hw2, Hh2. done. }
    destruct (pixel_at_raw_point st2 x y Hok2 ltac:(lia) ltac:(lia))
      as (_ & _ & Hd2 & _).
    rewrite Hd2, HW2, HH2, Hr2. fold xr yr.
    rewrite (Hsolid st2 HW2).
    destruct (write_raw_painted st2 xr yr c Hc ltac:(lia) ltac:(lia) Hpad2)
      as (buf2 & Hwr & Hp).
    exists buf2. split; [done|]. unfold logical_bit. fold xr yr.
    by rewrite <- HW2. }
  destruct (Hall st eq_refl eq_refl eq_refl eq_refl eq_refl Hpad)
    as (buf' & Hdr & Hp).
  exists buf'. done.
Qed.

(** X13: on a panel whose width is a multiple of 8, [drawPixel] inside the
    canvas, with any colour selector and in any rotation, returns and
    changes what [getPixel] reads at no other point of the canvas. *)
Theorem drawPixel_leaves_other_pixels st x y color :
  canvas_ok st -> padded_buffer st -> Z.rem (WIDTH st) 8 = 0 ->
  0 <= x < _width st -> 0 <= y < _height st ->
  exists st',
    drawPixel st x y color = Some st' /\
    forall x' y', 0 <= x' < _width st -> 0 <= y' < _height st ->
      (x', y') <> (x, y) ->
      getPixel st' x' y' = getPixel st x' y'.
Proof.
  intros Hok Hpad Hal Hx Hy.
  destruct (drawPixel_painted st x y color Hok Hpad Hal Hx Hy)
    as (c & buf' & Hd & Hp & _).
  exists (with_buffer st buf'). split; [done|].
  intros x' y' Hx' Hy' Hne.
  rewrite !getPixel_bit; try done.
  - cbn [sharpmem_buffer with_buffer].
    change (logical_bit (with_buffer st buf') x' y')
      with (logical_bit st x' y').
    destruct Hp as (Hlen & _ & Hbits).
    destruct Hpad as [Hlen0 _].
    destruct (canvas_ok_sizes st Hok) as (HW & HH & _).
    destruct (pixel_at_raw_point st x' y' Hok Hx' Hy') as (Hxr & Hyr & _).
    assert (0 <= logical_bit st x' y'
            < 8 * Z.of_nat (length (sharpmem_buffer st))) as Hg.
    { unfold logical_bit, pixel_bit.
      pose proof (stride_covers_width (WIDTH st) ltac:(lia)).
      nia. }
    destruct (Hbits _ Hg) as [[He _]|[_ ->]]; [|done].
    apply logical_bit_inj in He; try done. destruct Hne.
    destruct He as [-> ->]. done.
  - eapply padded_buffer_painted; done.
Qed.

Lemma drawPixel_leaves_other_pixels_witness :
  exists st',
    drawPixel (panel 16 4 1 (replicate 8 0xA5) 2) 2 9 5 = Some st' /\
    forall x' y', 0 <= x' < 4 -> 0 <= y' < 16 -> (x', y') <> (2, 9) ->
      getPixel st' x' y' = getPixel (panel 16 4 1 (replicate 8 0xA5) 2) x' y'.
Proof.
  apply (drawPixel_leaves_other_pixels
           (panel 16 4 1 (replicate 8 0xA5) 2) 2 9 5); try panel_facts.
  by repeat constructor.
Defined.

(** X14: what a dithered pixel reads back as is keyed by position, not by
    history.  On panels whose width is a multiple of 8, for any selector
    and rotation, [drawPixel] followed by [getPixel] at the same canvas
    point gives the same value, 0 or 1, whatever the two buffers held
    before. *)
Theorem dithered_pixel_is_position_keyed st1 st2 x y color :
  canvas_ok st1 -> Z.rem (WIDTH st1) 8 = 0 ->
  WIDTH st2 = WIDTH st1 -> HEIGHT st2 = HEIGHT st1 ->
  rotation st2 = rotation st1 ->
  _width st2 = _width st1 -> _height st2 = _height st1 ->
  padded_buffer st1 -> padded_buffer st2 ->
  0 <= x < _width st1 -> 0 <= y < _height st1 ->
  exists v st1' st2',
    (v = 0 \/ v = 1) /\
    drawPixel st1 x y color = Some st1' /\ getPixel st1' x y = Some v /\
    drawPixel st2 x y color = Some st2' /\ getPixel st2' x y = Some v.
Proof.
  intros Hok Hal HW HH Hr Hw Hh Hpad1 Hpad2 Hx Hy.
  destruct (drawPixel_painted st1 x y color Hok Hpad1 Hal Hx Hy)
    as (c & buf1 & Hd1 & Hp1 & Hother).
  destruct (Hother st2 HW HH Hr Hw Hh Hpad2) as (buf2 & Hd2 & Hp2).
  assert (canvas_ok st2) as Hok2.
  { unfold canvas_ok in *. rewrite HW, HH, Hr, Hw, Hh. done. }
  destruct (canvas_ok_sizes st1 Hok) as (HW1 & HH1 & _).
  destruct (pixel_at_raw_point st1 x y Hok Hx Hy) as (Hxr & Hyr & _).
  assert (forall st buf', WIDTH st = WIDTH st1 -> HEIGHT st = HEIGHT st1 ->
            rotation st = rotation st1 -> _width st = _width st1 ->
            _height st = _height st1 -> canvas_ok st -> padded_buffer st ->
            painted (fun g => g = logical_bit st1 x y) c
                    (sharpmem_buffer st) buf' ->
            getPixel (with_buffer st buf') x y
            = Some (if c then 1 else 0)) as Hread.
  { intros st buf' HWs HHs Hrs Hws Hhs Hoks Hpads Hp.
    rewrite getPixel_bit.
    - cbn [sharpmem_buffer with_buffer].
      change (logical_bit (with_buffer st buf') x y)
        with (logical_bit st x y).
      assert (logical_bit st x y = logical_bit st1 x y) as ->.
      { unfold logical_bit. by rewrite HWs, HHs, Hrs. }
      destruct Hp as (Hlen & _ & Hbits). destruct Hpads as [Hlen0 _].
      assert (0 <= logical_bit st1 x y
              < 8 * Z.of_nat (length (sharpmem_buffer st))) as Hg.
      { unfold logical_bit, pixel_bit.
        pose proof (stride_covers_width (WIDTH st1) ltac:(lia)).
        rewrite HWs, HHs in Hlen0. nia. }
      destruct (Hbits _ Hg) as [[_ ->]|[Hn _]]; [done|by destruct Hn].
    - by apply canvas_ok_with_buffer.
    - eapply padded_buffer_painted; done.
    - cbn. by rewrite HWs.
    - cbn. lia.
    - cbn. lia. }
  exists (if c then 1 else 0), (with_buffer st1 buf1), (with_buffer st2 buf2).
  split; [destruct c; lia|].
  split; [done|]. split; [by apply Hread|].
  split; [done|]. by apply Hread.
Qed.

Lemma dithered_pixel_is_position_keyed_witness :
  exists v st1' st2',
    (v = 0 \/ v = 1) /\
    drawPixel (panel 16 4 3 (replicate 8 0) 2) 1 6 4 = Some st1' /\
    getPixel st1' 1 6 = Some v /\
    drawPixel (panel 16 4 3 (replicate 8 0xFF) 0) 1 6 4 = Some st2' /\
    getPixel st2' 1 6 = Some v.
Proof.
  apply (dithered_pixel_is_position_keyed
           (panel 16 4 3 (replicate 8 0) 2)
           (panel 16 4 3 (replicate 8 0xFF) 0) 1 6 4); try panel_facts.
  - by repeat constructor.
  - by repeat constructor.
Defined.

(** ** Reading a cleared buffer *)

Lemma getPixel_white st :
  canvas_ok st -> Z.rem (WIDTH st * HEIGHT st) 8 = 0 ->
  sharpmem_buffer st = replicate (Z.to_nat (buffer_bytes st)) 0xFF ->
  forall x y, 0 <= x < _width st -> 0 <= y < _height st ->
    getPixel st x y = Some 1.
Proof.
  intros Hok Hrem Hbuf x y Hx Hy.
  destruct (canvas_ok_sizes st Hok) as (HW & HH & _).
  destruct (pixel_at_raw_point st x y Hok Hx Hy) as (Hxr & Hyr & _ & ->).
  set (xr := (raw_point (WIDTH st) (HEIGHT st) (rotation st) x y).1) in *.
  set (yr := (raw_point (WIDTH st) (HEIGHT st) (rotation st) x y).2) in *.
  unfold read_raw. rewrite Hbuf. unfold buffer_bytes.
  pose proof (Z.quot_rem' (WIDTH st * HEIGHT st) 8) as Hq.
  pose proof (Z.quot_rem' (yr * WIDTH st + xr) 8) as Hq'.
  pose proof (Z.rem_bound_pos (yr * WIDTH st + xr) 8 ltac:(nia) ltac:(lia)).
  assert (0 <= Z.quot (yr * WIDTH st + xr) 8
          < Z.quot (WIDTH st * HEIGHT st) 8) as Hidx by nia.
  rewrite load_lookup by lia.
  rewrite lookup_replicate_2 by lia. cbn.
  rewrite decide_True; [done|].
  apply land_set_at_testbit; [apply land7_range|].
  pose proof (land7_range xr) as Hk.
  assert (Z.land xr 7 = 0 \/ Z.land xr 7 = 1 \/ Z.land xr 7 = 2 \/
          Z.land xr 7 = 3 \/ Z.land xr 7 = 4 \/ Z.land xr 7 = 5 \/
          Z.land xr 7 = 6 \/ Z.land xr 7 = 7) as Hcases by lia.
  destruct_or!; rewrite Hcases; done.
Qed.

(** X15: where [WIDTH * HEIGHT] is a multiple of 8, after
    [clearDisplayBuffer], and likewise after [clearDisplay], [getPixel]
    reads 1 (white) at every point of the canvas, in every rotation. *)
Theorem cleared_canvas_reads_white SHARPMEM_BIT_VCOM SHARPMEM_BIT_CLEAR st :
  canvas_ok st -> allocated st -> Z.rem (WIDTH st * HEIGHT st) 8 = 0 ->
  (exists st', clearDisplayBuffer st = Some st' /\
     forall x y, 0 <= x < _width st -> 0 <= y < _height st ->
       getPixel st' x y = Some 1) /\
  (exists st', clearDisplay SHARPMEM_BIT_VCOM SHARPMEM_BIT_CLEAR st = Some st' /\
     forall x y, 0 <= x < _width st -> 0 <= y < _height st ->
       getPixel st' x y = Some 1).
Proof.
  intros Hok Ha Hrem.
  destruct (canvas_ok_sizes st Hok) as (HW & HH & _).
  assert (is_int16 (WIDTH st) /\ is_int16 (HEIGHT st)) as [Hw Hh]
    by (unfold is_int16; lia).
  assert (length (sharpmem_buffer st) = Z.to_nat (buffer_bytes st)) as Hlen
    by (unfold allocated in Ha; lia).
  split.
  - unfold clearDisplayBuffer.
    rewrite buffer_bytes_size_t by done. rewrite memset_all.
    cbn [mbind option_bind]. eexists. split; [done|].
    intros x y Hx Hy.
    apply getPixel_white; [by apply canvas_ok_with_buffer|done| |done|done].
    cbn [sharpmem_buffer with_buffer].
    change (buffer_bytes (with_buffer st _)) with (buffer_bytes st).
    by rewrite Hlen.
  - unfold clearDisplay.
    rewrite buffer_bytes_size_t by done. rewrite memset_all.
    cbn [mbind option_bind]. eexists. split; [done|].
    intros x y Hx Hy.
    apply getPixel_white; [exact Hok|exact Hrem| |done|done].
    cbn. unfold buffer_bytes. cbn. unfold buffer_bytes in Hlen.
    by rewrite Hlen.
Qed.

Lemma cleared_canvas_reads_white_witness :
  (exists st', clearDisplayBuffer (panel 12 4 1 [1; 2; 3; 4; 5; 6] 2)
               = Some st' /\
     forall x y, 0 <= x < 4 -> 0 <= y < 12 -> getPixel st' x y = Some 1) /\
  (exists st', clearDisplay 2 4 (panel 12 4 1 [1; 2; 3; 4; 5; 6] 2)
               = Some st' /\
     forall x y, 0 <= x < 4 -> 0 <= y < 12 -> getPixel st' x y = Some 1).
Proof.
  apply (cleared_canvas_reads_white 2 4 (panel 12 4 1 [1; 2; 3; 4; 5; 6] 2));
    panel_facts.
Defined.

(** ** Bits that take a pattern *)

Lemma painted_stamped S c buf buf' :
  painted S c buf buf' <-> stamped S (fun _ => c) buf buf'.
Proof. done. Qed.

Lemma stamped_unique S v buf b1 b2 :
  stamped S v buf b1 -> stamped S v buf b2 -> b1 = b2.
Proof.
  intros (Hl1 & Hb1 & H1) (Hl2 & Hb2 & H2).
  apply buffers_eq_by_bits; [congruence | done | done |].
  intros g Hg. rewrite Hl1 in Hg.
  destruct (H1 g Hg) as [[? ->]|[? ->]], (H2 g Hg) as [[? ->]|[? ->]];
    done.
Qed.

Lemma stamped_iff S S' v v' buf buf' :
  (forall g, 0 <= g < 8 * Z.of_nat (length buf) -> S g <-> S' g) ->
  (forall g, 0 <= g < 8 * Z.of_nat (length buf) -> S g -> v g = v' g) ->
  stamped S v buf buf' -> stamped S' v' buf buf'.
Proof.
  intros Hiff Hv (Hl & Hb & H). split; [done|]. split; [done|].
  intros g Hg. specialize (Hiff g Hg). specialize (Hv g Hg).
  destruct (H g Hg) as [[HS He]|[? ?]]; [left | right]; [|tauto].
  split; [tauto|]. rewrite He. by apply Hv.
Qed.

Lemma stamped_none v buf :
  Forall is_uint8 buf -> stamped (fun _ => False) v buf buf.
Proof. intros Hb. split; [done|]. split; [done|]. intros g Hg. right. tauto. Qed.

Lemma stamped_seq S1 S2 v buf b1 b2 :
  stamped S1 v buf b1 -> stamped S2 v b1 b2 ->
  stamped (fun g => S1 g \/ S2 g) v buf b2.
Proof.
  intros (Hl1 & Hb1 & H1) (Hl2 & Hb2 & H2).
  split; [congruence|]. split; [done|].
  intros g Hg. rewrite <- Hl1 in Hg.
  destruct (H2 g Hg) as [[? ->]|[? ->]]; [left; tauto|].
  rewrite Hl1 in Hg.
  destruct (H1 g Hg) as [[? ->]|[? ->]]; [left; tauto | right; tauto].
Qed.

Lemma modify_stamped (M : Z -> Prop) (p : Z -> bool) f buf off buf' :
  Forall is_uint8 buf ->
  (forall b, is_uint8 (f b)) ->
  (forall b k, 0 <= k < 8 ->
     (M k /\ Z.testbit (f b) k = p k) \/
     (~ M k /\ Z.testbit (f b) k = Z.testbit b k)) ->
  modify buf off f = Some buf' ->
  stamped (fun g => g / 8 = off /\ M (g mod 8)) (fun g => p (g mod 8))
          buf buf'.
Proof.
  intros Hb Hf Hbits Hm.
  destruct (modify_Some _ _ _ _ Hm) as (b & Hl & ->).
  pose proof (load_Some _ _ _ Hl) as Hoff.
  split; [apply length_insert|]. split.
  { apply Forall_insert; [done | apply Hf]. }
  intros g Hg. unfold bit_at.
  rewrite (load_modify _ _ _ _ (g / 8) Hm).
  pose proof (Z.mod_pos_bound g 8 ltac:(lia)) as Hk.
  destruct (decide (g / 8 = off)) as [Heq|Hne].
  - rewrite Heq, Hl. cbn.
    destruct (Hbits b (g mod 8) Hk) as [[? ?]|[? ?]]; [left | right]; tauto.
  - right. split; [tauto | done].
Qed.

Lemma modify_compose buf off f g :
  (buf1 ← modify buf off f; modify buf1 off g)
  = modify buf off (fun b => g (f b)).
Proof.
  destruct (modify buf off f) as [buf1|] eqn:Hm; cbn.
  - destruct (modify_Some _ _ _ _ Hm) as (b & Hl & ->).
    pose proof (load_Some _ _ _ Hl) as Hr.
    unfold modify. rewrite Hl. cbn.
    unfold load, store in *. rewrite decide_True in Hl |- * by lia.
    rewrite list_lookup_insert_eq by lia. cbn.
    rewrite length_insert, !decide_True by lia.
    by rewrite list_insert_insert_eq.
  - unfold modify in *. destruct (load buf off) as [b|] eqn:Hl; [|done].
    cbn in *. unfold store in *. apply load_Some in Hl.
    by rewrite decide_True in Hm by lia.
Qed.

(** The two statements of [blend] leave, under the mask, the pattern. *)
Lemma blend_bits mask pattern b k :
  0 <= k < 8 ->
  Z.testbit (to_uint8 (Z.lor (to_uint8 (Z.land b (Z.lnot (Z.land mask
               (Z.lnot pattern))))) (Z.land mask pattern))) k
  = if Z.testbit mask k then Z.testbit pattern k else Z.testbit b k.
Proof.
  intros Hk.
  rewrite to_uint8_testbit, Z.lor_spec, to_uint8_testbit by lia.
  rewrite !Z.land_spec, Z.lnot_spec, Z.land_spec, Z.lnot_spec by lia.
  destruct (Z.testbit mask k), (Z.testbit pattern k), (Z.testbit b k); done.
Qed.

Lemma blend_stamped buf ptr mask pattern (v : Z -> bool) :
  Forall is_uint8 buf -> 0 <= ptr < Z.of_nat (length buf) ->
  (forall k, 0 <= k < 8 -> Z.testbit pattern k = v k) ->
  exists buf',
    blend buf ptr mask pattern = Some buf' /\
    stamped (fun g => g / 8 = ptr /\ Z.testbit mask (g mod 8) = true)
            (fun g => v (g mod 8)) buf buf'.
Proof.
  intros Hb Hp Hv. unfold blend, and_byte, or_byte.
  rewrite modify_compose.
  destruct (modify_in_range buf ptr
    (fun b => to_uint8 (Z.lor (to_uint8 (Z.land b (Z.lnot (Z.land mask
               (Z.lnot pattern))))) (Z.land mask pattern)))) as [buf' Hm];
    [done|].
  rewrite Hm. exists buf'. split; [done|].
  apply (fun Hf Hbits =>
           modify_stamped (fun k => Z.testbit mask k = true) v
                          _ _ _ _ Hb Hf Hbits Hm).
  - intros. apply to_uint8_is_uint8.
  - intros b k Hk. rewrite blend_bits by done. rewrite <- Hv by done.
    destruct (Z.testbit mask k); [left | right]; done.
Qed.

Lemma or_stamped buf ptr mask (v : Z -> bool) :
  Forall is_uint8 buf -> 0 <= ptr < Z.of_nat (length buf) ->
  (forall k, 0 <= k < 8 -> v k = true) ->
  exists buf',
    or_byte buf ptr mask = Some buf' /\
    stamped (fun g => g / 8 = ptr /\ Z.testbit mask (g mod 8) = true)
            (fun g => v (g mod 8)) buf buf'.
Proof.
  intros Hb Hp Hv.
  destruct (modify_in_range buf ptr (fun b => to_uint8 (Z.lor b mask)))
    as [buf' Hm]; [done|].
  unfold or_byte. rewrite Hm. exists buf'. split; [done|].
  apply (fun Hf Hbits =>
           modify_stamped (fun k => Z.testbit mask k = true) v
                          _ _ _ _ Hb Hf Hbits Hm).
  - intros. apply to_uint8_is_uint8.
  - intros b k Hk. rewrite Hv by done. apply or_mask_bits, Hk.
Qed.

Lemma and_not_stamped buf ptr mask (v : Z -> bool) :
  Forall is_uint8 buf -> 0 <= ptr < Z.of_nat (length buf) ->
  (forall k, 0 <= k < 8 -> v k = false) ->
  exists buf',
    and_byte buf ptr (Z.lnot mask) = Some buf' /\
    stamped (fun g => g / 8 = ptr /\ Z.testbit mask (g mod 8) = true)
            (fun g => v (g mod 8)) buf buf'.
Proof.
  intros Hb Hp Hv.
  destruct (modify_in_range buf ptr
              (fun b => to_uint8 (Z.land b (Z.lnot mask)))) as [buf' Hm];
    [done|].
  unfold and_byte. rewrite Hm. exists buf'. split; [done|].
  apply (fun Hf Hbits =>
           modify_stamped (fun k => Z.testbit mask k = true) v
                          _ _ _ _ Hb Hf Hbits Hm).
  - intros. apply to_uint8_is_uint8.
  - intros b k Hk. rewrite Hv by done. apply and_not_mask_bits, Hk.
Qed.

Lemma rem4_cases y :
  0 <= y -> Z.rem y 4 = 0 \/ Z.rem y 4 = 1 \/ Z.rem y 4 = 2 \/ Z.rem y 4 = 3.
Proof. intros Hy. pose proof (Z.rem_bound_pos y 4 Hy). lia. Qed.

Lemma low_bits_255 k : 0 <= k < 8 -> Z.testbit 255 k = true.
Proof. intros Hk. change 255 with (Z.ones 8). apply Z.ones_spec_low. lia. Qed.

(** On a row [y >= 0] and for the selectors 0..7, a partly covered byte
    takes under its mask the bits of the byte that [memset] writes on that
    row. *)
Lemma fill_partial_stamped buf ptr mask y color :
  0 <= color <= 7 -> 0 <= y ->
  Forall is_uint8 buf -> 0 <= ptr < Z.of_nat (length buf) ->
  exists buf',
    fill_partial buf ptr mask y color = Some buf' /\
    stamped (fun g => g / 8 = ptr /\ Z.testbit mask (g mod 8) = true)
            (run_bit y color) buf buf'.
Proof.
  intros Hc Hy Hb Hp. unfold run_bit.
  assert (color = 0 \/ color = 1 \/ color = 2 \/ color = 3 \/ color = 4 \/
          color = 5 \/ color = 6 \/ color = 7) as Hcases by lia.
  destruct (rem4_cases y Hy) as [H4|[H4|[H4|H4]]];
    destruct_or!; subst color;
    unfold fill_partial, whole_byte_color, pattern7, pattern6, pattern5;
    rewrite ?H4; cbn [decide]; 
    repeat match goal with
           | |- context [decide ?P] => destruct (decide P); try lia
           end;
    first [ apply blend_stamped; [done | done | done]
          | apply or_stamped; [done | done | apply low_bits_255]
          | apply and_not_stamped;
            [done | done | intros; apply Z.bits_0] ].
Qed.

Lemma memset_stamped buf off n pattern :
  Forall is_uint8 buf -> 0 <= off -> 0 <= n ->
  off + n <= Z.of_nat (length buf) ->
  exists buf',
    memset buf off pattern n = Some buf' /\
    stamped (fun g => 8 * off <= g < 8 * (off + n))
            (fun g => Z.testbit pattern (g mod 8)) buf buf'.
Proof.
  intros Hb Hoff Hn Hlen. destruct (decide (n = 0)) as [->|Hn0].
  - exists buf. split; [done|].
    eapply stamped_iff; [| |by apply stamped_none].
    + intros g _. cbn beta. lia.
    + done.
  - destruct (memset buf off pattern n) as [buf'|] eqn:Hm.
    2:{ unfold memset in Hm. rewrite decide_False in Hm by lia.
        by rewrite decide_True in Hm by lia. }
    exists buf'. split; [done|].
    pose proof (fun j => memset_load buf off _ n buf' j ltac:(lia) Hm) as Hl.
    split; [apply (Hl 0)|]. split.
    + apply Forall_lookup_2. intros i b Hi.
      specialize (Hl (Z.of_nat i)). destruct Hl as [_ Hl].
      rewrite !load_lookup, Nat2Z.id, Hi in Hl by lia.
      case_decide.
      * injection Hl as ->. apply to_uint8_is_uint8.
      * eapply Forall_lookup_1; [exact Hb | done].
    + intros g Hg. unfold bit_at. destruct (Hl (g / 8)) as [_ ->].
      pose proof (Z.mod_pos_bound g 8 ltac:(lia)) as Hk.
      pose proof (Z.div_mod g 8 ltac:(lia)).
      case_decide as Hin.
      * left. split; [lia|]. apply to_uint8_testbit. lia.
      * right. split; [lia | done].
Qed.

(** The rest of a run, from a byte boundary on, gives the next [remaining]
    bits the row's pattern. *)
Lemma fill_rest_stamped buf ptr remaining y color :
  0 <= color <= 7 -> 0 <= y ->
  Forall is_uint8 buf -> 0 <= ptr -> 0 <= remaining ->
  8 * ptr + remaining <= 8 * Z.of_nat (length buf) ->
  exists buf',
    fill_rest buf ptr remaining y color = Some buf' /\
    stamped (fun g => 8 * ptr <= g < 8 * ptr + remaining)
            (run_bit y color) buf buf'.
Proof.
  intros Hc Hy Hb Hp Hr Hlen. unfold fill_rest.
  destruct (decide (remaining > 0)) as [Hpos|Hpos].
  2:{ exists buf. split; [done|].
      eapply stamped_iff; [| |by apply stamped_none]; [|done].
      intros g _. cbn beta. lia. }
  cbv zeta.
  rewrite Z.quot_div_nonneg, Z.rem_mod_nonneg by lia.
  pose proof (Z.div_mod remaining 8 ltac:(lia)) as Hdm.
  pose proof (Z.mod_pos_bound remaining 8 ltac:(lia)) as Hlast.
  assert (0 <= remaining / 8) as Hwhole by (apply Z.div_pos; lia).
  destruct (memset_stamped buf ptr (remaining / 8) (whole_byte_color y color)
              Hb Hp Hwhole ltac:(lia)) as (buf1 & -> & Hp1).
  fold (run_bit y color) in Hp1.
  cbn [mbind option_bind].
  destruct (decide (remaining mod 8 > 0)) as [Hl|Hl].
  - destruct Hp1 as (Hl1 & Hb1 & Hg1).
    destruct (fill_partial_stamped buf1 (ptr + remaining / 8)
                (last_mask_loop 8 0 (remaining mod 8) 0) y color Hc Hy Hb1
                ltac:(lia)) as (buf' & -> & Hp2).
    exists buf'. split; [done|].
    eapply stamped_iff;
      [| |exact (stamped_seq _ _ _ _ _ _ (conj Hl1 (conj Hb1 Hg1)) Hp2)];
      [|done].
    intros g Hg. cbn beta.
    destruct (last_mask_loop_spec 8 0 (remaining mod 8) 0)
      as [_ Hbits]; [lia | lia | lia | by unfold is_uint8 |].
    pose proof (Z.div_mod g 8 ltac:(lia)) as Hgdm.
    pose proof (Z.mod_pos_bound g 8 ltac:(lia)) as Hgk.
    rewrite (Hbits (g mod 8) Hgk), Z.bits_0. cbn.
    destruct (Z.leb_spec 0 (g mod 8)), (Z.ltb_spec (g mod 8) (remaining mod 8));
      cbn; split; intros; try lia; destruct_or?; destruct_and?; try lia;
      try done.
  - exists buf1. split; [done|].
    eapply stamped_iff; [| |exact Hp1]; [|done].
    intros g Hg. cbn beta. lia.
Qed.

(** A raw horizontal run inside a row, in bits: a run of a selector 0..7
    gives each of its pixels the bit of the row's pattern byte at the
    pixel's place in its byte, and keeps every other bit. *)
Lemma raw_hline_stamped st x y n color :
  0 <= color <= 7 ->
  0 < WIDTH st <= 32767 -> 0 <= x < WIDTH st -> 0 <= n ->
  x + n <= WIDTH st -> 0 <= y < HEIGHT st -> padded_buffer st ->
  exists buf',
    drawFastRawHLine st x y n color = Some (with_buffer st buf') /\
    stamped (fun g => pixel_bit (Z.quot (WIDTH st + 7) 8) x y <= g
                      < pixel_bit (Z.quot (WIDTH st + 7) 8) x y + n)
            (run_bit y color) (sharpmem_buffer st) buf'.
Proof.
  intros Hc HW Hx Hn Hxn Hy [Hlen Hbytes].
  set (stride := Z.quot (WIDTH st + 7) 8) in *.
  destruct (pixel_offset_in_range (WIDTH st) (HEIGHT st) stride x y
              eq_refl Hx Hy) as [Hoff Hpos].
  pose proof (stride_covers_width (WIDTH st) ltac:(lia)) as Hcov.
  fold stride in Hcov.
  assert (to_int16 (Z.quot (WIDTH st + 7) 8) = stride) as Hstride.
  { apply to_int16_id. unfold is_int16. subst stride.
    pose proof (Z.quot_rem' (WIDTH st + 7) 8).
    pose proof (Z.rem_bound_pos (WIDTH st + 7) 8). lia. }
  pose proof (Z.div_mod x 8 ltac:(lia)) as Hxdm.
  pose proof (Z.mod_pos_bound x 8 ltac:(lia)) as Hk.
  assert (pixel_bit stride x y = 8 * (x / 8 + y * stride) + x mod 8) as HG
    by (unfold pixel_bit; lia).
  assert (8 * (y * stride) + 8 * stride
          <= 8 * Z.of_nat (length (sharpmem_buffer st))) as Hrow by nia.
  unfold drawFastRawHLine. rewrite Hstride, land7_mod.
  rewrite to_size_t_id by lia. rewrite Z.quot_div_nonneg by lia.
  set (ptr := x / 8 + y * stride) in *.
  destruct (decide (x mod 8 > 0)) as [Hfirst|Hfirst].
  - destruct (start_mask_loop_spec 8 (x mod 8) 0 n)
      as (Hrem & Hmask & Hbits); [lia | lia | lia | by unfold is_uint8 |].
    destruct (start_mask_loop 8 (x mod 8) 0 n) as [mask rem].
    cbn [fst snd] in Hrem, Hmask, Hbits.
    destruct (fill_partial_stamped (sharpmem_buffer st) ptr mask y color
                Hc ltac:(lia) Hbytes ltac:(lia)) as (buf1 & -> & Hp1).
    cbn [mbind option_bind].
    destruct Hp1 as (Hl1 & Hb1 & Hg1).
    destruct (fill_rest_stamped buf1 (ptr + 1) rem y color Hc ltac:(lia) Hb1
                ltac:(lia) ltac:(lia) ltac:(lia)) as (buf' & -> & Hp2).
    exists buf'. split; [done|].
    eapply stamped_iff;
      [| |exact (stamped_seq _ _ _ _ _ _ (conj Hl1 (conj Hb1 Hg1)) Hp2)];
      [|done].
    intros g Hg. cbn beta. rewrite HG.
    pose proof (Z.div_mod g 8 ltac:(lia)) as Hgdm.
    pose proof (Z.mod_pos_bound g 8 ltac:(lia)) as Hgk.
    rewrite (Hbits (g mod 8) Hgk), Z.bits_0. cbn.
    destruct (Z.leb_spec (x mod 8) (g mod 8)),
      (Z.ltb_spec (g mod 8) (x mod 8 + Z.min (8 - x mod 8) n));
      cbn; split; intros; destruct_or?; destruct_and?; try lia; try done.
  - destruct (fill_rest_stamped (sharpmem_buffer st) ptr n y color Hc
                ltac:(lia) Hbytes ltac:(lia) ltac:(lia) ltac:(lia))
      as (buf' & Hrest & Hp2).
    cbn [mbind option_bind]. rewrite Hrest. exists buf'. split; [done|].
    eapply stamped_iff; [| |exact Hp2]; [|done].
    intros g Hg. cbn beta. rewrite HG. lia.
Qed.

Lemma pixel_bit_mod stride x y : pixel_bit stride x y mod 8 = x mod 8.
Proof.
  unfold pixel_bit. rewrite Z.add_comm, Z.mul_comm. apply Z.mod_add. lia.
Qed.

Lemma stamped_again S v buf buf' : stamped S v buf buf' -> stamped S v buf' buf'.
Proof.
  intros (Hl & Hb & H). split; [done|]. split; [done|].
  intros g Hg. rewrite Hl in Hg.
  destruct (H g Hg) as [[? ?]|[? ?]]; [left | right]; tauto.
Qed.

Lemma padded_buffer_stamped st S v buf' :
  padded_buffer st -> stamped S v (sharpmem_buffer st) buf' ->
  padded_buffer (with_buffer st buf').
Proof.
  intros [Hlen Hb] (Hl & Hb' & _). split; [|done].
  cbn. by rewrite Hl.
Qed.

(** ** Dithered raw runs *)

(** X16: what a raw horizontal run writes, for each selector 0..7.  On a
    buffer of [HEIGHT] padded rows, a run of [n] pixels from [(x, y)] that
    stays inside its row returns; afterwards the pixel in column [i] of the
    run holds bit [i mod 8] of the byte [whole_byte_color y color], the one
    byte that the code hands to [memset] for that row (first and last byte
    of the run included), and every other bit of the buffer is as before. *)
Theorem raw_run_takes_row_pattern st x y n color :
  0 <= color <= 7 ->
  0 < WIDTH st <= 32767 -> 0 <= x < WIDTH st -> 0 <= n ->
  x + n <= WIDTH st -> 0 <= y < HEIGHT st -> padded_buffer st ->
  let stride := Z.quot (WIDTH st + 7) 8 in
  exists st',
    drawFastRawHLine st x y n color = Some st' /\
    only_buffer_changed st st' /\
    length (sharpmem_buffer st') = length (sharpmem_buffer st) /\
    (forall i, x <= i < x + n ->
       bit_at (sharpmem_buffer st') (pixel_bit stride i y)
       = Z.testbit (whole_byte_color y color) (i mod 8)) /\
    (forall g, ~ (pixel_bit stride x y <= g < pixel_bit stride x y + n) ->
       bit_at (sharpmem_buffer st') g = bit_at (sharpmem_buffer st) g).
Proof.
  intros Hc HW Hx Hn Hxn Hy Hpad stride.
  destruct (raw_hline_stamped st x y n color Hc HW Hx Hn Hxn Hy Hpad)
    as (buf' & Hrun & Hl & Hb & Hbits).
  fold stride in Hbits.
  exists (with_buffer st buf'). split; [done|].
  split; [by apply (drawFastRawHLine_frame _ _ _ _ _ _ Hrun)|].
  split; [done|].
  destruct Hpad as [Hlen _]. fold stride in Hlen.
  pose proof (stride_covers_width (WIDTH st) ltac:(lia)) as Hcov.
  fold stride in Hcov.
  cbn [sharpmem_buffer with_buffer]. split.
  - intros i Hi.
    assert (0 <= pixel_bit stride i y
            < 8 * Z.of_nat (length (sharpmem_buffer st))) as Hg
      by (unfold pixel_bit; nia).
    destruct (Hbits _ Hg) as [[_ ->]|[Hout _]].
    + unfold run_bit. by rewrite pixel_bit_mod.
    + destruct Hout. unfold pixel_bit. lia.
  - intros g Hout.
    destruct (decide (0 <= g < 8 * Z.of_nat (length (sharpmem_buffer st))))
      as [Hg|Hg].
    + destruct (Hbits _ Hg) as [[Hin _]|[_ ->]]; [by destruct Hout | done].
    + unfold bit_at.
      assert (load buf' (g / 8) = None /\
              load (sharpmem_buffer st) (g / 8) = None) as [-> ->]; [|done].
      unfold load. destruct (decide (0 <= g / 8)) as [Hq|Hq]; [|done].
      assert (Z.of_nat (length (sharpmem_buffer st)) <= g / 8) as Hbig.
      { pose proof (Z.div_mod g 8 ltac:(lia)).
        pose proof (Z.mod_pos_bound g 8 ltac:(lia)). lia. }
      split; apply lookup_ge_None; lia.
Qed.

Lemma raw_run_takes_row_pattern_witness :
  exists st',
    drawFastRawHLine (panel 24 2 0 (replicate 6 0) 2) 3 1 13 5 = Some st' /\
    only_buffer_changed (panel 24 2 0 (replicate 6 0) 2) st' /\
    length (sharpmem_buffer st') = 6%nat /\
    (forall i, 3 <= i < 3 + 13 ->
       bit_at (sharpmem_buffer st') (pixel_bit 3 i 1)
       = Z.testbit 0x55 (i mod 8)) /\
    (forall g, ~ (pixel_bit 3 3 1 <= g < pixel_bit 3 3 1 + 13) ->
       bit_at (sharpmem_buffer st') g = bit_at (replicate 6 0) g).
Proof.
  apply (raw_run_takes_row_pattern (panel 24 2 0 (replicate 6 0) 2) 3 1 13 5);
    try panel_facts.
  by repeat constructor.
Defined.

(** X17: dithered runs join without a seam and can be redrawn.  For a
    selector 0..7, drawing [n] pixels from [(x, y)] and then [m] more from
    [(x + n, y)] leaves the very driver that one run of [n + m] pixels
    leaves, and drawing that long run once more changes nothing: the
    pattern is anchored at the panel, not at the start of the run. *)
Theorem adjacent_runs_join st x y n m color :
  0 <= color <= 7 ->
  0 < WIDTH st <= 32767 -> 0 <= x -> 0 <= n -> 0 < m ->
  x + n + m <= WIDTH st -> 0 <= y < HEIGHT st -> padded_buffer st ->
  exists st2,
    (st1 ← drawFastRawHLine st x y n color;
     drawFastRawHLine st1 (x + n) y m color) = Some st2 /\
    drawFastRawHLine st x y (n + m) color = Some st2 /\
    drawFastRawHLine st2 x y (n + m) color = Some st2.
Proof.
  intros Hc HW Hx Hn Hm Hxnm Hy Hpad.
  destruct (raw_hline_stamped st x y n color Hc HW ltac:(lia) Hn ltac:(lia)
              Hy Hpad) as (buf1 & -> & Hp1).
  cbn [mbind option_bind].
  pose proof (padded_buffer_stamped _ _ _ _ Hpad Hp1) as Hpad1.
  destruct (raw_hline_stamped (with_buffer st buf1) (x + n) y m color Hc HW
              ltac:(cbn; lia) ltac:(lia) ltac:(cbn; lia) Hy Hpad1)
    as (buf2 & Hrun2 & Hp2).
  destruct (raw_hline_stamped st x y (n + m) color Hc HW ltac:(lia)
              ltac:(lia) ltac:(lia) Hy Hpad) as (buf3 & Hrun3 & Hp3).
  cbn [sharpmem_buffer with_buffer WIDTH] in Hp2.
  change (WIDTH (with_buffer st buf1)) with (WIDTH st) in Hp2.
  assert (buf2 = buf3) as <-.
  { eapply stamped_unique; [|exact Hp3].
    eapply stamped_iff; [| |exact (stamped_seq _ _ _ _ _ _ Hp1 Hp2)]; [|done].
    intros g _. cbn beta. unfold pixel_bit. lia. }
  exists (with_buffer st buf2). split; [exact Hrun2|]. split; [exact Hrun3|].
  pose proof (padded_buffer_stamped _ _ _ _ Hpad Hp3) as Hpad3.
  destruct (raw_hline_stamped (with_buffer st buf2) x y (n + m) color Hc HW
              ltac:(cbn; lia) ltac:(lia) ltac:(cbn; lia) Hy Hpad3)
    as (buf4 & -> & Hp4).
  cbn [sharpmem_buffer with_buffer] in Hp4.
  change (WIDTH (with_buffer st buf2)) with (WIDTH st) in Hp4.
  f_equal. change (with_buffer (with_buffer st buf2) buf4)
    with (with_buffer st buf4). f_equal.
  exact (stamped_unique _ _ _ _ _ Hp4 (stamped_again _ _ _ _ Hp3)).
Qed.

Lemma adjacent_runs_join_witness :
  exists st2,
    (st1 ← drawFastRawHLine (panel 24 2 0 (replicate 6 0xFF) 2) 2 1 9 6;
     drawFastRawHLine st1 (2 + 9) 1 10 6) = Some st2 /\
    drawFastRawHLine (panel 24 2 0 (replicate 6 0xFF) 2) 2 1 (9 + 10) 6
      = Some st2 /\
    drawFastRawHLine st2 2 1 (9 + 10) 6 = Some st2.
Proof.
  apply (adjacent_runs_join (panel 24 2 0 (replicate 6 0xFF) 2) 2 1 9 10 6);
    try panel_facts.
  by repeat constructor.
Defined.

(** ** Selectors above 7 *)

Lemma write_raw_unknown st x y color :
  7 < color -> write_raw st x y color = write_raw st x y 0.
Proof.
  intros Hc. unfold write_raw.
  destruct color as [|p|p]; [lia| |lia].
  destruct p as [[[?|?|]|[?|?|]|]|[[?|?|]|[?|?|]|]|]; try lia; reflexivity.
Qed.

Lemma fill_partial_unknown buf ptr mask y color :
  7 < color ->
  fill_partial buf ptr mask y color = and_byte buf ptr (Z.lnot mask).
Proof.
  intros Hc. unfold fill_partial. by rewrite !decide_False by lia.
Qed.

Lemma whole_byte_color_unknown y color :
  7 < color -> whole_byte_color y color = 0xFF.
Proof.
  intros Hc. unfold whole_byte_color.
  destruct (decide (color > 0)); [|lia]. by rewrite !decide_False by lia.
Qed.

Lemma fill_rest_unknown buf ptr remaining y color :
  7 < color ->
  Forall is_uint8 buf -> 0 <= ptr -> 0 <= remaining ->
  8 * ptr + remaining <= 8 * Z.of_nat (length buf) ->
  exists buf',
    fill_rest buf ptr remaining y color = Some buf' /\
    stamped (fun g => 8 * ptr <= g < 8 * ptr + remaining)
            (fun g => bool_decide (8 * (g / 8) + 8 <= 8 * ptr + remaining))
            buf buf'.
Proof.
  intros Hc Hb Hp Hr Hlen. unfold fill_rest.
  destruct (decide (remaining > 0)) as [Hpos|Hpos].
  2:{ exists buf. split; [done|].
      eapply stamped_iff; [| |by apply stamped_none]; [|done].
      intros g _. cbn beta. lia. }
  cbv zeta. rewrite whole_byte_color_unknown by done.
  rewrite Z.quot_div_nonneg, Z.rem_mod_nonneg by lia.
  pose proof (Z.div_mod remaining 8 ltac:(lia)) as Hdm.
  pose proof (Z.mod_pos_bound remaining 8 ltac:(lia)) as Hlast.
  assert (0 <= remaining / 8) as Hwhole by (apply Z.div_pos; lia).
  destruct (memset_stamped buf ptr (remaining / 8) 255
              Hb Hp Hwhole ltac:(lia)) as (buf1 & -> & Hp1).
  cbn [mbind option_bind].
  assert (stamped (fun g => 8 * ptr <= g < 8 * (ptr + remaining / 8))
            (fun g => bool_decide (8 * (g / 8) + 8 <= 8 * ptr + remaining))
            buf buf1) as Hp1'.
  { eapply stamped_iff; [| |exact Hp1]; [done|].
    intros g Hg Hin. cbn beta in Hin |- *.
    pose proof (Z.div_mod g 8 ltac:(lia)) as Hgdm.
    pose proof (Z.mod_pos_bound g 8 ltac:(lia)) as Hgk.
    rewrite low_bits_255 by done. symmetry. apply bool_decide_eq_true. lia. }
  destruct (decide (remaining mod 8 > 0)) as [Hl|Hl].
  - destruct Hp1' as (Hl1 & Hb1 & Hg1).
    rewrite fill_partial_unknown by done.
    destruct (and_not_stamped buf1 (ptr + remaining / 8)
                (last_mask_loop 8 0 (remaining mod 8) 0) (fun _ => false)
                Hb1 ltac:(lia) ltac:(done)) as (buf' & -> & Hp2).
    exists buf'. split; [done|].
    destruct (last_mask_loop_spec 8 0 (remaining mod 8) 0)
      as [_ Hbits]; [lia | lia | lia | by unfold is_uint8 |].
    assert (stamped
              (fun g => g / 8 = ptr + remaining / 8 /\
                 Z.testbit (last_mask_loop 8 0 (remaining mod 8) 0) (g mod 8)
                 = true)
              (fun g => bool_decide (8 * (g / 8) + 8 <= 8 * ptr + remaining))
              buf1 buf') as Hp2'.
    { eapply stamped_iff; [| |exact Hp2]; [done|].
      intros g Hg [Hin _]. cbn beta in Hin |- *. symmetry.
      apply bool_decide_eq_false. lia. }
    eapply stamped_iff;
      [| |exact (stamped_seq _ _ _ _ _ _ (conj Hl1 (conj Hb1 Hg1)) Hp2')];
      [|done].
    intros g Hg. cbn beta.
    pose proof (Z.div_mod g 8 ltac:(lia)) as Hgdm.
    pose proof (Z.mod_pos_bound g 8 ltac:(lia)) as Hgk.
    rewrite (Hbits (g mod 8) Hgk), Z.bits_0. cbn.
    destruct (Z.leb_spec 0 (g mod 8)), (Z.ltb_spec (g mod 8) (remaining mod 8));
      cbn; split; intros; try lia; destruct_or?; destruct_and?; try lia;
      try done.
  - exists buf1. split; [done|].
    eapply stamped_iff; [| |exact Hp1']; [|done].
    intros g Hg. cbn beta. lia.
Qed.

Lemma raw_hline_unknown st x y n color :
  7 < color ->
  0 < WIDTH st <= 32767 -> 0 <= x < WIDTH st -> 0 <= n ->
  x + n <= WIDTH st -> 0 <= y < HEIGHT st -> padded_buffer st ->
  let G := pixel_bit (Z.quot (WIDTH st + 7) 8) x y in
  exists buf',
    drawFastRawHLine st x y n color = Some (with_buffer st buf') /\
    stamped (fun g => G <= g < G + n)
            (fun g => bool_decide (G <= 8 * (g / 8) /\
                                   8 * (g / 8) + 8 <= G + n))
            (sharpmem_buffer st) buf'.
Proof.
  intros Hc HW Hx Hn Hxn Hy [Hlen Hbytes] G. subst G.
  set (stride := Z.quot (WIDTH st + 7) 8) in *.
  destruct (pixel_offset_in_range (WIDTH st) (HEIGHT st) stride x y
              eq_refl Hx Hy) as [Hoff Hpos].
  pose proof (stride_covers_width (WIDTH st) ltac:(lia)) as Hcov.
  fold stride in Hcov.
  assert (to_int16 (Z.quot (WIDTH st + 7) 8) = stride) as Hstride.
  { apply to_int16_id. unfold is_int16. subst stride.
    pose proof (Z.quot_rem' (WIDTH st + 7) 8).
    pose proof (Z.rem_bound_pos (WIDTH st + 7) 8). lia. }
  pose proof (Z.div_mod x 8 ltac:(lia)) as Hxdm.
  pose proof (Z.mod_pos_bound x 8 ltac:(lia)) as Hk.
  assert (pixel_bit stride x y = 8 * (x / 8 + y * stride) + x mod 8) as HG
    by (unfold pixel_bit; lia).
  assert (8 * (y * stride) + 8 * stride
          <= 8 * Z.of_nat (length (sharpmem_buffer st))) as Hrow by nia.
  unfold drawFastRawHLine. rewrite Hstride, land7_mod.
  rewrite to_size_t_id by lia. rewrite Z.quot_div_nonneg by lia.
  rewrite HG.
  set (ptr := x / 8 + y * stride) in *.
  destruct (decide (x mod 8 > 0)) as [Hfirst|Hfirst].
  - destruct (start_mask_loop_spec 8 (x mod 8) 0 n)
      as (Hrem & Hmask & Hbits); [lia | lia | lia | by unfold is_uint8 |].
    destruct (start_mask_loop 8 (x mod 8) 0 n) as [mask rem].
    cbn [fst snd] in Hrem, Hmask, Hbits.
    rewrite fill_partial_unknown by done.
    destruct (and_not_stamped (sharpmem_buffer st) ptr mask (fun _ => false)
                Hbytes ltac:(lia) ltac:(done)) as (buf1 & -> & Hp1).
    cbn [mbind option_bind].
    assert (stamped
              (fun g => g / 8 = ptr /\ Z.testbit mask (g mod 8) = true)
              (fun g => bool_decide (8 * ptr + x mod 8 <= 8 * (g / 8) /\
                          8 * (g / 8) + 8 <= 8 * ptr + x mod 8 + n))
              (sharpmem_buffer st) buf1) as Hp1'.
    { eapply stamped_iff; [| |exact Hp1]; [done|].
      intros g Hg [Hin _]. cbn beta in Hin |- *. symmetry.
      apply bool_decide_eq_false. lia. }
    destruct Hp1' as (Hl1 & Hb1 & Hg1).
    destruct (fill_rest_unknown buf1 (ptr + 1) rem y color Hc Hb1
                ltac:(lia) ltac:(lia) ltac:(lia)) as (buf' & -> & Hp2).
    exists buf'. split; [done|].
    assert (stamped (fun g => 8 * (ptr + 1) <= g < 8 * (ptr + 1) + rem)
              (fun g => bool_decide (8 * ptr + x mod 8 <= 8 * (g / 8) /\
                          8 * (g / 8) + 8 <= 8 * ptr + x mod 8 + n))
              buf1 buf') as Hp2'.
    { eapply stamped_iff; [| |exact Hp2]; [done|].
      intros g Hg Hin. cbn beta in Hin |- *.
      pose proof (Z.div_mod g 8 ltac:(lia)) as Hgdm.
      pose proof (Z.mod_pos_bound g 8 ltac:(lia)) as Hgk.
      apply bool_decide_ext. lia. }
    eapply stamped_iff;
      [| |exact (stamped_seq _ _ _ _ _ _ (conj Hl1 (conj Hb1 Hg1)) Hp2')];
      [|done].
    intros g Hg. cbn beta.
    pose proof (Z.div_mod g 8 ltac:(lia)) as Hgdm.
    pose proof (Z.mod_pos_bound g 8 ltac:(lia)) as Hgk.
    rewrite (Hbits (g mod 8) Hgk), Z.bits_0. cbn.
    destruct (Z.leb_spec (x mod 8) (g mod 8)),
      (Z.ltb_spec (g mod 8) (x mod 8 + Z.min (8 - x mod 8) n));
      cbn; split; intros; destruct_or?; destruct_and?; try lia; try done.
  - destruct (fill_rest_unknown (sharpmem_buffer st) ptr n y color Hc Hbytes
                ltac:(lia) ltac:(lia) ltac:(lia)) as (buf' & Hrest & Hp2).
    cbn [mbind option_bind]. rewrite Hrest. exists buf'. split; [done|].
    eapply stamped_iff; [| |exact Hp2].
    + intros g Hg. cbn beta. lia.
    + intros g Hg Hin. cbn beta in Hin |- *.
      pose proof (Z.div_mod g 8 ltac:(lia)) as Hgdm.
      pose proof (Z.mod_pos_bound g 8 ltac:(lia)) as Hgk.
      apply bool_decide_ext. lia.
Qed.

(** X18: a colour selector above 7 is not one colour.  [drawPixel] treats
    it as BLACK at every point, while a raw horizontal run with it, inside
    a row of a padded buffer, sets to 1 (white) the pixels of the bytes
    that the run covers whole and clears to 0 (black) the pixels of a
    partly covered first or last byte; no other bit changes. *)
Theorem unknown_selector_run_is_two_toned st x y n color :
  7 < color ->
  0 < WIDTH st <= 32767 -> 0 <= x < WIDTH st -> 0 <= n ->
  x + n <= WIDTH st -> 0 <= y < HEIGHT st -> padded_buffer st ->
  let stride := Z.quot (WIDTH st + 7) 8 in
  (forall i j, drawPixel st i j color = drawPixel st i j 0) /\
  exists st',
    drawFastRawHLine st x y n color = Some st' /\
    (forall i, x <= i < x + n ->
       bit_at (sharpmem_buffer st') (pixel_bit stride i y)
       = bool_decide (x <= 8 * (i / 8) /\ 8 * (i / 8) + 8 <= x + n)) /\
    (forall g, 0 <= g < 8 * Z.of_nat (length (sharpmem_buffer st)) ->
       ~ (pixel_bit stride x y <= g < pixel_bit stride x y + n) ->
       bit_at (sharpmem_buffer st') g = bit_at (sharpmem_buffer st) g).
Proof.
  intros Hc HW Hx Hn Hxn Hy Hpad stride. split.
  { intros i j. unfold drawPixel. case_decide; [done|].
    case_match. apply write_raw_unknown, Hc. }
  destruct (raw_hline_unknown st x y n color Hc HW Hx Hn Hxn Hy Hpad)
    as (buf' & Hrun & Hl & Hb & Hbits).
  fold stride in Hbits.
  exists (with_buffer st buf'). split; [done|].
  destruct Hpad as [Hlen _]. fold stride in Hlen.
  pose proof (stride_covers_width (WIDTH st) ltac:(lia)) as Hcov.
  fold stride in Hcov.
  cbn [sharpmem_buffer with_buffer]. split.
  - intros i Hi.
    assert (0 <= pixel_bit stride i y
            < 8 * Z.of_nat (length (sharpmem_buffer st))) as Hg
      by (unfold pixel_bit; nia).
    destruct (Hbits _ Hg) as [[_ ->]|[Hout _]].
    + apply bool_decide_ext. unfold pixel_bit.
      replace ((8 * (y * stride) + i) / 8) with (y * stride + i / 8).
      2:{ pose proof (Z.div_mod i 8 ltac:(lia)).
          pose proof (Z.mod_pos_bound i 8 ltac:(lia)).
          apply (Z.div_unique _ _ _ (i mod 8)); lia. }
      lia.
    + destruct Hout. unfold pixel_bit. lia.
  - intros g Hg Hout.
    destruct (Hbits _ Hg) as [[Hin _]|[_ ->]]; [by destruct Hout | done].
Qed.

Lemma unknown_selector_run_is_two_toned_witness :
  (forall i j, drawPixel (panel 24 2 0 (replicate 6 0xA5) 2) i j 0xFFFF
               = drawPixel (panel 24 2 0 (replicate 6 0xA5) 2) i j 0) /\
  exists st',
    drawFastRawHLine (panel 24 2 0 (replicate 6 0xA5) 2) 3 1 18 0xFFFF
      = Some st' /\
    (forall i, 3 <= i < 3 + 18 ->
       bit_at (sharpmem_buffer st') (pixel_bit 3 i 1)
       = bool_decide (3 <= 8 * (i / 8) /\ 8 * (i / 8) + 8 <= 3 + 18)) /\
    (forall g, 0 <= g < 8 * 6 ->
       ~ (pixel_bit 3 3 1 <= g < pixel_bit 3 3 1 + 18) ->
       bit_at (sharpmem_buffer st') g = bit_at (replicate 6 0xA5) g).
Proof.
  apply (unknown_selector_run_is_two_toned
           (panel 24 2 0 (replicate 6 0xA5) 2) 3 1 18 0xFFFF);
    try panel_facts.
  by repeat constructor.
Defined.

(** ** Logical runs and rectangles, in bits *)

Lemma dither_bit_solid stride color g :
  color = 0 \/ color = 1 ->
  dither_bit stride color g = bool_decide (color = 1).
Proof.
  intros Hc. unfold dither_bit, run_bit.
  pose proof (Z.mod_pos_bound g 8 ltac:(lia)) as Hk.
  destruct Hc as [-> | ->].
  - change (whole_byte_color _ 0) with 0. apply Z.bits_0.
  - change (whole_byte_color _ 1) with 255. by apply low_bits_255.
Qed.

Lemma dither_bit_row stride color x y :
  0 <= x < 8 * stride ->
  dither_bit stride color (pixel_bit stride x y)
  = run_bit y color (pixel_bit stride x y).
Proof.
  intros Hx. unfold dither_bit. f_equal. symmetry.
  apply (Z.div_unique _ _ _ x); [lia|]. unfold pixel_bit. lia.
Qed.

Lemma rotated_run_stamped st x y n color :
  (rotation st = 0 \/ rotation st = 2) /\ 0 <= color <= 7 \/
  color = 0 \/ color = 1 ->
  canvas_ok st -> padded_buffer st ->
  0 <= x < _width st -> 0 <= n -> x + n <= _width st -> 0 < x + n ->
  0 <= y < _height st ->
  exists buf',
    rotated_run st x y n color = Some (with_buffer st buf') /\
    stamped (fun g => exists i, 0 <= i < n /\ g = logical_bit st (x + i) y)
            (dither_bit (Z.quot (WIDTH st + 7) 8) color)
            (sharpmem_buffer st) buf'.
Proof.
  intros Hmode Hok Hpad Hx Hn Hxn Hpos Hy.
  destruct (decide (color = 0 \/ color = 1)) as [Hc|Hc].
  { destruct (rotated_run_painted st x y n color Hc Hok Hpad Hx Hn Hxn
                Hpos Hy) as (buf' & Hrun & Hp).
    exists buf'. split; [done|]. apply painted_stamped in Hp.
    eapply stamped_iff; [| |exact Hp]; [done|].
    intros g _ _. cbn beta. by rewrite dither_bit_solid. }
  destruct Hmode as [[Hrot Hcol]|Hsolid]; [|done].
  destruct (canvas_ok_sizes st Hok) as (HW & HH & Hdims).
  pose proof (stride_covers_width (WIDTH st) ltac:(lia)) as Hcov.
  assert (_width st = WIDTH st /\ _height st = HEIGHT st) as [Hw Hh]
    by (destruct Hdims as [(_ & ? & ?)|([?|?] & _)]; lia).
  unfold rotated_run, getRotation, logical_bit.
  destruct Hrot as [Hr|Hr]; rewrite Hr, Hw, Hh in *; cbn [raw_point fst snd].
  - rewrite decide_True by done.
    destruct (raw_hline_stamped st x y n color Hcol HW ltac:(lia) Hn
                ltac:(lia) ltac:(lia) Hpad) as (buf' & -> & Hp).
    exists buf'. split; [done|].
    eapply stamped_iff; [| |exact Hp].
    + intros g _. cbn beta. unfold pixel_bit. split.
      * intros Hg. exists (g - (8 * (y * Z.quot (WIDTH st + 7) 8) + x)). lia.
      * intros (i & Hi & ->). lia.
    + intros g _ Hin. cbn beta in Hin |- *.
      replace g with (pixel_bit (Z.quot (WIDTH st + 7) 8)
                        (g - 8 * (y * Z.quot (WIDTH st + 7) 8)) y)
        by (unfold pixel_bit; lia).
      rewrite dither_bit_row; [done|]. unfold pixel_bit in Hin. lia.
  - rewrite decide_False by lia. rewrite decide_False by lia.
    rewrite decide_True by done. cbv zeta.
    rewrite (to_int16_id (WIDTH st - 1 - x)) by (unfold is_int16; lia).
    rewrite (to_int16_id (HEIGHT st - 1 - y)) by (unfold is_int16; lia).
    rewrite to_int16_id by (unfold is_int16; lia).
    destruct (raw_hline_stamped st (WIDTH st - 1 - x - (n - 1))
                (HEIGHT st - 1 - y) n color Hcol HW ltac:(lia) Hn
                ltac:(lia) ltac:(lia) Hpad) as (buf' & -> & Hp).
    exists buf'. split; [done|].
    eapply stamped_iff; [| |exact Hp].
    + intros g _. cbn beta. unfold pixel_bit. split.
      * intros Hg.
        exists (8 * ((HEIGHT st - 1 - y) * Z.quot (WIDTH st + 7) 8)
                + (WIDTH st - 1 - x) - g). lia.
      * intros (i & Hi & ->). lia.
    + intros g _ Hin. cbn beta in Hin |- *.
      replace g with (pixel_bit (Z.quot (WIDTH st + 7) 8)
                        (g - 8 * ((HEIGHT st - 1 - y)
                                  * Z.quot (WIDTH st + 7) 8))
                        (HEIGHT st - 1 - y))
        by (unfold pixel_bit; lia).
      rewrite dither_bit_row; [done|]. unfold pixel_bit in Hin. lia.
Qed.

Lemma with_own_buffer st : with_buffer st (sharpmem_buffer st) = st.
Proof. by destruct st. Qed.

(** A logical run, clipped to the canvas, in bits. *)
Lemma drawFastHLine_stamped st x y w color :
  (rotation st = 0 \/ rotation st = 2) /\ 0 <= color <= 7 \/
  color = 0 \/ color = 1 ->
  canvas_ok st -> padded_buffer st ->
  -16384 <= x <= 16383 -> -16384 <= w <= 16383 ->
  let a := if decide (w < 0) then x + w + 1 else x in
  exists buf',
    drawFastHLine st x y w color = Some (with_buffer st buf') /\
    stamped (fun g => exists i, a <= i < a + Z.abs w /\
                        0 <= i < _width st /\ 0 <= y < _height st /\
                        g = logical_bit st i y)
            (dither_bit (Z.quot (WIDTH st + 7) 8) color)
            (sharpmem_buffer st) buf'.
Proof.
  intros Hmode Hok Hpad Hx Hw a.
  destruct (canvas_ok_sizes st Hok) as (HW & HH & Hrot).
  assert (0 < _width st <= 32767) as Hwidth by (destruct_or!; lia).
  rewrite drawFastHLine_clipped by done. fold a.
  assert (-32768 <= a <= 16383) as Ha by (subst a; case_decide; lia).
  clearbody a.
  set (n := Z.abs w). assert (0 <= n <= 16384) as Hn by lia.
  clearbody n. clear Hx Hw.
  case_decide as Hout.
  - exists (sharpmem_buffer st). split; [by rewrite with_own_buffer|].
    eapply stamped_iff; [| |apply stamped_none, Hpad]; [|done].
    intros g _. cbn beta. split; [done|]. intros (i & ? & ? & ? & _). lia.
  - set (lo := Z.max a 0). set (hi := Z.min (a + n) (_width st)).
    assert (0 <= lo < _width st /\ lo <= hi <= _width st /\ 0 < hi)
      as (Hlo & Hhi & Hpos) by lia.
    destruct (rotated_run_stamped st lo y (hi - lo) color Hmode Hok Hpad Hlo
                ltac:(lia) ltac:(lia) ltac:(lia) ltac:(lia))
      as (buf1 & -> & Hp1).
    exists buf1. split; [done|].
    eapply stamped_iff; [| |exact Hp1]; [|done].
    intros g _. cbn beta. split.
    + intros (i & Hi & ->). exists (lo + i). repeat split; lia.
    + intros (i & Hi & Hiw & Hy & ->). exists (i - lo). split; [lia|].
      f_equal. lia.
Qed.

Lemma rows_loop_stamped x w color (n : nat) : forall st y,
  (rotation st = 0 \/ rotation st = 2) /\ 0 <= color <= 7 \/
  color = 0 \/ color = 1 ->
  canvas_ok st -> padded_buffer st ->
  -16384 <= x <= 16383 -> -16384 <= w <= 16383 ->
  let a := if decide (w < 0) then x + w + 1 else x in
  exists buf',
    rows_loop n st x y w color = Some (with_buffer st buf') /\
    stamped (fun g => exists i j, a <= i < a + Z.abs w /\
                        y <= j < y + Z.of_nat n /\
                        0 <= i < _width st /\ 0 <= j < _height st /\
                        g = logical_bit st i j)
            (dither_bit (Z.quot (WIDTH st + 7) 8) color)
            (sharpmem_buffer st) buf'.
Proof.
  induction n as [|n IH]; intros st y Hmode Hok Hpad Hx Hw a.
  - exists (sharpmem_buffer st). split; [cbn; by rewrite with_own_buffer|].
    eapply stamped_iff; [| |apply stamped_none, Hpad]; [|done].
    intros g _. cbn beta. split; [done|]. intros (i & j & ? & ? & _). lia.
  - cbn [rows_loop].
    destruct (drawFastHLine_stamped st x y w color Hmode Hok Hpad Hx Hw)
      as (buf1 & -> & Hp1).
    fold a in Hp1. cbn [mbind option_bind].
    destruct (IH (with_buffer st buf1) (y + 1) Hmode
                (canvas_ok_with_buffer _ _ Hok)
                (padded_buffer_stamped _ _ _ _ Hpad Hp1) Hx Hw)
      as (buf' & -> & Hp2).
    fold a in Hp2.
    cbn [sharpmem_buffer with_buffer _width _height WIDTH] in Hp2.
    change (logical_bit (with_buffer st buf1)) with (logical_bit st) in Hp2.
    exists buf'. split; [done|].
    eapply stamped_iff; [| |exact (stamped_seq _ _ _ _ _ _ Hp1 Hp2)]; [|done].
    intros g _. cbn beta. split.
    + intros [(i & Hi & Hiw & Hy & ->)|(i & j & Hi & Hj & Hiw & Hjh & ->)].
      * exists i, y. repeat split; lia.
      * exists i, j. repeat split; lia.
    + intros (i & j & Hi & Hj & Hiw & Hjh & ->).
      destruct (decide (j = y)) as [->|Hne].
      * left. exists i. repeat split; lia.
      * right. exists i, j. repeat split; lia.
Qed.

Lemma fillRect_stamped st x y w h color :
  (rotation st = 0 \/ rotation st = 2) /\ 0 <= color <= 7 \/
  color = 0 \/ color = 1 ->
  canvas_ok st -> padded_buffer st ->
  -16384 <= x <= 16383 -> -16384 <= w <= 16383 ->
  is_int16 y -> 0 <= h -> y + h <= 32767 ->
  let a := if decide (w < 0) then x + w + 1 else x in
  exists buf',
    fillRect st x y w h color = Some (with_buffer st buf') /\
    stamped (fun g => exists i j, a <= i < a + Z.abs w /\ y <= j < y + h /\
                        0 <= i < _width st /\ 0 <= j < _height st /\
                        g = logical_bit st i j)
            (dither_bit (Z.quot (WIDTH st + 7) 8) color)
            (sharpmem_buffer st) buf'.
Proof.
  intros Hmode Hok Hpad Hx Hw Hy Hh Hyh a.
  assert (fillRect st x y w h color = rows_loop (Z.to_nat h) st x y w color)
    as ->.
  { unfold fillRect. rewrite <- (Z2Nat.id h) at 1 by done.
    apply fillRect_loop_rows; [done | lia | unfold is_int16 in Hy; lia]. }
  destruct (rows_loop_stamped x w color (Z.to_nat h) st y Hmode Hok Hpad
              Hx Hw) as (buf' & Hrun & Hp).
  exists buf'. split; [done|]. by rewrite Z2Nat.id in Hp.
Qed.

(** X19: [fillRect], in bits.  For BLACK and WHITE in every rotation, and
    for every selector 0..7 in rotations 0 and 2, on a buffer of [HEIGHT]
    padded rows: [fillRect] returns, changes the buffer only, and the new
    buffer is the old one with exactly the bits of the rectangle's canvas
    points rewritten, each to the bit of its raw row's pattern byte at its
    place in the byte ([dither_bit]); rectangles that leave the canvas are
    clipped and negative widths extend to the left. *)
Theorem fillRect_stamps_rectangle st x y w h color :
  (rotation st = 0 \/ rotation st = 2) /\ 0 <= color <= 7 \/
  color = 0 \/ color = 1 ->
  canvas_ok st -> padded_buffer st ->
  -16384 <= x <= 16383 -> -16384 <= w <= 16383 ->
  is_int16 y -> 0 <= h -> y + h <= 32767 ->
  let a := if decide (w < 0) then x + w + 1 else x in
  exists st',
    fillRect st x y w h color = Some st' /\
    only_buffer_changed st st' /\
    stamped (fun g => exists i j, a <= i < a + Z.abs w /\ y <= j < y + h /\
                        0 <= i < _width st /\ 0 <= j < _height st /\
                        g = logical_bit st i j)
            (dither_bit (Z.quot (WIDTH st + 7) 8) color)
            (sharpmem_buffer st) (sharpmem_buffer st').
Proof.
  intros Hmode Hok Hpad Hx Hw Hy Hh Hyh a.
  destruct (fillRect_stamped st x y w h color Hmode Hok Hpad Hx Hw Hy Hh Hyh)
    as (buf' & Hrun & Hp).
  exists (with_buffer st buf'). split; [done|].
  split; [exact (fillRect_frame _ _ _ _ _ _ _ Hrun) | exact Hp].
Qed.

Lemma fillRect_stamps_rectangle_witness :
  exists st',
    fillRect (panel 12 6 2 (replicate 12 0xFF) 2) 9 (-1) (-5) 4 6 = Some st' /\
    only_buffer_changed (panel 12 6 2 (replicate 12 0xFF) 2) st' /\
    stamped (fun g => exists i j, 5 <= i < 5 + 5 /\ -1 <= j < -1 + 4 /\
                        0 <= i < 12 /\ 0 <= j < 6 /\
                        g = logical_bit (panel 12 6 2 (replicate 12 0xFF) 2)
                              i j)
            (dither_bit 2 6) (replicate 12 0xFF) (sharpmem_buffer st').
Proof.
  apply (fillRect_stamps_rectangle (panel 12 6 2 (replicate 12 0xFF) 2)
           9 (-1) (-5) 4 6); try panel_facts.
  by repeat constructor.
Defined.

(** X20: [fillRect] read back through [getPixel], on a panel whose width is
    a multiple of 8.  Under the conditions of X19 [fillRect] returns, and
    then at every canvas point inside the rectangle [getPixel] returns bit
    [xr mod 8] of the pattern byte of raw row [yr], where [(xr, yr)] is the
    raw point - which is [color] itself for BLACK and WHITE - and at every
    canvas point outside it [getPixel] returns what it returned before. *)
Theorem fillRect_reads_back st x y w h color :
  (rotation st = 0 \/ rotation st = 2) /\ 0 <= color <= 7 \/
  color = 0 \/ color = 1 ->
  canvas_ok st -> padded_buffer st -> Z.rem (WIDTH st) 8 = 0 ->
  -16384 <= x <= 16383 -> -16384 <= w <= 16383 ->
  is_int16 y -> 0 <= h -> y + h <= 32767 ->
  let a := if decide (w < 0) then x + w + 1 else x in
  let value i j :=
    let p := raw_point (WIDTH st) (HEIGHT st) (rotation st) i j in
    if Z.testbit (whole_byte_color p.2 color) (p.1 mod 8) then 1 else 0 in
  exists st',
    fillRect st x y w h color = Some st' /\
    (forall i j, 0 <= i < _width st -> 0 <= j < _height st ->
       getPixel st' i j =
       if decide (a <= i < a + Z.abs w /\ y <= j < y + h)
       then Some (value i j) else getPixel st i j) /\
    (color = 0 \/ color = 1 -> forall i j, value i j = color).
Proof.
  intros Hmode Hok Hpad Hal Hx Hw Hy Hh Hyh a value.
  destruct (fillRect_stamped st x y w h color Hmode Hok Hpad Hx Hw Hy Hh Hyh)
    as (buf' & Hrun & Hp).
  fold a in Hp.
  exists (with_buffer st buf'). split; [done|]. split.
  - intros i j Hi Hj.
    destruct (canvas_ok_sizes st Hok) as (HW & HH & _).
    destruct (pixel_at_raw_point st i j Hok Hi Hj) as (Hxr & Hyr & _).
    pose proof (stride_covers_width (WIDTH st) ltac:(lia)) as Hcov.
    rewrite (getPixel_bit (with_buffer st buf'));
      [|by apply canvas_ok_with_buffer
       |eapply padded_buffer_stamped; done|done|done|done].
    cbn [sharpmem_buffer with_buffer].
    change (logical_bit (with_buffer st buf') i j) with (logical_bit st i j).
    destruct Hp as (Hlen & _ & Hbits). destruct Hpad as [Hlen0 Hbytes].
    assert (0 <= logical_bit st i j
            < 8 * Z.of_nat (length (sharpmem_buffer st))) as Hg
      by (unfold logical_bit, pixel_bit; nia).
    destruct (Hbits _ Hg) as [[(i' & j' & Hi' & Hj' & Hiw & Hjh & He) ->]
                             |[Hout ->]].
    + apply logical_bit_inj in He; [|done..]. destruct He as [<- <-].
      rewrite decide_True by lia. f_equal. subst value. cbv zeta.
      unfold logical_bit. rewrite dither_bit_row by lia.
      unfold run_bit. by rewrite pixel_bit_mod.
    + rewrite decide_False.
      * by rewrite getPixel_bit.
      * intros [Hin1 Hin2]. destruct Hout. exists i, j. repeat split; lia.
  - intros Hc i j. subst value. cbv zeta.
    pose proof (Z.mod_pos_bound
                  (raw_point (WIDTH st) (HEIGHT st) (rotation st) i j).1 8
                  ltac:(lia)) as Hk.
    destruct Hc as [-> | ->].
    + change (whole_byte_color _ 0) with 0. by rewrite Z.bits_0.
    + change (whole_byte_color _ 1) with 255. by rewrite low_bits_255.
Qed.

Lemma fillRect_reads_back_witness :
  exists st',
    fillRect (panel 16 6 3 (replicate 12 0xFF) 2) (-2) 3 5 200 0 = Some st' /\
    (forall i j, 0 <= i < 6 -> 0 <= j < 16 ->
       getPixel st' i j =
       if decide (-2 <= i < -2 + 5 /\ 3 <= j < 3 + 200)
       then Some (if Z.testbit (whole_byte_color (raw_point 16 6 3 i j).2 0)
                               ((raw_point 16 6 3 i j).1 mod 8)
                  then 1 else 0)
       else getPixel (panel 16 6 3 (replicate 12 0xFF) 2) i j) /\
    (0 = 0 \/ 0 = 1 ->
     forall i j,
       (if Z.testbit (whole_byte_color (raw_point 16 6 3 i j).2 0)
                     ((raw_point 16 6 3 i j).1 mod 8)
        then 1 else 0) = 0).
Proof.
  apply (fillRect_reads_back (panel 16 6 3 (replicate 12 0xFF) 2)
           (-2) 3 5 200 0); try panel_facts.
  by repeat constructor.
Defined.

(** ** Runs on a panel turned by a quarter *)

Lemma drawFastRawVLine_white st x y h color :
  color > 0 -> color <> 2 ->
  drawFastRawVLine st x y h color = drawFastRawVLine st x y h 1.
Proof.
  intros Hpos Hne. unfold drawFastRawVLine.
  destruct (decide (color > 0)); [|lia].
  destruct (decide (color = 2)); [lia|]. done.
Qed.

Lemma drawFastHLine_white st x y w color :
  rotation st = 1 \/ rotation st = 3 -> color > 0 -> color <> 2 ->
  drawFastHLine st x y w color = drawFastHLine st x y w 1.
Proof.
  intros Hrot Hpos Hne. unfold drawFastHLine.
  repeat case_match; try done;
    unfold rotated_run, getRotation;
    destruct Hrot as [Hr|Hr]; rewrite Hr;
    repeat (rewrite decide_False by lia); rewrite decide_True by done;
    cbv zeta; by apply drawFastRawVLine_white.
Qed.

Lemma fillRect_loop_white x w color bound (fuel : nat) : forall st i,
  rotation st = 1 \/ rotation st = 3 -> color > 0 -> color <> 2 ->
  fillRect_loop fuel st x i bound w color
  = fillRect_loop fuel st x i bound w 1.
Proof.
  induction fuel as [|fuel IH]; intros st i Hrot Hpos Hne; [done|].
  cbn [fillRect_loop]. case_decide; [|done].
  rewrite (drawFastHLine_white st x i w color Hrot Hpos Hne).
  destruct (drawFastHLine st x i w 1) as [st'|] eqn:Hd; [|done].
  cbn. apply IH; [|done|done].
  destruct (drawFastHLine_frame _ _ _ _ _ _ Hd) as (_ & _ & _ & _ & -> & _).
  done.
Qed.

(** X21: with the canvas turned by a quarter (rotation 1 or 3) the dither
    of runs and rectangles is lost.  For every selector above 0 other than
    GRAY - the dither selectors 3..7 included - [drawFastHLine] and
    [fillRect] do exactly what they do for WHITE, whatever the arguments
    and the buffer. *)
Theorem quarter_turn_runs_are_white st color :
  rotation st = 1 \/ rotation st = 3 -> color > 0 -> color <> 2 ->
  (forall x y w, drawFastHLine st x y w color = drawFastHLine st x y w 1) /\
  (forall x y w h, fillRect st x y w h color = fillRect st x y w h 1).
Proof.
  intros Hrot Hpos Hne. split.
  - intros x y w. by apply drawFastHLine_white.
  - intros x y w h. by apply fillRect_loop_white.
Qed.

Lemma quarter_turn_runs_are_white_witness :
  (forall x y w,
     drawFastHLine (panel 16 8 1 (replicate 16 0) 2) x y w 5
     = drawFastHLine (panel 16 8 1 (replicate 16 0) 2) x y w 1) /\
  (forall x y w h,
     fillRect (panel 16 8 1 (replicate 16 0) 2) x y w h 5
     = fillRect (panel 16 8 1 (replicate 16 0) 2) x y w h 1).
Proof.
  apply (quarter_turn_runs_are_white (panel 16 8 1 (replicate 16 0) 2) 5);
    [by left | lia | lia].
Defined.

(** ** Start-up *)

Lemma begin_success SHARPMEM_BIT_VCOM malloc st block :
  0 < WIDTH st <= 32767 -> 0 < HEIGHT st <= 32767 ->
  (forall n b, malloc n = Some b -> Z.of_nat (length b) = n) ->
  malloc (Z.quot (WIDTH st * HEIGHT st) 8) = Some block ->
  exists st',
    begin SHARPMEM_BIT_VCOM true malloc st = (true, st') /\
    allocated st' /\ canvas_ok st' /\
    WIDTH st' = WIDTH st /\ HEIGHT st' = HEIGHT st /\
    rotation st' = 0 /\ _cs st' = _cs st /\
    _sharpmem_vcom st' = SHARPMEM_BIT_VCOM /\
    sharpmem_buffer st' = block /\
    bus st' = bus st ++ [DigitalWrite (_cs st) false].
Proof.
  intros HW HH Hmalloc Hblock. unfold begin. cbn [negb].
  cbv zeta.
  assert (to_size_t (Z.quot (WIDTH st * HEIGHT st) 8)
          = Z.quot (WIDTH st * HEIGHT st) 8) as Hsize.
  { apply to_size_t_id.
    pose proof (Z.quot_rem' (WIDTH st * HEIGHT st) 8).
    pose proof (Z.rem_bound_pos (WIDTH st * HEIGHT st) 8). nia. }
  unfold buffer_bytes. cbn [WIDTH HEIGHT with_vcom emit].
  rewrite Hsize, Hblock, setRotation_0. eexists. split; [done|].
  pose proof (Hmalloc _ _ Hblock) as Hlen.
  unfold allocated, canvas_ok, buffer_bytes. cbn.
  rewrite !decide_False by lia. repeat split; try lia; done.
Qed.

Lemma begin_true_inv SHARPMEM_BIT_VCOM spi_begin malloc st st0 :
  0 < WIDTH st <= 32767 -> 0 < HEIGHT st <= 32767 ->
  (forall n b, malloc n = Some b -> Z.of_nat (length b) = n) ->
  begin SHARPMEM_BIT_VCOM spi_begin malloc st = (true, st0) ->
  allocated st0 /\ canvas_ok st0 /\
  WIDTH st0 = WIDTH st /\ HEIGHT st0 = HEIGHT st /\
  rotation st0 = 0 /\ _cs st0 = _cs st /\
  _sharpmem_vcom st0 = SHARPMEM_BIT_VCOM /\
  bus st0 = bus st ++ [DigitalWrite (_cs st) false].
Proof.
  intros HW HH Hmalloc Hbegin.
  destruct spi_begin; [|done].
  destruct (malloc (Z.quot (WIDTH st * HEIGHT st) 8)) as [block|] eqn:Hb.
  - destruct (begin_success SHARPMEM_BIT_VCOM malloc st block HW HH
                Hmalloc Hb) as (st' & Hbegin' & Hfacts).
    rewrite Hbegin in Hbegin'. injection Hbegin' as <-. tauto.
  - revert Hbegin. unfold begin. cbn [negb]. cbv zeta.
    unfold buffer_bytes. cbn [WIDTH HEIGHT with_vcom emit].
    rewrite to_size_t_id, Hb; [done|].
    pose proof (Z.quot_rem' (WIDTH st * HEIGHT st) 8).
    pose proof (Z.rem_bound_pos (WIDTH st * HEIGHT st) 8). nia.
Qed.

(** X22: the three ways [begin] ends, on a panel with positive 16-bit
    sizes and an allocator whose blocks have the size asked for.  If the
    transport does not start, [begin] returns false and leaves the driver
    as it was.  If [malloc] fails, it returns false after chip select was
    driven low and the polarity bit set.  Otherwise it returns true with
    chip select driven low once, the polarity bit at [SHARPMEM_BIT_VCOM],
    rotation 0 with the canvas equal to the panel, and a buffer of
    [(WIDTH * HEIGHT) / 8] bytes: the invariants [allocated] and
    [canvas_ok] that the drawing operations rely on. *)
Theorem begin_outcomes SHARPMEM_BIT_VCOM spi_begin malloc st :
  0 < WIDTH st <= 32767 -> 0 < HEIGHT st <= 32767 ->
  (forall n b, malloc n = Some b -> Z.of_nat (length b) = n) ->
  exists ok st',
    begin SHARPMEM_BIT_VCOM spi_begin malloc st = (ok, st') /\
    (ok = true <->
     spi_begin = true /\
     is_Some (malloc (Z.quot (WIDTH st * HEIGHT st) 8))) /\
    (spi_begin = false -> st' = st) /\
    (spi_begin = true ->
     bus st' = bus st ++ [DigitalWrite (_cs st) false] /\
     _sharpmem_vcom st' = SHARPMEM_BIT_VCOM) /\
    (ok = true ->
     allocated st' /\ canvas_ok st' /\ rotation st' = 0 /\
     WIDTH st' = WIDTH st /\ HEIGHT st' = HEIGHT st /\
     Some (sharpmem_buffer st')
     = malloc (Z.quot (WIDTH st * HEIGHT st) 8)).
Proof.
  intros HW HH Hmalloc. destruct spi_begin.
  - destruct (malloc (Z.quot (WIDTH st * HEIGHT st) 8)) as [block|] eqn:Hb.
    + destruct (begin_success SHARPMEM_BIT_VCOM malloc st block HW HH
                  Hmalloc Hb)
        as (st' & Hbegin & Ha & Hok & HW' & HH' & Hr & Hcs & Hv & Hbuf & Hbus).
      exists true, st'. split; [done|].
      split; [by split; [|eauto]|]. split; [done|]. split; [done|].
      intros _. by rewrite Hbuf.
    + eexists false, _. split.
      { unfold begin. cbn [negb]. cbv zeta.
        assert (to_size_t (Z.quot (WIDTH st * HEIGHT st) 8)
                = Z.quot (WIDTH st * HEIGHT st) 8) as Hsize.
        { apply to_size_t_id.
          pose proof (Z.quot_rem' (WIDTH st * HEIGHT st) 8).
          pose proof (Z.rem_bound_pos (WIDTH st * HEIGHT st) 8). nia. }
        unfold buffer_bytes. cbn [WIDTH HEIGHT with_vcom emit].
        rewrite Hsize, Hb. done. }
      split; [split; [done|]; by intros [_ [? ?]]|].
      split; [done|]. split; [done|]. done.
  - exists false, st. split; [done|].
    split; [split; [done|]; by intros [? _]|].
    split; [done|]. split; done.
Qed.

Lemma begin_outcomes_witness :
  exists ok st',
    begin 2 true (fun n => if decide (0 <= n)
                           then Some (replicate (Z.to_nat n) 0) else None)
          (Driver 16 2 2 16 3 10 [] 0 []) = (ok, st') /\
    (ok = true <->
     true = true /\
     is_Some (if decide (0 <= Z.quot (16 * 2) 8)
              then Some (replicate (Z.to_nat (Z.quot (16 * 2) 8)) 0)
              else None)) /\
    (true = false -> st' = Driver 16 2 2 16 3 10 [] 0 []) /\
    (true = true ->
     bus st' = [] ++ [DigitalWrite 10 false] /\ _sharpmem_vcom st' = 2) /\
    (ok = true ->
     allocated st' /\ canvas_ok st' /\ rotation st' = 0 /\
     WIDTH st' = 16 /\ HEIGHT st' = 2 /\
     Some (sharpmem_buffer st')
     = (if decide (0 <= Z.quot (16 * 2) 8)
        then Some (replicate (Z.to_nat (Z.quot (16 * 2) 8)) 0)
        else None)).
Proof.
  apply (begin_outcomes 2 true
           (fun n => if decide (0 <= n)
                     then Some (replicate (Z.to_nat n) 0) else None)
           (Driver 16 2 2 16 3 10 [] 0 [])); cbn [WIDTH HEIGHT]; [lia | lia |].
  intros n b. case_decide; [|done]. intros [= <-].
  rewrite length_replicate. lia.
Defined.

(** X23: the start-up sequence [begin(); clearDisplay();].  When [begin]
    has returned true on a panel whose pixel count is a multiple of 8,
    [clearDisplay] returns; by then the driver has driven chip select low
    once and sent one clear command carrying the polarity bit, inside a
    transaction and between raising and lowering chip select; the polarity
    bit is 0 for the next command; and [getPixel] reads 1 (white) at every
    point of the panel. *)
Theorem begin_then_clearDisplay
    SHARPMEM_BIT_VCOM SHARPMEM_BIT_CLEAR spi_begin malloc st st0 :
  0 < WIDTH st <= 32767 -> 0 < HEIGHT st <= 32767 ->
  Z.rem (WIDTH st * HEIGHT st) 8 = 0 ->
  SHARPMEM_BIT_VCOM <> 0 ->
  is_uint8 SHARPMEM_BIT_VCOM -> is_uint8 SHARPMEM_BIT_CLEAR ->
  (forall n b, malloc n = Some b -> Z.of_nat (length b) = n) ->
  begin SHARPMEM_BIT_VCOM spi_begin malloc st = (true, st0) ->
  exists st1,
    clearDisplay SHARPMEM_BIT_VCOM SHARPMEM_BIT_CLEAR st0 = Some st1 /\
    bus st1 = bus st ++
      [DigitalWrite (_cs st) false;
       BeginTransaction; DigitalWrite (_cs st) true;
       Transfer [Z.lor SHARPMEM_BIT_VCOM SHARPMEM_BIT_CLEAR; 0];
       DigitalWrite (_cs st) false; EndTransaction] /\
    _sharpmem_vcom st1 = 0 /\
    (forall x y, 0 <= x < WIDTH st -> 0 <= y < HEIGHT st ->
       getPixel st1 x y = Some 1).
Proof.
  intros HW HH Hrem Hv Hvb Hcb Hmalloc Hbegin.
  destruct (begin_true_inv _ _ _ _ _ HW HH Hmalloc Hbegin)
    as (Ha & Hok & HW0 & HH0 & Hr0 & Hcs0 & Hv0 & Hbus0).
  assert (is_int16 (WIDTH st0) /\ is_int16 (HEIGHT st0)) as [Hw16 Hh16]
    by (unfold is_int16; lia).
  assert (length (sharpmem_buffer st0) = Z.to_nat (buffer_bytes st0)) as Hlen
    by (unfold allocated in Ha; lia).
  unfold clearDisplay.
  rewrite buffer_bytes_size_t by done. rewrite memset_all.
  cbn [mbind option_bind]. eexists. split; [done|].
  split; [|split].
  - cbn. rewrite Hbus0, Hv0, Hcs0, <- !app_assoc. cbn [app].
    by rewrite (to_uint8_id _ (lor_uint8 _ _ Hvb Hcb)).
  - cbn. rewrite Hv0. by rewrite decide_True.
  - intros x y Hx Hy.
    destruct Hok as (HWok & HHok & Hrok & Hwok & Hhok).
    rewrite Hr0, decide_False in Hwok, Hhok by lia.
    apply getPixel_white.
    + unfold canvas_ok. cbn. rewrite Hr0, !decide_False by lia. lia.
    + cbn. by rewrite HW0, HH0.
    + cbn. unfold buffer_bytes. cbn. unfold buffer_bytes in Hlen.
      by rewrite Hlen.
    + cbn. lia.
    + cbn. lia.
Qed.

Lemma begin_then_clearDisplay_witness :
  exists st1,
    clearDisplay 2 4 (Driver 12 4 12 4 0 10 (replicate 6 0) 2
                        [DigitalWrite 10 false]) = Some st1 /\
    bus st1 = [] ++
      [DigitalWrite 10 false;
       BeginTransaction; DigitalWrite 10 true;
       Transfer [Z.lor 2 4; 0];
       DigitalWrite 10 false; EndTransaction] /\
    _sharpmem_vcom st1 = 0 /\
    (forall x y, 0 <= x < 12 -> 0 <= y < 4 -> getPixel st1 x y = Some 1).
Proof.
  apply (begin_then_clearDisplay 2 4 true
           (fun n => if decide (0 <= n)
                     then Some (replicate (Z.to_nat n) 0) else None)
           (Driver 12 4 4 12 1 10 [] 0 []));
    cbn [WIDTH HEIGHT]; try lia; try done.
  intros n b. case_decide; [|done]. intros [= <-].
  rewrite length_replicate. lia.
Defined.

(** ** GRAY by run against GRAY by pixel *)

Lemma solid_pixel_reads st x y c :
  c = 0 \/ c = 1 ->
  Z.rem (WIDTH st) 8 = 0 ->
  0 <= x < WIDTH st -> 0 <= y < HEIGHT st -> padded_buffer st ->
  exists buf',
    write_raw st x y c = Some (with_buffer st buf') /\
    read_raw (with_buffer st buf') x y = Some c.
Proof.
  intros Hc Hal Hx Hy Hpad.
  destruct (write_raw_painted st x y c Hc Hx Hy Hpad) as (buf' & Hw & Hp).
  exists buf'. split; [done|].
  rewrite read_raw_bit; [|done|done|done|eapply padded_buffer_painted; done].
  cbn [sharpmem_buffer with_buffer WIDTH].
  destruct Hp as (Hlen & _ & Hbits). destruct Hpad as [Hlen0 _].
  pose proof (stride_covers_width (WIDTH st) ltac:(lia)) as Hcov.
  assert (0 <= pixel_bit (Z.quot (WIDTH st + 7) 8) x y
          < 8 * Z.of_nat (length (sharpmem_buffer st))) as Hg
    by (unfold pixel_bit; nia).
  destruct (Hbits _ Hg) as [[_ ->]|[Hn _]]; [|by destruct Hn].
  by destruct Hc as [-> | ->].
Qed.

Lemma write_raw_gray st x y :
  Z.rem (WIDTH st) 8 = 0 -> 0 <= WIDTH st -> 0 <= x -> 0 <= y ->
  write_raw st x y 2
  = write_raw st x y (if decide (Z.rem (x + y) 2 = 0) then 1 else 0).
Proof.
  intros Hal HW Hx Hy. unfold write_raw. cbv zeta.
  rewrite aligned_index by done. by case_decide.
Qed.

(** Bit [k] of the GRAY pattern byte of row [y]: set where [k + y] is odd. *)
Lemma gray_pattern_bit x y :
  0 <= x -> 0 <= y ->
  Z.testbit (whole_byte_color y 2) (x mod 8)
  = bool_decide (Z.rem (x + y) 2 <> 0).
Proof.
  intros Hx Hy.
  rewrite Z.rem_mod_nonneg by lia.
  pose proof (Z.div_mod x 8 ltac:(lia)) as Hx8.
  pose proof (Z.mod_pos_bound x 8 ltac:(lia)) as Hk.
  pose proof (Z.div_mod (x + y) 2 ltac:(lia)) as Hs.
  pose proof (Z.mod_pos_bound (x + y) 2 ltac:(lia)) as Hs2.
  pose proof (Z.div_mod y 2 ltac:(lia)) as Hy2.
  pose proof (Z.mod_pos_bound y 2 ltac:(lia)) as Hy2b.
  unfold whole_byte_color. cbn [decide]. 
  destruct (decide (2 > 0)); [|lia].
  rewrite !(decide_False (P := 2 = _)) by lia.
  rewrite (decide_True (P := 2 = 2)) by done.
  rewrite Z.rem_mod_nonneg by lia.
  assert (x mod 8 = 0 \/ x mod 8 = 1 \/ x mod 8 = 2 \/ x mod 8 = 3 \/
          x mod 8 = 4 \/ x mod 8 = 5 \/ x mod 8 = 6 \/ x mod 8 = 7)
    as Hcases by lia.
  destruct (decide (y mod 2 = 0)) as [Hev|Hodd];
    destruct_or!; rewrite Hcases; cbn;
    symmetry; (apply bool_decide_eq_true + apply bool_decide_eq_false); lia.
Qed.

(** X24: GRAY drawn by a run is the negative of GRAY drawn by pixels.  On
    a panel whose width is a multiple of 8, in rotation 0 or 2, at every
    canvas point of a logical run, [getPixel] after [drawFastHLine] with
    GRAY and [getPixel] after [drawPixel] with GRAY return opposite
    values: the two checkerboards are out of phase. *)
Theorem gray_run_is_negative_of_gray_pixels st x y w i :
  rotation st = 0 \/ rotation st = 2 ->
  canvas_ok st -> padded_buffer st -> Z.rem (WIDTH st) 8 = 0 ->
  -16384 <= x <= 16383 -> -16384 <= w <= 16383 ->
  (if decide (w < 0) then x + w + 1 else x) <= i
    < (if decide (w < 0) then x + w + 1 else x) + Z.abs w ->
  0 <= i < _width st -> 0 <= y < _height st ->
  exists st_run st_pixel v,
    drawFastHLine st x y w 2 = Some st_run /\
    drawPixel st i y 2 = Some st_pixel /\
    getPixel st_run i y = Some v /\
    getPixel st_pixel i y = Some (1 - v).
Proof.
  intros Hrot Hok Hpad Hal Hx Hw Hin Hi Hy.
  destruct (canvas_ok_sizes st Hok) as (HW & HH & _).
  destruct (pixel_at_raw_point st i y Hok Hi Hy) as (Hxr & Hyr & Hdraw & _).
  set (xr := (raw_point (WIDTH st) (HEIGHT st) (rotation st) i y).1) in *.
  set (yr := (raw_point (WIDTH st) (HEIGHT st) (rotation st) i y).2) in *.
  pose proof (stride_covers_width (WIDTH st) ltac:(lia)) as Hcov.
  (* the run *)
  assert ((rotation st = 0 \/ rotation st = 2) /\ 0 <= 2 <= 7 \/
          2 = 0 \/ 2 = 1) as Hmode by (left; split; [done|lia]).
  destruct (drawFastHLine_stamped st x y w 2 Hmode Hok Hpad Hx Hw)
    as (buf1 & Hrun & Hp1).
  (* the pixel *)
  rewrite Hdraw, write_raw_gray by lia.
  set (c := if decide (Z.rem (xr + yr) 2 = 0) then 1 else 0).
  assert (c = 0 \/ c = 1) as Hc
    by (subst c; destruct (decide (Z.rem (xr + yr) 2 = 0)); lia).
  destruct (solid_pixel_reads st xr yr c Hc Hal Hxr Hyr Hpad)
    as (buf2 & Hpix & Hread2).
  exists (with_buffer st buf1), (with_buffer st buf2), (1 - c).
  split; [done|]. split; [done|]. split.
  - rewrite getPixel_bit;
      [|by apply canvas_ok_with_buffer
       |eapply padded_buffer_stamped; done|done|done|done].
    cbn [sharpmem_buffer with_buffer].
    change (logical_bit (with_buffer st buf1) i y) with (logical_bit st i y).
    destruct Hp1 as (Hlen & _ & Hbits). destruct Hpad as [Hlen0 _].
    assert (0 <= logical_bit st i y
            < 8 * Z.of_nat (length (sharpmem_buffer st))) as Hg
      by (unfold logical_bit, pixel_bit; fold xr yr; nia).
    destruct (Hbits _ Hg) as [[_ ->]|[Hout _]].
    + unfold logical_bit. fold xr yr. rewrite dither_bit_row by lia.
      unfold run_bit. rewrite pixel_bit_mod, gray_pattern_bit by lia.
      subst c. f_equal.
      destruct (decide (Z.rem (xr + yr) 2 = 0)) as [He|He].
      * by rewrite bool_decide_eq_false_2 by (intros Hne; by destruct Hne).
      * by rewrite bool_decide_eq_true_2.
    + destruct Hout. exists i. repeat split; lia.
  - replace (1 - (1 - c)) with c by lia.
    destruct (pixel_at_raw_point (with_buffer st buf2) i y
                (canvas_ok_with_buffer _ _ Hok) Hi Hy) as (_ & _ & _ & ->).
    exact Hread2.
Qed.

Lemma gray_run_is_negative_of_gray_pixels_witness :
  exists st_run st_pixel v,
    drawFastHLine (panel 16 4 2 (replicate 8 0) 2) 12 1 (-9) 2 = Some st_run /\
    drawPixel (panel 16 4 2 (replicate 8 0) 2) 7 1 2 = Some st_pixel /\
    getPixel st_run 7 1 = Some v /\
    getPixel st_pixel 7 1 = Some (1 - v).
Proof.
  apply (gray_run_is_negative_of_gray_pixels
           (panel 16 4 2 (replicate 8 0) 2) 12 1 (-9) 7); try panel_facts.
  by repeat constructor.
Defined.

(** ** Staying inside the buffer *)

Lemma returns_padded_same st :
  Forall is_uint8 (sharpmem_buffer st) -> returns_padded st (Some st).
Proof.
  intros Hb. exists (sharpmem_buffer st). by rewrite with_own_buffer.
Qed.

Lemma returns_padded_painted st r S c buf' :
  r = Some (with_buffer st buf') -> painted S c (sharpmem_buffer st) buf' ->
  returns_padded st r.
Proof. intros -> (Hl & Hb & _). by exists buf'. Qed.

Lemma returns_padded_stamped st r S v buf' :
  r = Some (with_buffer st buf') -> stamped S v (sharpmem_buffer st) buf' ->
  returns_padded st r.
Proof. intros -> (Hl & Hb & _). by exists buf'. Qed.

Lemma returns_padded_buffer st r st' :
  padded_buffer st -> returns_padded st r -> r = Some st' ->
  padded_buffer st' /\ only_buffer_changed st st'.
Proof.
  intros [Hlen Hb] (buf' & -> & Hl & Hb') [= <-]. split.
  - split; [|done]. cbn. by rewrite Hl.
  - by unfold only_buffer_changed.
Qed.

Lemma modify_returns buf off f :
  Forall is_uint8 buf -> 0 <= off < Z.of_nat (length buf) ->
  (forall b, is_uint8 (f b)) ->
  exists buf',
    modify buf off f = Some buf' /\
    length buf' = length buf /\ Forall is_uint8 buf'.
Proof.
  intros Hb Hoff Hf. destruct (modify_in_range buf off f Hoff) as [buf' Hm].
  exists buf'. split; [done|].
  destruct (modify_Some _ _ _ _ Hm) as (b & _ & ->).
  split; [apply length_insert|]. by apply Forall_insert.
Qed.

Lemma packed_index_in_rows w h x y :
  0 <= x < w -> 0 <= y < h ->
  0 <= Z.quot (y * w + x) 8 < Z.quot (w + 7) 8 * h.
Proof.
  intros Hx Hy.
  pose proof (stride_covers_width w ltac:(lia)) as Hcov.
  pose proof (Z.quot_rem' (y * w + x) 8) as Hq.
  pose proof (Z.rem_bound_pos (y * w + x) 8 ltac:(nia) ltac:(lia)).
  nia.
Qed.

Lemma write_raw_returns st x y color :
  0 <= x < WIDTH st -> 0 <= y < HEIGHT st -> padded_buffer st ->
  returns_padded st (write_raw st x y color).
Proof.
  intros Hx Hy [Hlen Hb].
  destruct (write_raw_shape (WIDTH st) x y color) as (white & idx & Hidx & Hw).
  rewrite (Hw st eq_refl).
  assert (0 <= idx < Z.of_nat (length (sharpmem_buffer st))) as Hin.
  { destruct Hidx as [-> | ->].
    - destruct (pixel_offset_in_range (WIDTH st) (HEIGHT st) _ x y
                  eq_refl Hx Hy) as [Hoff _].
      rewrite Z.quot_div_nonneg by lia. lia.
    - pose proof (packed_index_in_rows (WIDTH st) (HEIGHT st) x y Hx Hy).
      lia. }
  destruct white; unfold or_byte, and_byte.
  - destruct (modify_returns (sharpmem_buffer st) idx
                (fun b => to_uint8 (Z.lor b (set_at (Z.land x 7)))) Hb Hin)
      as (buf' & -> & Hl & Hb'); [intros; apply to_uint8_is_uint8|].
    by exists buf'.
  - destruct (modify_returns (sharpmem_buffer st) idx
                (fun b => to_uint8 (Z.land b (clr_at (Z.land x 7)))) Hb Hin)
      as (buf' & -> & Hl & Hb'); [intros; apply to_uint8_is_uint8|].
    by exists buf'.
Qed.

Lemma drawPixel_returns st x y color :
  canvas_ok st -> padded_buffer st ->
  returns_padded st (drawPixel st x y color).
Proof.
  intros Hok Hpad.
  destruct (decide (0 <= x < _width st /\ 0 <= y < _height st)) as [[Hx Hy]|Hout].
  - destruct (pixel_at_raw_point st x y Hok Hx Hy) as (Hxr & Hyr & -> & _).
    by apply write_raw_returns.
  - unfold drawPixel. rewrite decide_True by lia.
    apply returns_padded_same, Hpad.
Qed.

Lemma to_uint16_range z : 0 <= to_uint16 z <= 65535.
Proof. unfold to_uint16. pose proof (Z.mod_pos_bound z 65536). lia. Qed.

Lemma getPixel_returns st x y :
  canvas_ok st -> padded_buffer st -> is_Some (getPixel st x y).
Proof.
  intros Hok [Hlen _].
  assert (getPixel st x y = getPixel st (to_uint16 x) (to_uint16 y)) as ->.
  { unfold getPixel. cbv zeta.
    by rewrite !(to_uint16_id (to_uint16 _)) by apply to_uint16_range. }
  pose proof (to_uint16_range x). pose proof (to_uint16_range y).
  destruct (decide (to_uint16 x < _width st /\ to_uint16 y < _height st))
    as [[Hx Hy]|Hout].
  - destruct (pixel_at_raw_point st (to_uint16 x) (to_uint16 y) Hok
                ltac:(lia) ltac:(lia)) as (Hxr & Hyr & _ & ->).
    unfold read_raw.
    pose proof (packed_index_in_rows (WIDTH st) (HEIGHT st) _ _ Hxr Hyr).
    destruct (load_in_range (sharpmem_buffer st)
                (Z.quot ((raw_point (WIDTH st) (HEIGHT st) (rotation st)
                            (to_uint16 x) (to_uint16 y)).2 * WIDTH st
                         + (raw_point (WIDTH st) (HEIGHT st) (rotation st)
                              (to_uint16 x) (to_uint16 y)).1) 8))
      as [b ->]; [lia|].
    by eexists.
  - unfold getPixel. cbv zeta.
    rewrite !(to_uint16_id (to_uint16 _)) by apply to_uint16_range.
    rewrite decide_True by lia. by eexists.
Qed.

Lemma raw_hline_returns st x y n color :
  0 <= color ->
  0 < WIDTH st <= 32767 -> 0 <= x < WIDTH st -> 0 <= n ->
  x + n <= WIDTH st -> 0 <= y < HEIGHT st -> padded_buffer st ->
  returns_padded st (drawFastRawHLine st x y n color).
Proof.
  intros Hc HW Hx Hn Hxn Hy Hpad.
  destruct (decide (color <= 7)) as [Hlow|Hhigh].
  - destruct (raw_hline_stamped st x y n color ltac:(lia) HW Hx Hn Hxn Hy
                Hpad) as (buf' & Hrun & Hp).
    eapply returns_padded_stamped; done.
  - destruct (raw_hline_unknown st x y n color ltac:(lia) HW Hx Hn Hxn Hy
                Hpad) as (buf' & Hrun & Hp).
    eapply returns_padded_stamped; done.
Qed.

Lemma raw_vline_returns st x y h color :
  0 <= color ->
  0 < WIDTH st <= 32767 -> 0 <= x < WIDTH st ->
  0 <= y -> 0 <= h -> y + h <= HEIGHT st -> padded_buffer st ->
  returns_padded st (drawFastRawVLine st x y h color).
Proof.
  intros Hc HW Hx Hy Hh Hyh Hpad.
  destruct (decide (color = 0)) as [->|Hpos].
  { destruct (raw_vline_painted st x y h 0 ltac:(by left) HW Hx Hy Hh Hyh
                Hpad) as (buf' & Hrun & Hp).
    eapply returns_padded_painted; done. }
  destruct (decide (color = 2)) as [->|Hne].
  2:{ rewrite drawFastRawVLine_white by lia.
      destruct (raw_vline_painted st x y h 1 ltac:(by right) HW Hx Hy Hh Hyh
                  Hpad) as (buf' & Hrun & Hp).
      eapply returns_padded_painted; done. }
  destruct Hpad as [Hlen Hbytes].
  set (stride := Z.quot (WIDTH st + 7) 8) in *.
  pose proof (quot8_lt_stride x (WIDTH st) Hx) as Hq. fold stride in Hq.
  assert (to_int16 (Z.quot (WIDTH st + 7) 8) = stride) as Hstride.
  { apply to_int16_id. unfold is_int16. subst stride.
    pose proof (Z.quot_rem' (WIDTH st + 7) 8).
    pose proof (Z.rem_bound_pos (WIDTH st + 7) 8). lia. }
  unfold drawFastRawVLine. rewrite Hstride.
  rewrite decide_True by lia. rewrite (decide_True (P := 2 = 2)) by done.
  cbv zeta.
  set (mask := if decide (Z.rem y 2 = 0)
               then to_uint8 (Z.land (set_at (Z.land x 7)) 170)
               else to_uint8 (Z.land (set_at (Z.land x 7)) 85)).
  destruct (column_loop_painted (fun k => Z.testbit mask k = true) true
              (fun m b => to_uint8 (Z.lor b m)) or_byte (Z.to_nat h)
              ltac:(done) mask (sharpmem_buffer st)
              (Z.quot x 8 + y * stride) stride)
    as (buf' & -> & Hp);
    [intros; apply to_uint8_is_uint8 | | done | nia | lia | nia |].
  { intros b k Hk'. apply or_mask_bits, Hk'. }
  eapply returns_padded_painted; done.
Qed.

Lemma rotated_run_returns st x y n color :
  0 <= color ->
  canvas_ok st -> padded_buffer st ->
  0 <= x < _width st -> 0 <= n -> x + n <= _width st -> 0 < x + n ->
  0 <= y < _height st ->
  returns_padded st (rotated_run st x y n color).
Proof.
  intros Hc Hok Hpad Hx Hn Hxn Hpos Hy.
  destruct (canvas_ok_sizes st Hok) as (HW & HH & Hrot).
  unfold rotated_run, getRotation.
  destruct Hrot as [([Hr|Hr] & Hw & Hh) | ([Hr|Hr] & Hw & Hh)];
    rewrite Hr, Hw, Hh in *.
  - rewrite decide_True by done.
    apply raw_hline_returns; [done | done | lia | done | lia | lia | done].
  - rewrite decide_False by lia. rewrite decide_False by lia.
    rewrite decide_True by done. cbv zeta.
    rewrite (to_int16_id (WIDTH st - 1 - x)) by (unfold is_int16; lia).
    rewrite (to_int16_id (HEIGHT st - 1 - y)) by (unfold is_int16; lia).
    rewrite to_int16_id by (unfold is_int16; lia).
    apply raw_hline_returns; [done | done | lia | done | lia | lia | done].
  - rewrite decide_False by lia. rewrite decide_True by done. cbv zeta.
    rewrite to_int16_id by (unfold is_int16; lia).
    apply raw_vline_returns; [done | done | lia | lia | done | lia | done].
  - rewrite decide_False by lia. rewrite decide_False by lia.
    rewrite decide_False by lia. rewrite decide_True by done. cbv zeta.
    rewrite (to_int16_id (HEIGHT st - 1 - x)) by (unfold is_int16; lia).
    rewrite to_int16_id by (unfold is_int16; lia).
    apply raw_vline_returns; [done | done | lia | lia | done | lia | done].
Qed.

Lemma drawFastHLine_returns st x y w color :
  0 <= color ->
  canvas_ok st -> padded_buffer st ->
  -16384 <= x <= 16383 -> -16384 <= w <= 16383 ->
  returns_padded st (drawFastHLine st x y w color).
Proof.
  intros Hc Hok Hpad Hx Hw.
  destruct (canvas_ok_sizes st Hok) as (HW & HH & Hrot).
  assert (0 < _width st <= 32767) as Hwidth by (destruct_or!; lia).
  rewrite drawFastHLine_clipped by done.
  set (a := if decide (w < 0) then x + w + 1 else x).
  assert (-32768 <= a <= 16383) as Ha by (subst a; case_decide; lia).
  clearbody a.
  set (n := Z.abs w). assert (0 <= n <= 16384) as Hn by lia.
  clearbody n. clear Hx Hw.
  case_decide as Hout.
  - apply returns_padded_same, Hpad.
  - apply rotated_run_returns; [done | done | done | lia..].
Qed.

Lemma returns_padded_then st r st1 f :
  r = Some st1 -> returns_padded st r -> returns_padded st1 (f st1) ->
  returns_padded st (r ≫= f).
Proof.
  intros -> (buf1 & [= ->] & Hl1 & Hb1) (buf2 & Hf & Hl2 & Hb2).
  exists buf2. cbn [mbind option_bind]. rewrite Hf.
  split; [done|]. split; [|done]. cbn in Hl2. congruence.
Qed.

Lemma rows_loop_returns x w color (n : nat) : forall st y,
  0 <= color ->
  canvas_ok st -> padded_buffer st ->
  -16384 <= x <= 16383 -> -16384 <= w <= 16383 ->
  returns_padded st (rows_loop n st x y w color).
Proof.
  induction n as [|n IH]; intros st y Hc Hok Hpad Hx Hw.
  - apply returns_padded_same, Hpad.
  - cbn [rows_loop].
    pose proof (drawFastHLine_returns st x y w color Hc Hok Hpad Hx Hw)
      as Hrow.
    destruct Hrow as (buf1 & Hrun & Hl1 & Hb1).
    eapply returns_padded_then; [exact Hrun | by exists buf1 |].
    apply IH; [done | by apply canvas_ok_with_buffer | | done | done].
    destruct Hpad as [Hlen _]. split; [|done]. cbn. by rewrite Hl1.
Qed.

(** X25: with a buffer of [HEIGHT] padded rows of bytes every drawing and
    reading operation stays inside the buffer, for arguments of any sign
    and for every colour selector.  [drawPixel] and [getPixel] return for
    all coordinates; [drawFastHLine] returns for [x] and [w] from -16384
    to 16383 and any row; [fillRect] returns for such [x] and [w] and
    rows [y] to [y + h] within the 16-bit range.  What is returned is the
    same driver with a buffer of the same length that still holds bytes. *)
Theorem padded_buffer_keeps_access_in_bounds st :
  canvas_ok st -> padded_buffer st ->
  (forall x y color, returns_padded st (drawPixel st x y color)) /\
  (forall x y, is_Some (getPixel st x y)) /\
  (forall x y w color,
     0 <= color -> -16384 <= x <= 16383 -> -16384 <= w <= 16383 ->
     returns_padded st (drawFastHLine st x y w color)) /\
  (forall x y w h color,
     0 <= color -> -16384 <= x <= 16383 -> -16384 <= w <= 16383 ->
     is_int16 y -> y + h <= 32767 ->
     returns_padded st (fillRect st x y w h color)).
Proof.
  intros Hok Hpad. split; [|split; [|split]].
  - intros x y color. by apply drawPixel_returns.
  - intros x y. by apply getPixel_returns.
  - intros x y w color Hc Hx Hw. by apply drawFastHLine_returns.
  - intros x y w h color Hc Hx Hw Hy Hyh.
    destruct (decide (h <= 0)) as [Hh|Hh].
    + unfold fillRect. change (Z.to_nat 65536) with (S (Z.to_nat 65535)).
      cbn [fillRect_loop]. rewrite decide_False by lia.
      apply returns_padded_same, Hpad.
    + assert (fillRect st x y w h color
              = rows_loop (Z.to_nat h) st x y w color) as ->.
      { unfold fillRect. rewrite <- (Z2Nat.id h) at 1 by lia.
        apply fillRect_loop_rows; [done | lia | unfold is_int16 in Hy; lia]. }
      by apply rows_loop_returns.
Qed.

Lemma padded_buffer_keeps_access_in_bounds_witness :
  (forall x y color,
     returns_padded (panel 12 4 1 (replicate 8 0) 2)
       (drawPixel (panel 12 4 1 (replicate 8 0) 2) x y color)) /\
  (forall x y, is_Some (getPixel (panel 12 4 1 (replicate 8 0) 2) x y)) /\
  (forall x y w color,
     0 <= color -> -16384 <= x <= 16383 -> -16384 <= w <= 16383 ->
     returns_padded (panel 12 4 1 (replicate 8 0) 2)
       (drawFastHLine (panel 12 4 1 (replicate 8 0) 2) x y w color)) /\
  (forall x y w h color,
     0 <= color -> -16384 <= x <= 16383 -> -16384 <= w <= 16383 ->
     is_int16 y -> y + h <= 32767 ->
     returns_padded (panel 12 4 1 (replicate 8 0) 2)
       (fillRect (panel 12 4 1 (replicate 8 0) 2) x y w h color)).
Proof.
  apply (padded_buffer_keeps_access_in_bounds
           (panel 12 4 1 (replicate 8 0) 2)); [panel_facts|].
  split; [by vm_compute|]. by repeat constructor.
Defined.

(** ** The allocation against the padded rows *)

(** X26: on a panel whose width is not a multiple of 8, [begin]'s block of
    [(WIDTH * HEIGHT) / 8] bytes is too short for the padded rows that
    BLACK and WHITE pixels are written to: [drawPixel] with colour 0 or 1
    at the canvas point of the last raw pixel, [(WIDTH - 1, HEIGHT - 1)],
    addresses a byte past the end of the block and has no result, in every
    rotation and for every height. *)
Theorem unaligned_last_pixel_is_out_of_bounds st x y color :
  canvas_ok st -> allocated st -> Z.rem (WIDTH st) 8 <> 0 ->
  color = 0 \/ color = 1 ->
  0 <= x < _width st -> 0 <= y < _height st ->
  raw_point (WIDTH st) (HEIGHT st) (rotation st) x y
    = (WIDTH st - 1, HEIGHT st - 1) ->
  drawPixel st x y color = None.
Proof.
  intros Hok Ha Hal Hc Hx Hy Hraw.
  destruct (canvas_ok_sizes st Hok) as (HW & HH & _).
  destruct (pixel_at_raw_point st x y Hok Hx Hy) as (_ & _ & -> & _).
  rewrite Hraw. cbn [fst snd].
  unfold allocated, buffer_bytes in Ha.
  set (W := WIDTH st) in *. set (H := HEIGHT st) in *.
  assert (Z.of_nat (length (sharpmem_buffer st))
          <= Z.quot (W - 1) 8 + (H - 1) * Z.quot (W + 7) 8) as Hpast.
  { rewrite Ha.
    pose proof (Z.quot_rem' W 8) as HqW.
    pose proof (Z.rem_bound_pos W 8 ltac:(lia) ltac:(lia)) as HrW.
    pose proof (Z.quot_rem' (W - 1) 8) as Hq1.
    pose proof (Z.rem_bound_pos (W - 1) 8 ltac:(lia) ltac:(lia)) as Hr1.
    pose proof (Z.quot_rem' (W + 7) 8) as Hq7.
    pose proof (Z.rem_bound_pos (W + 7) 8 ltac:(lia) ltac:(lia)) as Hr7.
    pose proof (Z.quot_rem' (W * H) 8) as HqA.
    pose proof (Z.rem_bound_pos (W * H) 8 ltac:(nia) ltac:(lia)) as HrA.
    assert (Z.quot (W + 7) 8 = Z.quot W 8 + 1) as -> by lia.
    assert (Z.quot (W - 1) 8 = Z.quot W 8) as -> by lia.
    nia. }
  unfold write_raw. cbv zeta. fold W.
  assert (load (sharpmem_buffer st)
               (Z.quot (W - 1) 8 + (H - 1) * Z.quot (W + 7) 8) = None) as Hl.
  { unfold load. case_decide; [|done]. apply lookup_ge_None. lia. }
  destruct Hc as [-> | ->]; unfold and_byte, or_byte, modify; by rewrite Hl.
Qed.

Lemma unaligned_last_pixel_is_out_of_bounds_witness :
  drawPixel (panel 12 4 1 (replicate 6 0xFF) 2) 3 0 0 = None.
Proof.
  apply (unaligned_last_pixel_is_out_of_bounds
           (panel 12 4 1 (replicate 6 0xFF) 2) 3 0 0); try panel_facts.
Defined.

(** ** GRAY columns *)

Lemma column_loop_or_zero (n : nat) : forall buf ptr stride,
  Forall is_uint8 buf -> 0 <= ptr -> 0 <= stride ->
  ptr + (Z.of_nat n - 1) * stride < Z.of_nat (length buf) ->
  column_loop n or_byte 0 buf ptr stride = Some buf.
Proof.
  induction n as [|n IH]; intros buf ptr stride Hb Hp Hs Hlen; [done|].
  cbn [column_loop].
  assert (or_byte buf ptr 0 = Some buf) as ->.
  { destruct (load_in_range buf ptr ltac:(nia)) as [b Hl].
    unfold or_byte, modify. rewrite Hl. cbn.
    unfold store. rewrite decide_True by nia. f_equal.
    unfold load in Hl. rewrite decide_True in Hl by lia.
    rewrite Z.lor_0_r, to_uint8_id
      by (eapply Forall_lookup_1; [exact Hb | exact Hl]).
    by apply list_insert_id. }
  cbn. apply IH; [done | lia | lia | nia].
Qed.

Lemma gray_mask x y :
  0 <= x -> 0 <= y ->
  (if decide (Z.rem y 2 = 0)
   then to_uint8 (Z.land (set_at (Z.land x 7)) 170)
   else to_uint8 (Z.land (set_at (Z.land x 7)) 85))
  = if decide (Z.rem (x + y) 2 = 0) then 0 else set_at (Z.land x 7).
Proof.
  intros Hx Hy. rewrite land7_mod.
  rewrite !Z.rem_mod_nonneg by lia.
  pose proof (Z.div_mod x 8 ltac:(lia)) as Hx8.
  pose proof (Z.mod_pos_bound x 8 ltac:(lia)) as Hk.
  pose proof (Z.div_mod (x + y) 2 ltac:(lia)) as Hs.
  pose proof (Z.mod_pos_bound (x + y) 2 ltac:(lia)) as Hs2.
  pose proof (Z.div_mod y 2 ltac:(lia)) as Hy2.
  pose proof (Z.mod_pos_bound y 2 ltac:(lia)) as Hy2b.
  assert (x mod 8 = 0 \/ x mod 8 = 1 \/ x mod 8 = 2 \/ x mod 8 = 3 \/
          x mod 8 = 4 \/ x mod 8 = 5 \/ x mod 8 = 6 \/ x mod 8 = 7)
    as Hcases by lia.
  destruct (decide (y mod 2 = 0)) as [Hev|Hodd];
    destruct (decide ((x + y) mod 2 = 0)) as [Hsev|Hsodd];
    destruct_or!; rewrite Hcases in *; try lia; reflexivity.
Qed.

(** X27: a raw vertical run with GRAY is no checkerboard.  Inside a padded
    buffer, [drawFastRawVLine] with colour 2 from [(x, y)] leaves the
    driver exactly as it was when [x + y] is even, and does exactly what
    it does for WHITE when [x + y] is odd, whatever the length of the run:
    the parity of the starting row alone decides for the whole column.
    These are the runs behind [drawFastHLine] in rotations 1 and 3. *)
Theorem gray_column_is_white_or_untouched st x y h :
  0 < WIDTH st <= 32767 -> 0 <= x < WIDTH st ->
  0 <= y -> 0 <= h -> y + h <= HEIGHT st -> padded_buffer st ->
  drawFastRawVLine st x y h 2
  = if decide (Z.rem (x + y) 2 = 0) then Some st
    else drawFastRawVLine st x y h 1.
Proof.
  intros HW Hx Hy Hh Hyh [Hlen Hbytes].
  set (stride := Z.quot (WIDTH st + 7) 8) in *.
  pose proof (quot8_lt_stride x (WIDTH st) Hx) as Hq. fold stride in Hq.
  assert (to_int16 (Z.quot (WIDTH st + 7) 8) = stride) as Hstride.
  { apply to_int16_id. unfold is_int16. subst stride.
    pose proof (Z.quot_rem' (WIDTH st + 7) 8).
    pose proof (Z.rem_bound_pos (WIDTH st + 7) 8). lia. }
  unfold drawFastRawVLine. rewrite Hstride.
  rewrite (decide_True (P := 2 > 0)) by lia.
  rewrite (decide_True (P := 2 = 2)) by done.
  rewrite (decide_True (P := 1 > 0)) by lia.
  rewrite (decide_False (P := 1 = 2)) by lia.
  cbv zeta. rewrite gray_mask by lia.
  destruct (decide (Z.rem (x + y) 2 = 0)) as [Hev|Hodd]; [|done].
  rewrite column_loop_or_zero; [|done|nia|lia|nia].
  cbn. by rewrite with_own_buffer.
Qed.

Lemma gray_column_is_white_or_untouched_witness :
  drawFastRawVLine (panel 12 4 0 (replicate 8 0) 2) 9 1 3 2
  = (if decide (Z.rem (9 + 1) 2 = 0)
     then Some (panel 12 4 0 (replicate 8 0) 2)
     else drawFastRawVLine (panel 12 4 0 (replicate 8 0) 2) 9 1 3 1) /\
  drawFastRawVLine (panel 12 4 0 (replicate 8 0) 2) 9 0 4 2
  = (if decide (Z.rem (9 + 0) 2 = 0)
     then Some (panel 12 4 0 (replicate 8 0) 2)
     else drawFastRawVLine (panel 12 4 0 (replicate 8 0) 2) 9 0 4 1).
Proof.
  split.
  - apply (gray_column_is_white_or_untouched
             (panel 12 4 0 (replicate 8 0) 2) 9 1 3); try panel_facts.
    by repeat constructor.
  - apply (gray_column_is_white_or_untouched
             (panel 12 4 0 (replicate 8 0) 2) 9 0 4); try panel_facts.
    by repeat constructor.
Defined.

(** ** Line addresses beyond 255 rows *)

(** X28: the line address on the wire is one byte.  On a panel at least 16
    pixels wide whose width is a multiple of 8, with a buffer of at most
    65535 bytes and any number of rows, [refresh] returns and the record
    of row [r] (0-based) starts with [(r + 1) mod 256], followed by the
    row's bytes and a zero: from row 255 on the addresses start again at
    0, so rows [r] and [r + 256] are sent under the same address. *)
Theorem refresh_address_is_one_byte
    SHARPMEM_BIT_WRITECMD SHARPMEM_BIT_VCOM st :
  refresh_ready st -> 16 <= WIDTH st ->
  exists st',
    refresh SHARPMEM_BIT_WRITECMD SHARPMEM_BIT_VCOM st = Some st' /\
    bus st' = bus st ++
      [BeginTransaction; DigitalWrite (_cs st) true;
       Transfer [to_uint8 (Z.lor (_sharpmem_vcom st) SHARPMEM_BIT_WRITECMD)]]
      ++ map (fun r =>
                Transfer ([(r + 1) mod 256]
                          ++ take (Z.to_nat (Z.quot (WIDTH st) 8))
                               (drop (Z.to_nat (r * Z.quot (WIDTH st) 8))
                                     (sharpmem_buffer st))
                          ++ [0]))
             (seqZ 0 (HEIGHT st))
      ++ [Transfer [0]; DigitalWrite (_cs st) false; EndTransaction].
Proof.
  intros Hready H16.
  destruct (refresh_trace SHARPMEM_BIT_WRITECMD SHARPMEM_BIT_VCOM st Hready)
    as (st' & Hrun & Hbus).
  destruct Hready as (Ha & Hw & Hr & Hh & Hn).
  assert (2 <= Z.quot (WIDTH st) 8) as Hd.
  { pose proof (Z.quot_rem' (WIDTH st) 8). lia. }
  exists st'. split; [done|].
  rewrite Hbus. do 2 f_equal. f_equal. apply map_ext_in.
  intros r Hin. apply list_elem_of_In, elem_of_seqZ in Hin.
  unfold row_record.
  rewrite row_address_from_16 by lia.
  rewrite to_uint16_id by lia. done.
Qed.

Lemma refresh_address_is_one_byte_witness :
  exists st',
    refresh 1 2 (panel 16 257 0 (replicate 514 0) 2) = Some st' /\
    bus st' = bus (panel 16 257 0 (replicate 514 0) 2) ++
      [BeginTransaction; DigitalWrite 10 true;
       Transfer [to_uint8 (Z.lor 2 1)]]
      ++ map (fun r =>
                Transfer ([(r + 1) mod 256]
                          ++ take (Z.to_nat (Z.quot 16 8))
                               (drop (Z.to_nat (r * Z.quot 16 8))
                                     (replicate 514 0))
                          ++ [0]))
             (seqZ 0 257)
      ++ [Transfer [0]; DigitalWrite 10 false; EndTransaction].
Proof.
  apply (refresh_address_is_one_byte 1 2
           (panel 16 257 0 (replicate 514 0) 2)); panel_facts.
Defined.

(** ** Rotation, bit by bit *)









(** ** Raw vertical runs, colour by colour *)

Lemma bit_at_outside buf g :
  ~ (0 <= g < 8 * Z.of_nat (length buf)) -> bit_at buf g = false.
Proof.
  intros Hout. unfold bit_at, load.
  pose proof (Z.div_mod g 8 ltac:(lia)).
  pose proof (Z.mod_pos_bound g 8 ltac:(lia)).
  case_decide; [|done].
  rewrite (proj2 (lookup_ge_None _ _)); [done|]. lia.
Qed.

(** The mask that GRAY ORs into each byte of the column has at most the
    bit of the column, and has it where [0xAA], on an even starting row,
    or [0x55], on an odd one, has it. *)
Lemma gray_mask_bits x y k :
  0 <= k < 8 ->
  Z.testbit (if decide (Z.rem y 2 = 0)
             then to_uint8 (Z.land (set_at (Z.land x 7)) 170)
             else to_uint8 (Z.land (set_at (Z.land x 7)) 85)) k = true <->
  k = x mod 8 /\
  Z.testbit (if decide (Z.rem y 2 = 0) then 170 else 85) (x mod 8) = true.
Proof.
  intros Hk. pose proof (land7_range x) as Hr.
  assert (forall m,
            Z.testbit (to_uint8 (Z.land (set_at (Z.land x 7)) m)) k = true <->
            k = x mod 8 /\ Z.testbit m (x mod 8) = true) as Hm.
  { intros m. rewrite to_uint8_testbit, Z.land_spec by lia.
    rewrite andb_true_iff, set_at_bit, land7_mod by lia.
    split; intros [-> Hbit]; done. }
  destruct (decide (Z.rem y 2 = 0)); apply Hm.
Qed.

(** A raw vertical run inside the buffer, in bits, for every selector. *)
Lemma raw_vline_bits st x y h color :
  0 < WIDTH st <= 32767 -> 0 <= x < WIDTH st -> 0 <= y -> 0 <= h ->
  (y + h) * Z.quot (WIDTH st + 7) 8 <= Z.of_nat (length (sharpmem_buffer st)) ->
  Forall is_uint8 (sharpmem_buffer st) ->
  exists buf',
    drawFastRawVLine st x y h color = Some (with_buffer st buf') /\
    painted (fun g =>
               (exists i, 0 <= i < h /\
                  g = pixel_bit (Z.quot (WIDTH st + 7) 8) x (y + i)) /\
               (color = 2 ->
                Z.testbit (if decide (Z.rem y 2 = 0) then 0xAA else 0x55)
                          (x mod 8) = true))
            (bool_decide (color > 0)) (sharpmem_buffer st) buf'.
Proof.
  intros HW Hx Hy Hh Hlen Hbytes.
  set (stride := Z.quot (WIDTH st + 7) 8) in *.
  pose proof (quot8_lt_stride x (WIDTH st) Hx) as Hq. fold stride in Hq.
  assert (to_int16 (Z.quot (WIDTH st + 7) 8) = stride) as Hstride.
  { apply to_int16_id. unfold is_int16. subst stride.
    pose proof (Z.quot_rem' (WIDTH st + 7) 8).
    pose proof (Z.rem_bound_pos (WIDTH st + 7) 8). lia. }
  pose proof (land7_range x) as Hk.
  assert (forall g, 0 <= g ->
            (exists i, 0 <= i < Z.of_nat (Z.to_nat h) /\
                       g / 8 = Z.quot x 8 + y * stride + i * stride /\
                       g mod 8 = x mod 8) <->
            (exists i, 0 <= i < h /\ g = pixel_bit stride x (y + i))) as Hset.
  { intros g Hg. rewrite Z.quot_div_nonneg by lia.
    split; intros (i & Hi & Hrest); exists i; (split; [lia|]).
    - apply byte_of_pixel; [lia..|]. split; [lia | tauto].
    - apply byte_of_pixel in Hrest; [|lia..]. split; [lia | tauto]. }
  unfold drawFastRawVLine. rewrite Hstride.
  destruct (decide (color > 0)) as [Hpos|Hzero].
  - rewrite bool_decide_eq_true_2 by done. cbv zeta.
    destruct (decide (color = 2)) as [->|Hne].
    + set (mask := if decide (Z.rem y 2 = 0)
                   then to_uint8 (Z.land (set_at (Z.land x 7)) 170)
                   else to_uint8 (Z.land (set_at (Z.land x 7)) 85)).
      destruct (column_loop_painted (fun k => Z.testbit mask k = true) true
                  (fun m b => to_uint8 (Z.lor b m)) or_byte (Z.to_nat h)
                  ltac:(done) mask (sharpmem_buffer st)
                  (Z.quot x 8 + y * stride) stride)
        as (buf' & -> & Hp);
        [intros; apply to_uint8_is_uint8 | | done | nia | lia | nia |].
      { intros b k Hk'. apply or_mask_bits, Hk'. }
      exists buf'. split; [done|].
      eapply painted_iff; [|exact Hp]. intros g Hg. cbn beta.
      pose proof (Z.mod_pos_bound g 8 ltac:(lia)) as Hgk.
      split.
      * intros (i & Hi & Hbyte & Hbit).
        apply gray_mask_bits in Hbit as [Hmod Hm]; [|done].
        split; [|by intros _]. apply Hset; [lia|]. by exists i.
      * intros [Hcol Hm]. apply Hset in Hcol as (i & Hi & Hbyte & Hmod);
          [|lia].
        exists i. split; [done|]. split; [done|].
        apply gray_mask_bits; [done|]. split; [done | by apply Hm].
    + destruct (column_loop_painted (fun k => k = x mod 8) true
                  (fun m b => to_uint8 (Z.lor b m)) or_byte (Z.to_nat h)
                  ltac:(done) (set_at (Z.land x 7)) (sharpmem_buffer st)
                  (Z.quot x 8 + y * stride) stride)
        as (buf' & -> & Hp);
        [intros; apply to_uint8_is_uint8 | | done | nia | lia | nia |].
      { intros b k Hk'.
        destruct (or_mask_bits (set_at (Z.land x 7)) b k Hk')
          as [[Hs ?]|[Hs ?]]; [left | right];
          rewrite set_at_bit, land7_mod in Hs by lia; tauto. }
      exists buf'. split; [done|].
      eapply painted_iff; [|exact Hp]. intros g Hg. cbn beta.
      rewrite (Hset g) by lia. split; [|tauto].
      intros Hcol. split; [done|]. intros ->. done.
  - rewrite bool_decide_eq_false_2 by done.
    destruct (column_loop_painted (fun k => k = x mod 8) false
                (fun m b => to_uint8 (Z.land b m)) and_byte (Z.to_nat h)
                ltac:(done) (clr_at (Z.land x 7)) (sharpmem_buffer st)
                (Z.quot x 8 + y * stride) stride)
      as (buf' & -> & Hp);
      [intros; apply to_uint8_is_uint8 | | done | nia | lia | nia |].
    { intros b k Hk'. rewrite and_clr_bits by lia.
      destruct (and_not_mask_bits (set_at (Z.land x 7)) b k Hk')
        as [[Hs ?]|[Hs ?]]; [left | right];
        rewrite set_at_bit, land7_mod in Hs by lia; tauto. }
    exists buf'. split; [done|].
    eapply painted_iff; [|exact Hp]. intros g Hg. cbn beta.
    rewrite (Hset g) by lia. split; [|tauto].
    intros Hcol. split; [done|]. intros ->. lia.
Qed.

(** C9: what [drawFastRawVLine] does to the bits of its column, the pixels
    [(x, y) .. (x, y + h - 1)], for a run that lies inside the buffer.  It
    returns and changes the buffer only.  Colour 0 clears every bit of the
    column.  Every colour above 0 other than GRAY - WHITE and the dither
    selectors 3..7 alike - sets every bit of the column, and gives the very
    result of WHITE.  GRAY sets the bits of the column if the mask [0xAA],
    on an even starting row [y], or [0x55], on an odd one, has the bit of
    the column [x mod 8], and otherwise sets none.  No bit outside the
    column changes, and a colour above 0 clears no bit at all. *)
Theorem raw_vline_colours st x y h color :
  0 < WIDTH st <= 32767 -> 0 <= x < WIDTH st -> 0 <= y -> 0 <= h ->
  0 <= color ->
  (y + h) * Z.quot (WIDTH st + 7) 8 <= Z.of_nat (length (sharpmem_buffer st)) ->
  Forall is_uint8 (sharpmem_buffer st) ->
  let stride := Z.quot (WIDTH st + 7) 8 in
  let column g := exists i, 0 <= i < h /\ g = pixel_bit stride x (y + i) in
  let gray_mask := if decide (Z.rem y 2 = 0) then 0xAA else 0x55 in
  exists st',
    drawFastRawVLine st x y h color = Some st' /\
    only_buffer_changed st st' /\
    (color = 0 ->
     painted column false (sharpmem_buffer st) (sharpmem_buffer st')) /\
    (color > 0 -> color <> 2 ->
     painted column true (sharpmem_buffer st) (sharpmem_buffer st') /\
     drawFastRawVLine st x y h color = drawFastRawVLine st x y h 1) /\
    (color = 2 ->
     painted (fun g => column g /\ Z.testbit gray_mask (x mod 8) = true)
             true (sharpmem_buffer st) (sharpmem_buffer st')) /\
    (color > 0 ->
     forall g, bit_at (sharpmem_buffer st) g = true ->
               bit_at (sharpmem_buffer st') g = true).
Proof.
  intros HW Hx Hy Hh Hc Hlen Hbytes stride column gray_mask.
  destruct (raw_vline_bits st x y h color HW Hx Hy Hh Hlen Hbytes)
    as (buf' & Hrun & Hp).
  fold stride in Hp.
  exists (with_buffer st buf'). split; [done|].
  split; [exact (drawFastRawVLine_frame _ _ _ _ _ _ Hrun)|].
  cbn [sharpmem_buffer with_buffer].
  split; [|split; [|split]].
  - intros ->. rewrite bool_decide_eq_false_2 in Hp by lia.
    eapply painted_iff; [|exact Hp]. intros g _. cbn beta.
    subst column. cbn beta. split; [tauto|]. intros Hcol. split; [done|]. lia.
  - intros Hpos Hne. rewrite bool_decide_eq_true_2 in Hp by done. split.
    + eapply painted_iff; [|exact Hp]. intros g _. cbn beta.
      subst column. cbn beta. split; [tauto|]. intros Hcol. split; [done|].
      done.
    + by apply drawFastRawVLine_white.
  - intros ->. rewrite bool_decide_eq_true_2 in Hp by lia.
    eapply painted_iff; [|exact Hp]. intros g _. cbn beta.
    subst column gray_mask. cbn beta. split.
    + intros [Hcol Hbit]. split; [done|]. by apply Hbit.
    + intros [Hcol Hbit]. split; done.
  - intros Hpos g Hset. rewrite bool_decide_eq_true_2 in Hp by done.
    destruct Hp as (Hl & _ & Hbits).
    destruct (decide (0 <= g < 8 * Z.of_nat (length (sharpmem_buffer st))))
      as [Hg|Hg].
    + destruct (Hbits g Hg) as [[_ ->]|[_ ->]]; done.
    + by rewrite bit_at_outside in Hset.
Qed.

(** On a 16x4 panel the run of three pixels down from raw (9, 1) with the
    dither selector 5 sets the three bits of its column and is the run of
    WHITE; with BLACK it clears them. *)
Lemma raw_vline_colours_witness :
  (exists st',
     drawFastRawVLine (panel 16 4 0 (replicate 8 0) 2) 9 1 3 5 = Some st' /\
     painted (fun g => exists i, 0 <= i < 3 /\ g = pixel_bit 2 9 (1 + i))
             true (replicate 8 0) (sharpmem_buffer st') /\
     drawFastRawVLine (panel 16 4 0 (replicate 8 0) 2) 9 1 3 5 =
     drawFastRawVLine (panel 16 4 0 (replicate 8 0) 2) 9 1 3 1) /\
  (exists st',
     drawFastRawVLine (panel 16 4 0 (replicate 8 0xFF) 2) 9 1 3 0 = Some st' /\
     painted (fun g => exists i, 0 <= i < 3 /\ g = pixel_bit 2 9 (1 + i))
             false (replicate 8 0xFF) (sharpmem_buffer st')).
Proof.
  split.
  - destruct (raw_vline_colours (panel 16 4 0 (replicate 8 0) 2) 9 1 3 5)
      as (st' & Hrun & _ & _ & Hwhite & _);
      [panel_facts.. | by repeat constructor |].
    destruct (Hwhite ltac:(lia) ltac:(lia)) as [Hp Heq].
    exists st'. split; [exact Hrun|]. split; [exact Hp | exact Heq].
  - destruct (raw_vline_colours (panel 16 4 0 (replicate 8 0xFF) 2) 9 1 3 0)
      as (st' & Hrun & _ & Hblack & _);
      [panel_facts.. | by repeat constructor |].
    exists st'. split; [exact Hrun|]. exact (Hblack eq_refl).
Defined.
